(** * Time-dependent advection-diffusion model and space-time misfit

    A shallow embedding of [model_ad_diff.py]: the data-misfit class
    [SpaceTimePointwiseStateObservation] and the PDE model class
    [TimeDependentAD].

    The numerical kernels the program calls (dolfin vectors and matrices,
    the LU solver, weak-form assembly and symbolic differentiation, the
    prior) are external libraries.  They appear here as the operations of
    a type class, [Backend], and of a record, [Prior]; every function of
    the program is written once, over an arbitrary backend.  What the
    program itself does - which vector is read or overwritten when, which
    container is zeroed, which operator is solved against, in which order
    the time loop runs, which Python object aliases which - is modelled
    explicitly: Python objects live in a store addressed by references,
    and every method is a computation in a state-and-exception monad over
    that store. *)

From Stdlib Require Import ZArith Lia.
From stdpp Require Import base decidable option list.

Set Default Proof Using "Type".

(** ** Symbolic weak forms *)

(** An argument of the weak form: a trial function, a test function, or a
    finite-element function holding the coefficients [v]
    ([vector2Function(v, Vh)], [dl.Function(Vh, v)]). *)
Inductive arg (vec : Type) : Type :=
| TrialFunction
| TestFunction
| Function (v : vec).
Arguments TrialFunction {vec}.
Arguments TestFunction {vec}.
Arguments Function {vec} v.

(** The coefficient a form is differentiated with respect to: the first
    ([ut]), second ([m]) or third ([pt]) argument of [pde_varf]. *)
Inductive coefficient : Type := wrt_u | wrt_m | wrt_p.

(** The forms the program builds: [self.pde_varf(u, m, p)] and
    [dl.derivative(F, c)] / [dl.derivative(F, c, du)]. *)
Inductive form (vec : Type) : Type :=
| pde_varf (u m p : arg vec)
| derivative (F : form vec) (c : coefficient) (du : option vec).
Arguments pde_varf {vec} u m p.
Arguments derivative {vec} F c du.

(** ** The numerical backend *)

(** [scalar] is the type of Python floats, [vec] of [dl.Vector]s, [op] of
    assembled matrices.  [lit z] is the float literal of the integer [z]
    ([0], [1.], [2.], [-1.]).  [axpy a x y] is the value of [y] after
    [y.axpy(a, x)]; [op_mult A x] the vector written by [A.mult(x, y)];
    [lu_solve A b] the vector written by [solver.solve(u, b)] for a
    solver whose operator is [A].  Vector sizes are the backend's
    business: [vzero] is the vector [init_vector] followed by [zero()]
    produces. *)
Class Backend (scalar vec op : Type) : Type := {
  scalar_eq_dec :: EqDecision scalar;
  lit : Z -> scalar;
  fadd : scalar -> scalar -> scalar;
  fsub : scalar -> scalar -> scalar;
  fmul : scalar -> scalar -> scalar;
  fdiv : scalar -> scalar -> scalar;
  vzero : vec;
  axpy : scalar -> vec -> vec -> vec;
  vadd : vec -> vec -> vec;
  vsub : vec -> vec -> vec;
  vscale : scalar -> vec -> vec;
  inner : vec -> vec -> scalar;
  op_add : op -> op -> op;
  op_scale : scalar -> op -> op;
  op_mult : op -> vec -> vec;
  op_transpmult : op -> vec -> vec;
  lu_solve : op -> vec -> vec;
  assemble_vector : form vec -> vec;
  assemble_matrix : form vec -> op
}.

(** The prior, as far as the model uses it: [prior.mean],
    [prior.R.mult], [prior.Msolver.solve], [prior.cost]. *)
Record Prior (scalar vec : Type) : Type := {
  mean : vec;
  R_mult : vec -> vec;
  Msolver_solve : vec -> vec;
  prior_cost : vec -> scalar
}.
Arguments mean {scalar vec} _.
Arguments R_mult {scalar vec} _ _.
Arguments Msolver_solve {scalar vec} _ _.
Arguments prior_cost {scalar vec} _ _.

(** Modelled from the spec: the role tags [STATE], [PARAMETER], [ADJOINT]
    are imported from hippylib and not defined in the source; they are
    the integer tags the source compares block indices with.  The source
    also indexes with them the triple [x = [u, m, p]] it builds in
    [generate_vector], which fixes their values. *)
Definition STATE : Z := 0%Z.
Definition PARAMETER : Z := 1%Z.
Definition ADJOINT : Z := 2%Z.

(** ** Python exceptions and results *)

Inductive PyErr : Type :=
| AssertionError
| AttributeError
| TypeError
| IndexError
| ZeroDivisionError
| RuntimeError.

Inductive result (A : Type) : Type :=
| Ok (a : A)
| Raise (e : PyErr).
Arguments Ok {A} a.
Arguments Raise {A} e.

(** ** The object store *)

Section Store.
Context {scalar vec op : Type} `{BE : Backend scalar vec op}.

(** Modelled from the spec: the time-indexed vector container
    (hippylib's [TimeDependentVector]) is not part of the source.  It is
    "an ordered sequence of vectors keyed by time stamps from a fixed
    time grid" with [store], [retrieve], [zero], [copy] and scalar
    scaling; a time stamp that is not on the grid is a precondition
    violation.  [store] and [retrieve] copy values in and out: the
    container never shares a vector with its caller. *)
Record TimeDependentVector : Type := {
  times : list scalar;
  data : list vec
}.

(** Modelled from the spec: the position of the time stamp [t] on the
    grid [ts], by which [store] and [retrieve] find a snapshot. *)
Fixpoint grid_index (ts : list scalar) (t : scalar) : option nat :=
  match ts with
  | [] => None
  | t' :: ts' => if decide (t' = t) then Some 0
                 else S <$> grid_index ts' t
  end.

(** Modelled from the spec: [TimeDependentVector(times)] followed by
    [initialize(M, 0)], one zero snapshot per time. *)
Definition tdv_new (ts : list scalar) : TimeDependentVector :=
  {| times := ts; data := replicate (length ts) vzero |}.

(** Modelled from the spec: [zero()] zeroes every snapshot, and scalar
    scaling scales every snapshot. *)
Definition tdv_zero (c : TimeDependentVector) : TimeDependentVector :=
  {| times := times c; data := (fun _ => vzero) <$> data c |}.

Definition tdv_scale (a : scalar) (c : TimeDependentVector) : TimeDependentVector :=
  {| times := times c; data := vscale a <$> data c |}.

(** Modelled from the spec: [store(u, t)] overwrites, and
    [retrieve(buf, t)] reads, the snapshot at the time stamp [t]; both
    fail for a time stamp that is not on the grid. *)
Definition tdv_store (u : vec) (t : scalar) (c : TimeDependentVector)
  : result TimeDependentVector :=
  match grid_index (times c) t with
  | Some i => if decide (i < length (data c))
              then Ok {| times := times c; data := <[i := u]> (data c) |}
              else Raise IndexError
  | None => Raise AssertionError
  end.

Definition tdv_retrieve (c : TimeDependentVector) (t : scalar) : result vec :=
  match grid_index (times c) t with
  | Some i => match data c !! i with
              | Some v => Ok v
              | None => Raise IndexError
              end
  | None => Raise AssertionError
  end.

(** A Python object of the store: a [dl.Vector] or a time-indexed
    container.  Both are mutable and are passed by reference. *)
Inductive pyobj : Type :=
| PyVector (v : vec)
| PyTDV (c : TimeDependentVector).

(** A reference is Python's [None] or the location of an object in the
    store.  Every method call on [None] raises [AttributeError]. *)
Definition ref : Type := option nat.

(** The attributes of the model object that its methods assign:
    [self.N], [self.L], [self.solver] (the operator the forward LU solver
    was given), [self.Nt], [self.Lt], [self.solvert], [self.x] and
    [self.gauss_newton_approx]. *)
Record attrs : Type := {
  attr_N : option op;
  attr_L : option op;
  attr_solver : option op;
  attr_Nt : option op;
  attr_Lt : option op;
  attr_solvert : option op;
  attr_x : list ref;
  attr_gauss_newton_approx : bool
}.

Record state : Type := {
  heap : list pyobj;
  self_attrs : attrs
}.

(** ** The monad of Python computations *)

Definition Py (A : Type) : Type := state -> result (A * state).

Definition ret {A} (a : A) : Py A := fun s => Ok (a, s).

Definition bind {A B} (c : Py A) (k : A -> Py B) : Py B :=
  fun s => match c s with
           | Ok (a, s') => k a s'
           | Raise e => Raise e
           end.

Definition raise {A} (e : PyErr) : Py A := fun _ => Raise e.

Definition lift {A} (r : result A) : Py A :=
  fun s => match r with Ok a => Ok (a, s) | Raise e => Raise e end.

End Store.

Declare Scope py_scope.
Delimit Scope py_scope with py.
Notation "x <- c1 ;; c2" := (bind c1 (fun x => c2))
  (at level 90, c1 at next level, right associativity) : py_scope.
Notation "c1 ;;; c2" := (bind c1 (fun _ => c2))
  (at level 90, right associativity) : py_scope.
Open Scope py_scope.

Section Primitives.
Context {scalar vec op : Type} `{BE : Backend scalar vec op}.

Local Abbreviation Py := (@Py scalar vec op).
Local Abbreviation state := (@state scalar vec op).
Local Abbreviation pyobj := (@pyobj scalar vec).

Definition set_heap (h : list pyobj) (s : state) : state :=
  {| heap := h; self_attrs := self_attrs s |}.

Definition set_attrs (a : attrs) (s : state) : state :=
  {| heap := heap s; self_attrs := a |}.

(** [for t in l: body], with the loop-carried local variables [acc]. *)
Fixpoint for_each {T S : Type} (l : list T) (body : T -> S -> Py S) (acc : S)
  : Py S :=
  match l with
  | [] => ret acc
  | t :: l' => acc' <- body t acc ;; for_each l' body acc'
  end.

(** The object a reference names. *)
Definition deref (r : ref) : Py (nat * pyobj) :=
  fun s => match r with
           | Some l => match heap s !! l with
                       | Some o => Ok ((l, o), s)
                       | None => Raise AttributeError
                       end
           | None => Raise AttributeError
           end.

(** In-place update of the object at location [l]. *)
Definition assign (l : nat) (o : pyobj) : Py unit :=
  fun s => Ok (tt, set_heap (<[l := o]> (heap s)) s).

(** Allocation of a new object; its location is fresh. *)
Definition alloc (o : pyobj) : Py ref :=
  fun s => Ok (Some (length (heap s)), set_heap (heap s ++ [o]) s).

(** [r.zero()]: defined for vectors and for containers. *)
Definition zero_obj (o : pyobj) : pyobj :=
  match o with
  | PyVector _ => PyVector vzero
  | PyTDV c => PyTDV (tdv_zero c)
  end.

Definition zero (r : ref) : Py unit :=
  lo <- deref r ;;
  assign lo.1 (zero_obj lo.2).

(** [r.store(u, t)]. *)
Definition store (r : ref) (u : vec) (t : scalar) : Py unit :=
  lo <- deref r ;;
  match lo.2 with
  | PyVector _ => raise AttributeError
  | PyTDV c => c' <- lift (tdv_store u t c) ;; assign lo.1 (PyTDV c')
  end.

(** [r.retrieve(buf, t)]; the value written to [buf] is returned. *)
Definition retrieve (r : ref) (t : scalar) : Py vec :=
  lo <- deref r ;;
  match lo.2 with
  | PyVector _ => raise AttributeError
  | PyTDV c => lift (tdv_retrieve c t)
  end.

(** [r.data[i].copy()]. *)
Definition data_copy (r : ref) (i : nat) : Py vec :=
  lo <- deref r ;;
  match lo.2 with
  | PyVector _ => raise AttributeError
  | PyTDV c => match data c !! i with
               | Some v => ret v
               | None => raise IndexError
               end
  end.

(** [r.copy()] of a container: a new container with copied snapshots. *)
Definition copy (r : ref) : Py ref :=
  lo <- deref r ;;
  match lo.2 with
  | PyVector v => alloc (PyVector v)
  | PyTDV c => alloc (PyTDV c)
  end.

(** Reading a [dl.Vector] (as [vector2Function] does). *)
Definition vector_get (r : ref) : Py vec :=
  lo <- deref r ;;
  match lo.2 with
  | PyVector v => ret v
  | PyTDV _ => raise TypeError
  end.

(** [r += v]: vectors only; the container defines no addition. *)
Definition iadd (r : ref) (v : vec) : Py unit :=
  lo <- deref r ;;
  match lo.2 with
  | PyVector w => assign lo.1 (PyVector (vadd w v))
  | PyTDV _ => raise TypeError
  end.

(** [r *= a]: a vector is scaled; a container scales every snapshot. *)
Definition scale_obj (a : scalar) (o : pyobj) : pyobj :=
  match o with
  | PyVector w => PyVector (vscale a w)
  | PyTDV c => PyTDV (tdv_scale a c)
  end.

Definition imul (r : ref) (a : scalar) : Py unit :=
  lo <- deref r ;;
  assign lo.1 (scale_obj a lo.2).

(** [r.axpy(a, v)] on a vector. *)
Definition vector_axpy (r : ref) (a : scalar) (v : vec) : Py unit :=
  lo <- deref r ;;
  match lo.2 with
  | PyVector w => assign lo.1 (PyVector (axpy a v w))
  | PyTDV _ => raise TypeError
  end.

(** [a / b] on Python floats. *)
Definition truediv (a b : scalar) : Py scalar :=
  if decide (b = lit 0) then raise ZeroDivisionError else ret (fdiv a b).

(** An attribute that may still be [None] used as a float. *)
Definition as_float (o : option scalar) : Py scalar :=
  match o with Some a => ret a | None => raise TypeError end.

(** [x[i]] on the Python list [x]. *)
Definition getitem (x : list ref) (i : Z) : Py ref :=
  match x !! Z.to_nat i with
  | Some r => ret r
  | None => raise IndexError
  end.

End Primitives.

(** ** The misfit: [class SpaceTimePointwiseStateObservation] *)

Module SpaceTimePointwiseStateObservation.
Section Methods.
Context {scalar vec op : Type} `{BE : Backend scalar vec op}.
Local Abbreviation Py := (@Py scalar vec op).

(** The attributes set by [__init__]: the observation times, the
    pointwise observation operator [B], the data container [d] and the
    noise variance (which [__init__] leaves [None] by default).  The
    scratch vectors [u_snapshot], [Bu_snapshot], [d_snapshot] are
    overwritten before each use in every method; they are the let-bound
    values of the same names below. *)
Record obj : Type := {
  observation_times : list scalar;
  B : op;
  d : ref;
  noise_variance : option scalar
}.

(** [__init__], given the assembled observation operator: a data
    container over the observation times is created unless one is
    supplied. *)
Definition init (observation_times : list scalar) (B : op) (d : ref)
    (noise_variance : option scalar) : Py obj :=
  d' <- match d with
        | None => alloc (PyTDV (tdv_new observation_times))
        | Some _ => ret d
        end ;;
  ret {| observation_times := observation_times; B := B; d := d';
         noise_variance := noise_variance |}.

Definition observe (self : obj) (x : list ref) (obs : ref) : Py unit :=
  zero obs ;;;
  for_each (observation_times self) (fun t (_ : unit) =>
    xs <- getitem x STATE ;;
    u_snapshot <- retrieve xs t ;;
    let Bu_snapshot := op_mult (B self) u_snapshot in
    store obs Bu_snapshot t) tt.

Definition cost (self : obj) (x : list ref) : Py scalar :=
  c <- for_each (observation_times self) (fun t c =>
         xs <- getitem x STATE ;;
         u_snapshot <- retrieve xs t ;;
         let Bu_snapshot := op_mult (B self) u_snapshot in
         d_snapshot <- retrieve (d self) t ;;
         let Bu_snapshot := axpy (lit (-1)%Z) d_snapshot Bu_snapshot in
         ret (fadd c (inner Bu_snapshot Bu_snapshot))) (lit 0) ;;
  nv <- as_float (noise_variance self) ;;
  truediv c (fmul (lit 2) nv).

Definition grad (self : obj) (i : Z) (x : list ref) (out : ref) : Py unit :=
  zero out ;;;
  if decide (i = STATE) then
    for_each (observation_times self) (fun t (_ : unit) =>
      xs <- getitem x STATE ;;
      u_snapshot <- retrieve xs t ;;
      let Bu_snapshot := op_mult (B self) u_snapshot in
      d_snapshot <- retrieve (d self) t ;;
      let Bu_snapshot := axpy (lit (-1)%Z) d_snapshot Bu_snapshot in
      nv <- as_float (noise_variance self) ;;
      a <- truediv (lit 1) nv ;;
      let Bu_snapshot := vscale a Bu_snapshot in
      let u_snapshot := op_transpmult (B self) Bu_snapshot in
      store out u_snapshot t) tt
  else ret tt.

Definition setLinearizationPoint (self : obj) (x : list ref)
    (gauss_newton_approx : bool) : Py unit :=
  ret tt.

Definition apply_ij (self : obj) (i j : Z) (direction out : ref) : Py unit :=
  zero out ;;;
  if decide (i = STATE /\ j = STATE) then
    for_each (observation_times self) (fun t (_ : unit) =>
      u_snapshot <- retrieve direction t ;;
      let Bu_snapshot := op_mult (B self) u_snapshot in
      nv <- as_float (noise_variance self) ;;
      a <- truediv (lit 1) nv ;;
      let Bu_snapshot := vscale a Bu_snapshot in
      let u_snapshot := op_transpmult (B self) Bu_snapshot in
      store out u_snapshot t) tt
  else ret tt.

End Methods.
Arguments obj scalar op : clear implicits.
End SpaceTimePointwiseStateObservation.

(** ** The model: [class TimeDependentAD] *)

Module TimeDependentAD.
Section Methods.
Context {scalar vec op : Type} `{BE : Backend scalar vec op}.
Local Abbreviation Py := (@Py scalar vec op).
Local Abbreviation attrs := (@attrs op).
Local Abbreviation Misfit := (SpaceTimePointwiseStateObservation.obj scalar op).

(** The attributes fixed by [__init__]: the assembled mass and
    stabilisation operators, the initial condition, the time grid and
    its step, the prior and the misfit. *)
Record obj : Type := {
  M : op;
  stab : op;
  M_stab : op;
  Mt_stab : op;
  ic : vec;
  simulation_times : list scalar;
  dt : scalar;
  prior : Prior scalar vec;
  misfit : Misfit
}.

(** [__init__], given the operators it assembles:
    [dt = simulation_times[1] - simulation_times[0]],
    [self.gauss_newton_approx = True], [self.x = [None, None, None]]. *)
Definition init (prior : Prior scalar vec) (misfit : Misfit)
    (simulation_times : list scalar) (stab M M_stab Mt_stab : op) (IC : vec)
  : Py obj :=
  match simulation_times !! 1, simulation_times !! 0 with
  | Some t1, Some t0 =>
      fun s =>
        Ok ({| M := M; stab := stab; M_stab := M_stab; Mt_stab := Mt_stab;
               ic := IC; simulation_times := simulation_times;
               dt := fsub t1 t0; prior := prior; misfit := misfit |},
            set_attrs {| attr_N := None; attr_L := None;
                         attr_solver := None;
                         attr_Nt := None; attr_Lt := None;
                         attr_solvert := None;
                         attr_x := [None; None; None];
                         attr_gauss_newton_approx := true |} s)
  | _, _ => raise IndexError
  end.

(** The result of [generate_vector]: one object, or the list [[u, m, p]]. *)
Inductive generated : Type :=
| Single (r : ref)
| Triple (x : list ref).

(** The argument of [generate_vector]: the string ["ALL"] or a tag. *)
Inductive component : Type :=
| ALL
| Tag (i : Z).

Definition generate_vector (self : obj) (c : component) : Py generated :=
  match c with
  | ALL =>
      u <- alloc (PyTDV (tdv_new (simulation_times self))) ;;
      m <- alloc (PyVector vzero) ;;
      p <- alloc (PyTDV (tdv_new (simulation_times self))) ;;
      ret (Triple [u; m; p])
  | Tag i =>
      if decide (i = STATE) then
        u <- alloc (PyTDV (tdv_new (simulation_times self))) ;;
        ret (Single u)
      else if decide (i = PARAMETER) then
        m <- alloc (PyVector vzero) ;;
        ret (Single m)
      else if decide (i = ADJOINT) then
        p <- alloc (PyTDV (tdv_new (simulation_times self))) ;;
        ret (Single p)
      else raise RuntimeError
  end.

(** [prior.init_vector(m, dim)] on an existing vector. *)
Definition init_vector (m : ref) : Py unit :=
  lo <- deref m ;;
  match lo.2 with
  | PyVector _ => assign lo.1 (PyVector vzero)
  | PyTDV _ => raise TypeError
  end.

Definition init_parameter (self : obj) (m : ref) : Py unit :=
  init_vector m.

Definition cost (self : obj) (x : list ref) : Py (list scalar) :=
  xm <- getitem x PARAMETER ;;
  m <- vector_get xm ;;
  let reg := prior_cost (prior self) m in
  misfit <- SpaceTimePointwiseStateObservation.cost (misfit self) x ;;
  ret [fadd reg misfit; reg; misfit].

(** Assignment to the attributes of [self]: [self.N], [self.L] and
    [self.solver] in [define_Fwd_solver]; [self.Nt], [self.Lt] and
    [self.solvert] in [define_Adj_solver]. *)
Definition assign_Fwd (N L A : op) (a : attrs) : attrs :=
  {| attr_N := Some N; attr_L := Some L; attr_solver := Some A;
     attr_Nt := attr_Nt a; attr_Lt := attr_Lt a;
     attr_solvert := attr_solvert a;
     attr_x := attr_x a;
     attr_gauss_newton_approx := attr_gauss_newton_approx a |}.

Definition assign_Adj (Nt Lt A : op) (a : attrs) : attrs :=
  {| attr_N := attr_N a; attr_L := attr_L a; attr_solver := attr_solver a;
     attr_Nt := Some Nt; attr_Lt := Some Lt; attr_solvert := Some A;
     attr_x := attr_x a;
     attr_gauss_newton_approx := attr_gauss_newton_approx a |}.

Definition set_Fwd (N L A : op) : Py unit :=
  fun s => Ok (tt, set_attrs (assign_Fwd N L A (self_attrs s)) s).

Definition set_Adj (Nt Lt A : op) : Py unit :=
  fun s => Ok (tt, set_attrs (assign_Adj Nt Lt A (self_attrs s)) s).

(** [self.solver.solve(u, rhs)] and [self.solvert.solve(p, rhs)]: the
    attribute must have been assigned. *)
Definition solver_solve (rhs : vec) : Py vec :=
  fun s => match attr_solver (self_attrs s) with
           | Some A => Ok (lu_solve A rhs, s)
           | None => Raise AttributeError
           end.

Definition solvert_solve (rhs : vec) : Py vec :=
  fun s => match attr_solvert (self_attrs s) with
           | Some A => Ok (lu_solve A rhs, s)
           | None => Raise AttributeError
           end.

Definition self_x : Py (list ref) :=
  fun s => Ok (attr_x (self_attrs s), s).

Definition define_Fwd_solver (self : obj) (x : list ref) : Py unit :=
  let utest := TestFunction in
  let utrial := TrialFunction in
  xm <- getitem x PARAMETER ;;
  m <- vector_get xm ;;
  let N := assemble_matrix (pde_varf utrial (Function m) utest) in
  let L := op_add (op_add (M self) (op_scale (dt self) N)) (stab self) in
  set_Fwd N L L.

(** The loop carries [uold]; from the first [uold = u] on, [uold] and [u]
    name the same vector, which [mult] reads before [solve] overwrites
    it. *)
Definition solveFwd (self : obj) (out : ref) (x : list ref) : Py unit :=
  zero out ;;;
  xs <- getitem x STATE ;;
  store xs (ic self) (lit 0) ;;;
  xs <- getitem x STATE ;;
  uold <- data_copy xs 0 ;;
  define_Fwd_solver self x ;;;
  for_each (drop 1 (simulation_times self)) (fun t uold =>
    let rhs := op_mult (M_stab self) uold in
    u <- solver_solve rhs ;;
    store out u t ;;;
    ret u) uold ;;;
  ret tt.

Definition define_Adj_solver (self : obj) (x : list ref) : Py unit :=
  let utest := TestFunction in
  let utrial := TrialFunction in
  xm <- getitem x PARAMETER ;;
  m <- vector_get xm ;;
  let Nt := assemble_matrix (pde_varf utest (Function m) utrial) in
  let Lt := op_add (op_add (M self) (op_scale (dt self) Nt)) (stab self) in
  set_Adj Nt Lt Lt.

Definition solveAdj (self : obj) (out : ref) (x : list ref) : Py unit :=
  grad_state <- alloc (PyTDV (tdv_new (simulation_times self))) ;;
  SpaceTimePointwiseStateObservation.grad (misfit self) STATE x grad_state ;;;
  define_Adj_solver self x ;;;
  zero out ;;;
  for_each (reverse (simulation_times self)) (fun t pold =>
    let rhs := op_mult (Mt_stab self) pold in
    grad_state_snap <- retrieve grad_state t ;;
    let rhs := axpy (lit (-1)%Z) grad_state_snap rhs in
    p <- solvert_solve rhs ;;
    store out p t ;;;
    ret p) vzero ;;;
  ret tt.

Definition updategrade (self : obj) (out : ref) (x : list ref) : Py unit :=
  xm <- getitem x PARAMETER ;;
  m <- vector_get xm ;;
  xs <- getitem x STATE ;;
  u <- copy xs ;;
  xa <- getitem x ADJOINT ;;
  p <- copy xa ;;
  zero out ;;;
  for_each (drop 1 (simulation_times self)) (fun t (_ : unit) =>
    utemp <- retrieve u t ;;
    ptemp <- retrieve p t ;;
    let ut := Function utemp in
    let pt := Function ptemp in
    iadd out (assemble_vector
                (derivative (pde_varf ut (Function m) pt) wrt_m None))) tt ;;;
  imul out (dt self).

(** [mg1], a local vector, is passed to [updategrade] by reference; the
    value returned is [grad_norm]. *)
Definition evalGradientParameter (self : obj) (x : list ref) (mg : ref)
    (misfit_only : bool) : Py scalar :=
  init_vector mg ;;;
  (if bool_decide (misfit_only = false) then
     xm <- getitem x PARAMETER ;;
     m <- vector_get xm ;;
     let detm := vsub m (mean (prior self)) in
     lo <- deref mg ;;
     match lo.2 with
     | PyVector _ => assign lo.1 (PyVector (R_mult (prior self) detm))
     | PyTDV _ => raise TypeError
     end
   else zero mg) ;;;
  mg1 <- alloc (PyVector vzero) ;;
  updategrade self mg1 x ;;;
  mg1_ <- vector_get mg1 ;;
  vector_axpy mg (lit 1) mg1_ ;;;
  mg_ <- vector_get mg ;;
  let g := Msolver_solve (prior self) mg_ in
  let grad_norm := inner g mg_ in
  ret grad_norm.

Definition setPointForHessianEvaluations (self : obj) (x : list ref)
    (gauss_newton_approx : bool) : Py unit :=
  fun s => Ok (tt, set_attrs {| attr_N := attr_N (self_attrs s);
                                attr_L := attr_L (self_attrs s);
                                attr_solver := attr_solver (self_attrs s);
                                attr_Nt := attr_Nt (self_attrs s);
                                attr_Lt := attr_Lt (self_attrs s);
                                attr_solvert := attr_solvert (self_attrs s);
                                attr_x := x;
                                attr_gauss_newton_approx :=
                                  gauss_newton_approx |} s).

(** [simulation_times[0]]. *)
Definition first_time (self : obj) : Py scalar :=
  match simulation_times self !! 0 with
  | Some t => ret t
  | None => raise IndexError
  end.

Definition solveFwdIncremental (self : obj) (sol rhs : ref) : Py unit :=
  zero sol ;;;
  let u := vzero in
  t <- first_time self ;;
  store sol u t ;;;
  let uold := u in
  for_each (drop 1 (simulation_times self)) (fun t uold =>
    let Muold := op_mult (M_stab self) uold in
    myrhs <- retrieve rhs t ;;
    let Muold := axpy (lit (-1)%Z) myrhs Muold in
    u <- solver_solve Muold ;;
    store sol u t ;;;
    ret u) uold ;;;
  ret tt.

Definition solveAdjIncremental (self : obj) (sol rhs : ref) : Py unit :=
  zero sol ;;;
  for_each (reverse (simulation_times self)) (fun t pold =>
    let Mpold := op_mult (Mt_stab self) pold in
    myrhs <- retrieve rhs t ;;
    let Mpold := axpy (lit (-1)%Z) myrhs Mpold in
    p <- solvert_solve Mpold ;;
    store sol p t ;;;
    ret p) vzero ;;;
  ret tt.

(** The snapshots of the linearization point at time [t], as the two
    finite-element functions [ut], [pt] of every branch of [apply_ij]. *)
Definition snapshots (t : scalar) : Py (vec * vec) :=
  x <- self_x ;;
  xs <- getitem x STATE ;;
  utemp <- retrieve xs t ;;
  x <- self_x ;;
  xa <- getitem x ADJOINT ;;
  ptemp <- retrieve xa t ;;
  ret (utemp, ptemp).

(** One mixed second derivative of the residual: differentiated first
    with respect to [c1] in the direction [dir], then with respect to
    [c2] ([methodType == 1]); or the operator of the derivative with
    respect to [c2] then [c1], applied to [dir] (any other
    [methodType]). *)
Definition second_variation (methodType : Z) (ut m pt : arg vec)
    (c1 c2 : coefficient) (dir : vec) : vec :=
  if decide (methodType = 1%Z) then
    assemble_vector
      (derivative (derivative (pde_varf ut m pt) c1 (Some dir)) c2 None)
  else
    op_mult
      (assemble_matrix
         (derivative (derivative (pde_varf ut m pt) c2 None) c1 None))
      dir.

Definition apply_ij (self : obj) (i j : Z) (direction out : ref) : Py unit :=
  zero out ;;;
  if negb (bool_decide (i = STATE /\ j = STATE)) then
    let methodType := 1%Z in
    x <- self_x ;;
    xm <- getitem x PARAMETER ;;
    m_ <- vector_get xm ;;
    let m := Function m_ in
    if bool_decide (i = STATE /\ j = PARAMETER) then
      let myout := vzero in
      t <- first_time self ;;
      store out myout t ;;;
      for_each (drop 1 (simulation_times self)) (fun t (_ : unit) =>
        up <- snapshots t ;;
        let ut := Function up.1 in
        let pt := Function up.2 in
        dir <- vector_get direction ;;
        let myout := second_variation methodType ut m pt wrt_m wrt_u dir in
        let myout := vscale (dt self) myout in
        store out myout t) tt
    else if bool_decide (i = ADJOINT /\ j = PARAMETER) then
      let myout := vzero in
      t <- first_time self ;;
      store out myout t ;;;
      for_each (drop 1 (simulation_times self)) (fun t (_ : unit) =>
        up <- snapshots t ;;
        let ut := Function up.1 in
        let pt := Function up.2 in
        dir <- vector_get direction ;;
        let myout := second_variation methodType ut m pt wrt_m wrt_p dir in
        let myout := vscale (dt self) myout in
        store out myout t) tt
    else if bool_decide (i = PARAMETER /\ j = PARAMETER) then
      for_each (drop 1 (simulation_times self)) (fun t (_ : unit) =>
        up <- snapshots t ;;
        let ut := Function up.1 in
        let pt := Function up.2 in
        dir <- vector_get direction ;;
        let myout := second_variation methodType ut m pt wrt_m wrt_m dir in
        iadd out myout) tt ;;;
      imul out (dt self)
    else if bool_decide (i = PARAMETER /\ j = ADJOINT) then
      for_each (drop 1 (simulation_times self)) (fun t (_ : unit) =>
        dpt <- retrieve direction t ;;
        up <- snapshots t ;;
        let ut := Function up.1 in
        let pt := Function up.2 in
        let myout := second_variation methodType ut m pt wrt_p wrt_m dpt in
        iadd out myout) tt ;;;
      imul out (dt self)
    else if bool_decide (i = PARAMETER /\ j = STATE) then
      for_each (drop 1 (simulation_times self)) (fun t (_ : unit) =>
        dut <- retrieve direction t ;;
        up <- snapshots t ;;
        let ut := Function up.1 in
        let pt := Function up.2 in
        let myout := second_variation methodType ut m pt wrt_u wrt_m dut in
        iadd out myout) tt ;;;
      imul out (dt self)
    else ret tt
  else ret tt.

Definition applyC (self : obj) (dm out : ref) : Py unit :=
  zero out ;;; apply_ij self ADJOINT PARAMETER dm out.

Definition applyCt (self : obj) (dp out : ref) : Py unit :=
  zero out ;;; apply_ij self PARAMETER ADJOINT dp out.

Definition applyWuu (self : obj) (du out : ref) : Py unit :=
  zero out ;;;
  SpaceTimePointwiseStateObservation.apply_ij (misfit self) STATE STATE du out.

Definition applyWum (self : obj) (dm out : ref) : Py unit :=
  zero out ;;; apply_ij self STATE PARAMETER dm out.

Definition applyWmu (self : obj) (du out : ref) : Py unit :=
  zero out ;;; apply_ij self PARAMETER STATE du out.

Definition applyWmm (self : obj) (dm out : ref) : Py unit :=
  zero out ;;; apply_ij self PARAMETER PARAMETER dm out.

(** [exportState(x, filename, varname)].  The file is the sequence of
    the frames [out_file.write(f, t)] appends, each a function with its
    time stamp; the frames written are returned in order. *)
Definition exportState (self : obj) (x : list ref) : Py (list (vec * scalar)) :=
  t <- first_time self ;;
  xm <- getitem x PARAMETER ;;
  m <- vector_get xm ;;
  let out_file := [(m, t)] in
  for_each (drop 1 (simulation_times self)) (fun t out_file =>
    xs <- getitem x STATE ;;
    ufunc <- retrieve xs t ;;
    ret (out_file ++ [(ufunc, t)])) out_file.


End Methods.
Arguments obj scalar vec op : clear implicits.
End TimeDependentAD.

(** ** A one-dimensional integer backend

    The smallest backend on which every method can be run: scalars,
    vectors and operators are integers, the residual is
    [F(u, m, p) = (m*m + 1) * u * p], and trial and test functions are
    the single basis function [1]. *)

Module Z1.
Local Open Scope Z_scope.

(** A derivative of [F] in normal form: a coefficient, the number of
    derivatives taken in [m], and whether the factors [u] and [p] are
    still present. *)
Record term : Type := {
  coef : Z;
  mdeg : nat;
  has_u : bool;
  has_p : bool;
  at_u : Z;
  at_m : Z;
  at_p : Z
}.

Definition arg_value (a : arg Z) : Z :=
  match a with
  | TrialFunction | TestFunction => 1
  | Function v => v
  end.

Definition direction_value (du : option Z) : Z :=
  match du with Some v => v | None => 1 end.

Fixpoint normal (F : form Z) : term :=
  match F with
  | pde_varf u m p =>
      {| coef := 1; mdeg := 0; has_u := true; has_p := true;
         at_u := arg_value u; at_m := arg_value m; at_p := arg_value p |}
  | derivative F c du =>
      let T := normal F in
      let k := coef T * direction_value du in
      match c with
      | wrt_u => {| coef := if has_u T then k else 0; mdeg := mdeg T;
                    has_u := false; has_p := has_p T;
                    at_u := at_u T; at_m := at_m T; at_p := at_p T |}
      | wrt_m => {| coef := k; mdeg := S (mdeg T);
                    has_u := has_u T; has_p := has_p T;
                    at_u := at_u T; at_m := at_m T; at_p := at_p T |}
      | wrt_p => {| coef := if has_p T then k else 0; mdeg := mdeg T;
                    has_u := has_u T; has_p := false;
                    at_u := at_u T; at_m := at_m T; at_p := at_p T |}
      end
  end.

(** The derivatives of [m*m + 1]. *)
Definition m_factor (k : nat) (m : Z) : Z :=
  match k with
  | 0%nat => m * m + 1
  | 1%nat => 2 * m
  | 2%nat => 2
  | _ => 0
  end.

Definition assemble (F : form Z) : Z :=
  let T := normal F in
  coef T * m_factor (mdeg T) (at_m T)
  * (if has_u T then at_u T else 1) * (if has_p T then at_p T else 1).

#[export] Instance backend : Backend Z Z Z := {|
  lit z := z;
  fadd := Z.add;
  fsub := Z.sub;
  fmul := Z.mul;
  fdiv := Z.div;
  vzero := 0;
  axpy a x y := y + a * x;
  vadd := Z.add;
  vsub := Z.sub;
  vscale := Z.mul;
  inner := Z.mul;
  op_add := Z.add;
  op_scale := Z.mul;
  op_mult := Z.mul;
  op_transpmult := Z.mul;
  lu_solve A b := b / A;
  assemble_vector := assemble;
  assemble_matrix := assemble
|}.

(** A prior with mean [0], precision [R = 3] and unit mass matrix. *)
Definition prior : Prior Z Z :=
  {| mean := 0; R_mult v := 3 * v; Msolver_solve v := v;
     prior_cost v := 3 * v * v |}.

(** Three simulation times [0, 1, 2]; observations at [1] and [2]. *)
Definition simulation_times : list Z := [0; 1; 2].
Definition observation_times : list Z := [1; 2].

(** The store of the examples: the state history at location 0, the
    parameter [m = 1] at 1, the adjoint history at 2, the data at 3, an
    output container at 4, an output vector at 5, a direction vector at
    6, a direction container at 7. *)
Definition store0 : list (@pyobj Z Z) :=
  [ PyTDV {| times := simulation_times; data := [5; 6; 7] |};
    PyVector 1;
    PyTDV {| times := simulation_times; data := [2; 3; 4] |};
    PyTDV {| times := observation_times; data := [10; 20] |};
    PyTDV {| times := simulation_times; data := [8; 8; 8] |};
    PyVector 9;
    PyVector 2;
    PyTDV {| times := simulation_times; data := [1; 1; 2] |} ].

Definition u_ref : ref := Some 0%nat.
Definition m_ref : ref := Some 1%nat.
Definition p_ref : ref := Some 2%nat.
Definition d_ref : ref := Some 3%nat.
Definition out_ref : ref := Some 4%nat.
Definition vec_ref : ref := Some 5%nat.
Definition dir_ref : ref := Some 6%nat.
Definition du_ref : ref := Some 7%nat.

Definition x : list ref := [u_ref; m_ref; p_ref].

(** The state and adjoint histories, the data and the direction
    container at the times [1] and [2], as functions of time. *)
Definition u_at (t : Z) : Z := if decide (t = 1) then 6 else 7.
Definition p_at (t : Z) : Z := if decide (t = 1) then 3 else 4.
Definition d_at (t : Z) : Z := if decide (t = 1) then 10 else 20.
Definition du_at (t : Z) : Z := if decide (t = 1) then 1 else 2.

Definition misfit : SpaceTimePointwiseStateObservation.obj Z Z :=
  {| SpaceTimePointwiseStateObservation.observation_times := observation_times;
     SpaceTimePointwiseStateObservation.B := 2;
     SpaceTimePointwiseStateObservation.d := d_ref;
     SpaceTimePointwiseStateObservation.noise_variance := Some 1 |}.

(** With [m = 1], [dt = 1], [M = 3] and [stab = -4] the implicit
    operators are [L = Lt = 3 + 1 * 2 - 4 = 1]. *)
Definition model : TimeDependentAD.obj Z Z Z :=
  {| TimeDependentAD.M := 3;
     TimeDependentAD.stab := -4;
     TimeDependentAD.M_stab := 2;
     TimeDependentAD.Mt_stab := 2;
     TimeDependentAD.ic := 11;
     TimeDependentAD.simulation_times := simulation_times;
     TimeDependentAD.dt := 1;
     TimeDependentAD.prior := prior;
     TimeDependentAD.misfit := misfit |}.

(** The model's attributes after [__init__], and after
    [setPointForHessianEvaluations(x)] and a forward and adjoint solve. *)
Definition attrs0 : @attrs Z :=
  {| attr_N := None; attr_L := None; attr_solver := None;
     attr_Nt := None; attr_Lt := None; attr_solvert := None;
     attr_x := [None; None; None]; attr_gauss_newton_approx := true |}.

Definition attrs1 : @attrs Z :=
  {| attr_N := Some 2; attr_L := Some 1; attr_solver := Some 1;
     attr_Nt := Some 2; attr_Lt := Some 1; attr_solvert := Some 1;
     attr_x := x; attr_gauss_newton_approx := true |}.

Definition state0 : @state Z Z Z := {| heap := store0; self_attrs := attrs0 |}.
Definition state1 : @state Z Z Z := {| heap := store0; self_attrs := attrs1 |}.

End Z1.


(** ** Vocabulary of the statements *)

(** [grid_index] written without the backend. *)
Fixpoint position {scalar : Type} `{EqDecision scalar}
    (ts : list scalar) (t : scalar) : option nat :=
  match ts with
  | [] => None
  | t' :: ts' => if decide (t' = t) then Some 0 else S <$> position ts' t
  end.

Section Vocabulary.
Context {scalar vec op : Type} `{BE : Backend scalar vec op}.
Local Abbreviation TimeDependentVector := (@TimeDependentVector scalar vec).
Local Abbreviation pyobj := (@pyobj scalar vec).
Local Abbreviation Misfit := (SpaceTimePointwiseStateObservation.obj scalar op).
Local Abbreviation Model := (TimeDependentAD.obj scalar vec op).

(** A container is well formed when it holds one snapshot per time of
    its grid, as every container built by the constructor does. *)
Definition tdv_wf (c : TimeDependentVector) : Prop :=
  length (data c) = length (times c).

(** The container holds a snapshot at time [t]. *)
Definition has_entry (c : TimeDependentVector) (t : scalar) : Prop :=
  exists i, grid_index (times c) t = Some i /\ i < length (data c).

(** The residual [B u - d] the misfit forms at one observation time
    ([B.mult(u, Bu)] followed by [Bu.axpy(-1., d)]). *)
Definition residual (self : Misfit) (u d : vec) : vec :=
  axpy (lit (-1)%Z) d (op_mult (SpaceTimePointwiseStateObservation.B self) u).

(** The sum of squared residuals over a list of times, for a state
    history [u] and data [d] given as functions of time. *)
Definition sum_of_squares (self : Misfit) (ts : list scalar)
    (u d : scalar -> vec) : scalar :=
  foldl (fun c t => fadd c (inner (residual self (u t) (d t))
                                  (residual self (u t) (d t))))
        (lit 0%Z) ts.

(** The snapshot the container [r] of the store of [s] holds at time
    [t], if [r] names a container with an entry at [t]. *)
Definition snapshot (s : @state scalar vec op) (r : ref) (t : scalar)
  : option vec :=
  match r with
  | Some l =>
      match heap s !! l with
      | Some (PyTDV c) =>
          match tdv_retrieve c t with Ok v => Some v | Raise _ => None end
      | _ => None
      end
  | None => None
  end.

(** The vector the object [r] of the store of [s] is, if it is one. *)
Definition vector_of (s : @state scalar vec op) (r : ref) : option vec :=
  match r with
  | Some l => match heap s !! l with
              | Some (PyVector v) => Some v
              | _ => None
              end
  | None => None
  end.

(** The state [s] with the container at [l] holding the snapshots [D]
    over the grid [g]. *)
Definition with_data (s : @state scalar vec op) (l : nat)
    (g : list scalar) (D : list vec) : @state scalar vec op :=
  set_heap (<[l := PyTDV {| times := g; data := D |}]> (heap s)) s.

(** The state [s] with the vector at [l] being [v]. *)
Definition with_vector (s : @state scalar vec op) (l : nat) (v : vec)
  : @state scalar vec op :=
  set_heap (<[l := PyVector v]> (heap s)) s.

(** Snapshots after storing [val t] at each time [t] of [ts] in turn. *)
Definition stored (g : list scalar) (val : scalar -> vec) (ts : list scalar)
    (D : list vec) : list vec :=
  foldl (fun D t => match grid_index g t with
                    | Some i => <[i := val t]> D
                    | None => D
                    end) D ts.

(** What [grad] stores at an observation time: [B^T ((1/nv) (B u - d))]. *)
Definition gradient_snapshot (self : Misfit) (nv : scalar) (u d : vec) : vec :=
  op_transpmult (SpaceTimePointwiseStateObservation.B self)
    (vscale (fdiv (lit 1%Z) nv) (residual self u d)).

(** What the misfit's [apply_ij] stores at an observation time:
    [B^T ((1/nv) (B du))]. *)
Definition hessian_snapshot (self : Misfit) (nv : scalar) (du : vec) : vec :=
  op_transpmult (SpaceTimePointwiseStateObservation.B self)
    (vscale (fdiv (lit 1%Z) nv)
       (op_mult (SpaceTimePointwiseStateObservation.B self) du)).

(** The values a forward time loop produces: starting from [u], each
    time [t] of [ts] turns the previous value [uold] into [F t uold]. *)
Fixpoint march (F : scalar -> vec -> vec) (u : vec) (ts : list scalar)
  : list vec :=
  match ts with
  | [] => []
  | t :: ts' => F t u :: march F (F t u) ts'
  end.

(** The values a backward time loop produces, listed in the order of the
    grid: the value at the last time is [F t u], the value at every
    earlier time [t] is [F t] of the value at the next time. *)
Fixpoint march_back (F : scalar -> vec -> vec) (u : vec) (ts : list scalar)
  : list vec :=
  match ts with
  | [] => []
  | t :: ts' => let r := march_back F u ts' in
                F t (default u (head r)) :: r
  end.

(** One step of [solveFwdIncremental]: the increment at time [t] from
    the previous increment, [L^-1 (M_stab uold - rhs(t))]. *)
Definition incremental_step (self : Model) (L : op) (r : scalar -> vec)
    (t : scalar) (uold : vec) : vec :=
  lu_solve L (axpy (lit (-1)%Z) (r t) (op_mult (TimeDependentAD.M_stab self) uold)).

(** One step of [solveFwd]: [L^-1 (M_stab uold)]. *)
Definition forward_step (self : Model) (L : op) (t : scalar) (uold : vec) : vec :=
  lu_solve L (op_mult (TimeDependentAD.M_stab self) uold).

(** One step of [solveAdj] and [solveAdjIncremental]:
    [Lt^-1 (Mt_stab pold - r(t))]. *)
Definition adjoint_step (self : Model) (Lt : op) (r : scalar -> vec)
    (t : scalar) (pold : vec) : vec :=
  lu_solve Lt (axpy (lit (-1)%Z) (r t) (op_mult (TimeDependentAD.Mt_stab self) pold)).

(** The operators [define_Fwd_solver] and [define_Adj_solver] build at
    the parameter [m]. *)
Definition N_at (m : vec) : op :=
  assemble_matrix (pde_varf TrialFunction (Function m) TestFunction).

Definition Nt_at (m : vec) : op :=
  assemble_matrix (pde_varf TestFunction (Function m) TrialFunction).

Definition L_at (self : Model) (m : vec) : op :=
  op_add (op_add (TimeDependentAD.M self)
                 (op_scale (TimeDependentAD.dt self) (N_at m)))
         (TimeDependentAD.stab self).

Definition Lt_at (self : Model) (m : vec) : op :=
  op_add (op_add (TimeDependentAD.M self)
                 (op_scale (TimeDependentAD.dt self) (Nt_at m)))
         (TimeDependentAD.stab self).

(** The state-gradient history of the misfit at time [t]: what [grad]
    leaves at [t] in a container it was given, for a state history [u]
    and data [d]. *)
Definition grad_state_at (misfit : Misfit) (nv : scalar)
    (u d : scalar -> vec) (t : scalar) : vec :=
  if decide (t ∈ SpaceTimePointwiseStateObservation.observation_times misfit)
  then gradient_snapshot misfit nv (u t) (d t)
  else vzero.

(** What [grad(STATE, x, out)] and the misfit's
    [apply_ij(STATE, STATE, direction, out)] need: the containers they
    read are not the output, they hold the snapshots [u t] (and [d t]) at
    every observation time, the output has an entry at every observation
    time, and the noise variance is a nonzero float [nv]. *)
Definition grad_ready (self : Misfit) (s : @state scalar vec op)
    (x : list ref) (lo : nat) (nv : scalar) (u d : scalar -> vec) : Prop :=
  exists xs,
    x !! Z.to_nat STATE = Some xs
    /\ xs <> Some lo
    /\ SpaceTimePointwiseStateObservation.d self <> Some lo
    /\ SpaceTimePointwiseStateObservation.noise_variance self = Some nv
    /\ nv <> lit 0%Z
    /\ forall t,
         t ∈ SpaceTimePointwiseStateObservation.observation_times self ->
         snapshot s xs t = Some (u t)
         /\ snapshot s (SpaceTimePointwiseStateObservation.d self) t = Some (d t)
         /\ is_Some (snapshot s (Some lo) t).

Definition hessian_ready (self : Misfit) (s : @state scalar vec op)
    (direction : ref) (lo : nat) (nv : scalar) (du : scalar -> vec) : Prop :=
  direction <> Some lo
  /\ SpaceTimePointwiseStateObservation.noise_variance self = Some nv
  /\ nv <> lit 0%Z
  /\ forall t,
       t ∈ SpaceTimePointwiseStateObservation.observation_times self ->
       snapshot s direction t = Some (du t)
       /\ is_Some (snapshot s (Some lo) t).

(** The running sum [out += val t] over the times [ts], from [v0]. *)
Definition accumulate (val : scalar -> vec) (ts : list scalar) (v0 : vec) : vec :=
  foldl (fun v t => vadd v (val t)) v0 ts.

(** [assemble(derivative(pde_varf(ut, m, pt), m))]: the derivative of the
    weak-form residual with respect to the parameter, at [(u, m, p)]. *)
Definition parameter_derivative (m u p : vec) : vec :=
  assemble_vector
    (derivative (pde_varf (Function u) (Function m) (Function p)) wrt_m None).

(** What [updategrade] leaves in its output: [dt] times the sum, over
    the simulation times after the first, of the parameter derivative
    at the stored [(u t, m, p t)]. *)
Definition misfit_gradient (self : Model) (m : vec) (u p : scalar -> vec) : vec :=
  vscale (TimeDependentAD.dt self)
    (accumulate (fun t => parameter_derivative m (u t) (p t))
       (drop 1 (TimeDependentAD.simulation_times self)) vzero).

(** The regularization part of the gradient: the prior precision applied
    to [m - mean], or zero when [misfit_only] is set. *)
Definition regularization_gradient (self : Model) (m : vec) (misfit_only : bool)
  : vec :=
  if misfit_only then vzero
  else R_mult (TimeDependentAD.prior self)
         (vsub m (mean (TimeDependentAD.prior self))).

(** The gradient [evalGradientParameter] writes into [mg]. *)
Definition reduced_gradient (self : Model) (m : vec) (u p : scalar -> vec)
    (misfit_only : bool) : vec :=
  axpy (lit 1%Z) (misfit_gradient self m u p)
    (regularization_gradient self m misfit_only).

(** What the model's [apply_ij] stores at a time [t] after the first in
    a time-indexed block: [dt] times the mixed second derivative, first
    with respect to the parameter in the direction [dir], then with
    respect to [c2]. *)
Definition time_indexed_block (self : Model) (c2 : coefficient)
    (m : vec) (u p : scalar -> vec) (dir : vec) (t : scalar) : vec :=
  vscale (TimeDependentAD.dt self)
    (TimeDependentAD.second_variation 1%Z (Function (u t)) (Function m)
       (Function (p t)) wrt_m c2 dir).

(** What the model's [apply_ij] leaves in a parameter-row block: [dt]
    times the sum, over the simulation times after the first, of the
    mixed second derivative, first with respect to [c1] in the direction
    [dirs t], then with respect to the parameter. *)
Definition accumulated_block (self : Model) (c1 : coefficient)
    (m : vec) (u p dirs : scalar -> vec) : vec :=
  vscale (TimeDependentAD.dt self)
    (accumulate
       (fun t => TimeDependentAD.second_variation 1%Z (Function (u t))
                   (Function m) (Function (p t)) c1 wrt_m (dirs t))
       (drop 1 (TimeDependentAD.simulation_times self)) vzero).

(** The block index pairs the model's [apply_ij] has a branch for. *)
Definition handled_block (i j : Z) : Prop :=
  (i = STATE /\ j = PARAMETER) \/ (i = ADJOINT /\ j = PARAMETER)
  \/ (i = PARAMETER /\ j = PARAMETER) \/ (i = PARAMETER /\ j = ADJOINT)
  \/ (i = PARAMETER /\ j = STATE).

(** A linearization point [self.x = [u, m, p]] is set in [s]: a state
    and an adjoint container holding [u t] and [p t] at every
    simulation time after the first, and a parameter vector [m]. *)
Definition linearization_point (self : Model) (s : @state scalar vec op)
    (ls lm la : nat) (m : vec) (u p : scalar -> vec) : Prop :=
  attr_x (self_attrs s) = [Some ls; Some lm; Some la]
  /\ heap s !! lm = Some (PyVector m)
  /\ exists cst ca,
       heap s !! ls = Some (PyTDV cst) /\ heap s !! la = Some (PyTDV ca)
       /\ forall t, t ∈ drop 1 (TimeDependentAD.simulation_times self) ->
            tdv_retrieve cst t = Ok (u t) /\ tdv_retrieve ca t = Ok (p t).

(** Whether a computation stopped with an exception. *)
Definition raised {A : Type} (r : result A) : bool :=
  match r with Raise _ => true | Ok _ => false end.

(** The value and the final state of a computation that returned. *)
Definition outcome {A : Type} (r : result (A * @state scalar vec op))
  : option (A * @state scalar vec op) :=
  match r with Ok a => Some a | Raise _ => None end.

(** The state [s] with the attribute [self.gauss_newton_approx] being
    [b]. *)
Definition with_flag (b : bool) (s : @state scalar vec op)
  : @state scalar vec op :=
  set_attrs {| attr_N := attr_N (self_attrs s);
               attr_L := attr_L (self_attrs s);
               attr_solver := attr_solver (self_attrs s);
               attr_Nt := attr_Nt (self_attrs s);
               attr_Lt := attr_Lt (self_attrs s);
               attr_solvert := attr_solvert (self_attrs s);
               attr_x := attr_x (self_attrs s);
               attr_gauss_newton_approx := b |} s.

(** A result with its final state changed by [f]. *)
Definition map_state {A : Type}
    (f : @state scalar vec op -> @state scalar vec op)
    (r : result (A * @state scalar vec op)) : result (A * @state scalar vec op) :=
  match r with
  | Ok (a, s) => Ok (a, f s)
  | Raise e => Raise e
  end.

(** A computation that neither reads nor assigns
    [self.gauss_newton_approx]: run with another value of the flag, it
    raises the same exception or returns the same value in the same
    final state, up to the flag. *)
Definition flag_blind {A : Type} (c : @Py scalar vec op A) : Prop :=
  forall b s, c (with_flag b s) = map_state (with_flag b) (c s).

(** The frames [exportState] writes after the first: the state snapshot
    [u t] at every simulation time [t] after the first. *)
Definition state_frames (u : scalar -> vec) (ts : list scalar)
  : list (vec * scalar) :=
  (fun t => (u t, t)) <$> ts.

(** The references [generate_vector] returns, as a list. *)
Definition refs_of (v : TimeDependentAD.generated) : list ref :=
  match v with
  | TimeDependentAD.Single r => [r]
  | TimeDependentAD.Triple x => x
  end.

(** The component arguments [generate_vector] has a branch for. *)
Definition recognised (c : TimeDependentAD.component) : Prop :=
  match c with
  | TimeDependentAD.ALL => True
  | TimeDependentAD.Tag i => i = STATE \/ i = PARAMETER \/ i = ADJOINT
  end.

(** A freshly generated object: a zero vector, or a well-formed
    container over the grid [g] whose snapshots are all zero. *)
Definition fresh_object (g : list scalar) (o : pyobj) : Prop :=
  match o with
  | PyVector v => v = vzero
  | PyTDV c => times c = g /\ data c = replicate (length g) vzero
  end.


End Vocabulary.

(** * Properties *)

(** ** The time grid *)

Section Grid.
Context {scalar : Type} `{EqDecision scalar}.
Implicit Types (ts p q : list scalar) (t : scalar).

Lemma position_lookup ts t i : position ts t = Some i -> ts !! i = Some t.
Proof.
  revert i. induction ts as [|t' ts IH]; intros i; simpl; [done|].
  destruct (decide (t' = t)) as [->|Hne].
  - by intros [= <-].
  - destruct (position ts t) as [j|] eqn:E; simpl; [|done].
    intros [= <-]. simpl. by apply IH.
Qed.

Lemma position_lt ts t i : position ts t = Some i -> i < length ts.
Proof. intros H. apply position_lookup in H. by eapply lookup_lt_Some. Qed.

Lemma position_elem ts t : t ∈ ts -> is_Some (position ts t).
Proof.
  induction ts as [|t' ts IH]; [by intros ?%elem_of_nil|].
  intros H. simpl. destruct (decide (t' = t)); [by eexists|].
  apply elem_of_cons in H as [->|H]; [done|].
  destruct (IH H) as [j ->]. by eexists.
Qed.

Lemma position_None ts t : position ts t = None -> t ∉ ts.
Proof.
  intros H Hin. apply position_elem in Hin as [i Hi]. congruence.
Qed.

Lemma position_middle p t q : t ∉ p -> position (p ++ t :: q) t = Some (length p).
Proof.
  induction p as [|t' p IH]; intros Hp; simpl.
  - by rewrite decide_True.
  - apply not_elem_of_cons in Hp as [Hne Hp].
    rewrite decide_False by done. by rewrite IH.
Qed.

Lemma position_NoDup ts i t :
  NoDup ts -> ts !! i = Some t -> position ts t = Some i.
Proof.
  intros Hnd Hi.
  destruct (position_elem ts t) as [j Hj]; [by eapply list_elem_of_lookup_2|].
  rewrite Hj. f_equal. apply position_lookup in Hj.
  by eapply NoDup_lookup.
Qed.

End Grid.

Section Theory.
Context {scalar vec op : Type} `{BE : Backend scalar vec op}.
Local Abbreviation Py := (@Py scalar vec op).
Local Abbreviation state := (@state scalar vec op).
Local Abbreviation pyobj := (@pyobj scalar vec).
Local Abbreviation TimeDependentVector := (@TimeDependentVector scalar vec).
Local Abbreviation Misfit := (SpaceTimePointwiseStateObservation.obj scalar op).
Local Abbreviation Model := (TimeDependentAD.obj scalar vec op).

Implicit Types (s : state) (h : list pyobj) (c : TimeDependentVector)
  (l : nat) (t : scalar) (u v : vec) (g ts : list scalar) (D : list vec).

Lemma grid_index_position ts t : grid_index ts t = position ts t.
Proof. induction ts as [|t' ts IH]; simpl; [done|]. by rewrite IH. Qed.

Lemma tdv_new_wf ts : tdv_wf (tdv_new ts).
Proof. unfold tdv_wf. simpl. by rewrite length_replicate. Qed.

Lemma has_entry_retrieve c t : has_entry c t -> exists v, tdv_retrieve c t = Ok v.
Proof.
  intros (i & Hi & Hlt). unfold tdv_retrieve. rewrite Hi.
  destruct (lookup_lt_is_Some_2 (data c) i Hlt) as [v ->]. by eexists.
Qed.

Lemma retrieve_has_entry c t v : tdv_retrieve c t = Ok v -> has_entry c t.
Proof.
  unfold tdv_retrieve, has_entry.
  destruct (grid_index (times c) t) as [i|]; [|done].
  destruct (data c !! i) eqn:E; [|done]. intros _.
  exists i. split; [done|]. by eapply lookup_lt_Some.
Qed.

Lemma wf_has_entry c t : tdv_wf c -> t ∈ times c -> has_entry c t.
Proof.
  intros Hwf Hin. destruct (position_elem _ _ Hin) as [i Hi].
  exists i. rewrite grid_index_position. split; [done|].
  rewrite Hwf. by eapply position_lt.
Qed.

Lemma tdv_retrieve_index c t i :
  grid_index (times c) t = Some i ->
  tdv_retrieve c t = match data c !! i with
                     | Some v => Ok v
                     | None => Raise IndexError
                     end.
Proof. unfold tdv_retrieve. by intros ->. Qed.

Lemma tdv_store_index c u t i :
  grid_index (times c) t = Some i -> i < length (data c) ->
  tdv_store u t c = Ok {| times := times c; data := <[i := u]> (data c) |}.
Proof. unfold tdv_store. intros -> Hi. by rewrite decide_True. Qed.

(** Storing at one time stamp leaves the snapshot of every other time
    stamp as it was. *)
Lemma tdv_store_retrieve_ne c c' u t t' :
  tdv_store u t' c = Ok c' -> t <> t' -> tdv_retrieve c' t = tdv_retrieve c t.
Proof.
  unfold tdv_store. destruct (grid_index (times c) t') as [i'|] eqn:E'; [|done].
  destruct (decide _); [|done]. intros [= <-] Hne.
  unfold tdv_retrieve. simpl.
  destruct (grid_index (times c) t) as [i|] eqn:E; [|done].
  rewrite list_lookup_insert_ne; [done|].
  intros ->. rewrite grid_index_position in E, E'.
  apply position_lookup in E, E'. congruence.
Qed.

(** ** Running computations *)

Lemma bind_Ok {A B} (m : Py A) (k : A -> Py B) s a s' :
  m s = Ok (a, s') -> bind m k s = k a s'.
Proof. unfold bind. by intros ->. Qed.

Lemma bind_Raise {A B} (m : Py A) (k : A -> Py B) s e :
  m s = Raise e -> bind m k s = Raise e.
Proof. unfold bind. by intros ->. Qed.

Lemma bind_ret {A B} (a : A) (k : A -> Py B) s : bind (ret a) k s = k a s.
Proof. done. Qed.

Lemma heap_set_heap h s : heap (set_heap h s) = h.
Proof. done. Qed.

Lemma attrs_set_heap h s : self_attrs (set_heap h s) = self_attrs s.
Proof. done. Qed.

Lemma set_heap_set_heap h h' s : set_heap h (set_heap h' s) = set_heap h s.
Proof. done. Qed.

Lemma set_heap_id s : set_heap (heap s) s = s.
Proof. by destruct s. Qed.

Lemma deref_Ok l o s :
  heap s !! l = Some o -> deref (Some l) s = Ok ((l, o), s).
Proof. unfold deref. by intros ->. Qed.

Lemma zero_Ok l o s :
  heap s !! l = Some o ->
  zero (Some l) s = Ok (tt, set_heap (<[l := zero_obj o]> (heap s)) s).
Proof. intros H. unfold zero. by rewrite (bind_Ok _ _ _ _ _ (deref_Ok _ _ _ H)). Qed.

Lemma imul_Ok l o a s :
  heap s !! l = Some o ->
  imul (Some l) a s = Ok (tt, set_heap (<[l := scale_obj a o]> (heap s)) s).
Proof. intros H. unfold imul. by rewrite (bind_Ok _ _ _ _ _ (deref_Ok _ _ _ H)). Qed.

Lemma iadd_Ok l w v s :
  heap s !! l = Some (PyVector w) ->
  iadd (Some l) v s = Ok (tt, set_heap (<[l := PyVector (vadd w v)]> (heap s)) s).
Proof. intros H. unfold iadd. by rewrite (bind_Ok _ _ _ _ _ (deref_Ok _ _ _ H)). Qed.

Lemma iadd_container l c v s :
  heap s !! l = Some (PyTDV c) -> iadd (Some l) v s = Raise TypeError.
Proof. intros H. unfold iadd. by rewrite (bind_Ok _ _ _ _ _ (deref_Ok _ _ _ H)). Qed.

Lemma vector_get_Ok l w s :
  heap s !! l = Some (PyVector w) -> vector_get (Some l) s = Ok (w, s).
Proof. intros H. unfold vector_get. by rewrite (bind_Ok _ _ _ _ _ (deref_Ok _ _ _ H)). Qed.

Lemma vector_axpy_Ok l w a v s :
  heap s !! l = Some (PyVector w) ->
  vector_axpy (Some l) a v s
  = Ok (tt, set_heap (<[l := PyVector (axpy a v w)]> (heap s)) s).
Proof. intros H. unfold vector_axpy. by rewrite (bind_Ok _ _ _ _ _ (deref_Ok _ _ _ H)). Qed.

Lemma retrieve_Ok l c t v s :
  heap s !! l = Some (PyTDV c) -> tdv_retrieve c t = Ok v ->
  retrieve (Some l) t s = Ok (v, s).
Proof.
  intros H Hv. unfold retrieve.
  rewrite (bind_Ok _ _ _ _ _ (deref_Ok _ _ _ H)). simpl.
  unfold lift. by rewrite Hv.
Qed.

Lemma store_Ok l c u t i s :
  heap s !! l = Some (PyTDV c) ->
  grid_index (times c) t = Some i -> i < length (data c) ->
  store (Some l) u t s
  = Ok (tt, set_heap (<[l := PyTDV {| times := times c;
                                       data := <[i := u]> (data c) |}]> (heap s)) s).
Proof.
  intros H Hi Hlt. unfold store.
  rewrite (bind_Ok _ _ _ _ _ (deref_Ok _ _ _ H)). simpl.
  unfold bind, lift. by rewrite (tdv_store_index _ _ _ _ Hi Hlt).
Qed.

Lemma data_copy_Ok l c i v s :
  heap s !! l = Some (PyTDV c) -> data c !! i = Some v ->
  data_copy (Some l) i s = Ok (v, s).
Proof.
  intros H Hv. unfold data_copy.
  rewrite (bind_Ok _ _ _ _ _ (deref_Ok _ _ _ H)). simpl. by rewrite Hv.
Qed.

Lemma copy_Ok l o s :
  heap s !! l = Some o ->
  copy (Some l) s = Ok (Some (length (heap s)), set_heap (heap s ++ [o]) s).
Proof.
  intros H. unfold copy.
  rewrite (bind_Ok _ _ _ _ _ (deref_Ok _ _ _ H)). simpl. by destruct o.
Qed.

Lemma getitem_Ok (x : list ref) (i : Z) r s :
  x !! Z.to_nat i = Some r -> getitem x i s = Ok (r, s).
Proof. unfold getitem. by intros ->. Qed.

Lemma truediv_Ok (a b : scalar) s :
  b <> lit 0 -> truediv a b s = Ok (fdiv a b, s).
Proof. intros H. unfold truediv. by rewrite decide_False. Qed.

(** ** The loop rule

    When every iteration acts on the state as a pure function [step] of
    the loop-carried variables and of a view [X] of the state, the loop
    is the left fold of [step]. *)
Lemma for_each_fold {T S X : Type} (st : X -> state)
    (step : S * X -> T -> S * X) (Inv : S * X -> Prop)
    (body : T -> S -> Py S) (es : list T) :
  (forall e a, e ∈ es -> Inv a ->
     body e a.1 (st a.2) = Ok ((step a e).1, st (step a e).2)
     /\ Inv (step a e)) ->
  forall a, Inv a ->
    for_each es body a.1 (st a.2)
    = Ok ((foldl step a es).1, st (foldl step a es).2)
    /\ Inv (foldl step a es).
Proof.
  induction es as [|e es IH]; intros Hbody a Ha; simpl; [done|].
  destruct (Hbody e a) as [Hb Hi]; [apply elem_of_cons; by left|done|].
  rewrite (bind_Ok _ _ _ _ _ Hb).
  apply IH; [|done].
  intros e' a' He'. apply Hbody. apply elem_of_cons. by right.
Qed.

(** ** The misfit *)

Section MisfitFacts.
Variable self : Misfit.
Local Abbreviation obs := (SpaceTimePointwiseStateObservation.observation_times self).

Lemma cost_value (x : list ref) s ls cst ld cd nv (u d : scalar -> vec) :
  x !! Z.to_nat STATE = Some (Some ls) ->
  heap s !! ls = Some (PyTDV cst) ->
  SpaceTimePointwiseStateObservation.d self = Some ld ->
  heap s !! ld = Some (PyTDV cd) ->
  SpaceTimePointwiseStateObservation.noise_variance self = Some nv ->
  fmul (lit 2%Z) nv <> lit 0%Z ->
  (forall t, t ∈ obs -> tdv_retrieve cst t = Ok (u t)) ->
  (forall t, t ∈ obs -> tdv_retrieve cd t = Ok (d t)) ->
  SpaceTimePointwiseStateObservation.cost self x s
  = Ok (fdiv (sum_of_squares self obs u d) (fmul (lit 2%Z) nv), s).
Proof.
  intros Hx Hs Hd Hcd Hnv Hnz Hu Hdd.
  unfold SpaceTimePointwiseStateObservation.cost.
  pose (step := fun (a : scalar * unit) (t : scalar) =>
    (fadd a.1 (inner (residual self (u t) (d t)) (residual self (u t) (d t))), tt)).
  match goal with |- context [for_each ?es ?body _] =>
    destruct (fun H => for_each_fold (fun _ : unit => s) step (fun _ => True)
                         body es H (lit 0%Z, tt) I) as [Hloop _]
  end.
  { intros t [c []] Ht _. split; [|done]. simpl.
    rewrite (bind_Ok _ _ _ _ _ (getitem_Ok _ _ _ _ Hx)).
    rewrite (bind_Ok _ _ _ _ _ (retrieve_Ok _ _ _ _ _ Hs (Hu t Ht))).
    rewrite Hd.
    rewrite (bind_Ok _ _ _ _ _ (retrieve_Ok _ _ _ _ _ Hcd (Hdd t Ht))).
    done. }
  simpl in Hloop. rewrite (bind_Ok _ _ _ _ _ Hloop). clear Hloop.
  rewrite Hnv. simpl. rewrite bind_ret.
  rewrite truediv_Ok by done. f_equal. f_equal. f_equal.
  unfold sum_of_squares. generalize (lit 0%Z). clear Hu Hdd.
  induction obs as [|t ts IH]; intros c0; simpl; [done|]. apply IH.
Qed.

End MisfitFacts.

(** ** Reading and writing one container *)

Lemma snapshot_Some s r t v :
  snapshot s r t = Some v <->
  exists l c, r = Some l /\ heap s !! l = Some (PyTDV c) /\ tdv_retrieve c t = Ok v.
Proof.
  unfold snapshot. split.
  - destruct r as [l|]; [|done].
    destruct (heap s !! l) as [[w|c]|] eqn:E; try done.
    destruct (tdv_retrieve c t) eqn:E'; [|done].
    intros [= <-]. by exists l, c.
  - intros (l & c & -> & -> & ->). done.
Qed.

Lemma snapshot_retrieve s r t v :
  snapshot s r t = Some v -> retrieve r t s = Ok (v, s).
Proof.
  intros (l & c & -> & Hl & Hv)%snapshot_Some. by eapply retrieve_Ok.
Qed.

Lemma vector_of_get s r v : vector_of s r = Some v -> vector_get r s = Ok (v, s).
Proof.
  unfold vector_of. destruct r as [l|]; [|done].
  destruct (heap s !! l) as [[w|c]|] eqn:E; try done.
  intros [= <-]. by apply vector_get_Ok.
Qed.

Lemma heap_with_data s l g D : heap (with_data s l g D)
  = <[l := PyTDV {| times := g; data := D |}]> (heap s).
Proof. done. Qed.

Lemma attrs_with_data s l g D : self_attrs (with_data s l g D) = self_attrs s.
Proof. done. Qed.

Lemma with_data_with_data s l g g' D D' :
  with_data (with_data s l g' D') l g D = with_data s l g D.
Proof.
  unfold with_data, set_heap. simpl. by rewrite list_insert_insert_eq.
Qed.

Lemma lookup_with_data_eq s l g D :
  l < length (heap s) ->
  heap (with_data s l g D) !! l = Some (PyTDV {| times := g; data := D |}).
Proof. intros H. rewrite heap_with_data. by apply list_lookup_insert_eq. Qed.

Lemma lookup_with_data_ne s l l' g D :
  l <> l' -> heap (with_data s l g D) !! l' = heap s !! l'.
Proof. intros H. rewrite heap_with_data. by apply list_lookup_insert_ne. Qed.

Lemma snapshot_with_data_ne s l r g D t :
  r <> Some l -> snapshot (with_data s l g D) r t = snapshot s r t.
Proof.
  intros H. destruct r as [l'|]; [|done]. unfold snapshot.
  rewrite lookup_with_data_ne; [done|]. congruence.
Qed.


Lemma snapshot_with_data_eq s l g D t i :
  l < length (heap s) -> grid_index g t = Some i ->
  snapshot (with_data s l g D) (Some l) t = D !! i.
Proof.
  intros Hl Hi. unfold snapshot. rewrite lookup_with_data_eq by done.
  rewrite (tdv_retrieve_index {| times := g; data := D |} t i Hi).
  simpl. by destruct (D !! i).
Qed.

Lemma with_data_id s l c :
  heap s !! l = Some (PyTDV c) -> with_data s l (times c) (data c) = s.
Proof.
  intros H. unfold with_data. destruct c as [g D]. simpl.
  rewrite list_insert_id by done. apply set_heap_id.
Qed.

Lemma store_with_data s l g D u t i :
  l < length (heap s) -> grid_index g t = Some i -> i < length D ->
  store (Some l) u t (with_data s l g D)
  = Ok (tt, with_data s l g (<[i := u]> D)).
Proof.
  intros Hl Hi Hlt.
  rewrite (store_Ok l {| times := g; data := D |} u t i);
    [|by apply lookup_with_data_eq|done|done].
  simpl. f_equal. f_equal. unfold with_data, set_heap. simpl.
  by rewrite list_insert_insert_eq.
Qed.

(** ** Storing independent values *)

Lemma stored_snoc g val ts t D :
  stored g val (ts ++ [t]) D
  = match grid_index g t with
    | Some i => <[i := val t]> (stored g val ts D)
    | None => stored g val ts D
    end.
Proof. unfold stored. by rewrite foldl_snoc. Qed.

Lemma stored_length g val ts D : length (stored g val ts D) = length D.
Proof.
  induction ts as [|t ts IH] using rev_ind; [done|].
  rewrite stored_snoc. destruct (grid_index g t); [|done].
  by rewrite length_insert.
Qed.

Lemma stored_hit g val ts D t i :
  t ∈ ts -> grid_index g t = Some i -> i < length D ->
  stored g val ts D !! i = Some (val t).
Proof.
  intros Ht Hi Hlt. induction ts as [|t' ts IH] using rev_ind.
  - by apply elem_of_nil in Ht.
  - rewrite stored_snoc.
    destruct (decide (t' = t)) as [->|Hne].
    + rewrite Hi. apply list_lookup_insert_eq. by rewrite stored_length.
    + apply elem_of_app in Ht as [Ht|Ht%list_elem_of_singleton]; [|done].
      destruct (grid_index g t') as [i'|] eqn:E; [|by apply IH].
      rewrite list_lookup_insert_ne; [by apply IH|].
      intros ->. rewrite grid_index_position in E, Hi.
      apply position_lookup in E, Hi. congruence.
Qed.

Lemma stored_miss g val ts D k :
  (forall t, t ∈ ts -> grid_index g t <> Some k) ->
  stored g val ts D !! k = D !! k.
Proof.
  induction ts as [|t ts IH] using rev_ind; intros H; [done|].
  rewrite stored_snoc.
  assert (stored g val ts D !! k = D !! k) as IH'.
  { apply IH. intros t' Ht'. apply H. apply elem_of_app. by left. }
  destruct (grid_index g t) as [i|] eqn:E; [|done].
  rewrite list_lookup_insert_ne; [done|].
  intros ->. eapply H; [|done]. apply elem_of_app. right. by apply list_elem_of_singleton.
Qed.

(** A loop that stores, at each time [t] of [ts], a value [val t] that
    does not depend on what the loop has stored so far. *)
Lemma store_loop (body : scalar -> unit -> Py unit) s l g val ts D :
  l < length (heap s) ->
  (forall t, t ∈ ts -> exists i, grid_index g t = Some i /\ i < length D) ->
  (forall t D', t ∈ ts -> length D' = length D ->
     body t tt (with_data s l g D')
     = store (Some l) (val t) t (with_data s l g D')) ->
  for_each ts body tt (with_data s l g D)
  = Ok (tt, with_data s l g (stored g val ts D)).
Proof.
  intros Hl Hidx Hbody.
  pose (step := fun (a : unit * list vec) t =>
                  (tt, match grid_index g t with
                       | Some i => <[i := val t]> a.2
                       | None => a.2
                       end)).
  destruct (fun H => for_each_fold (fun D' => with_data s l g D') step
                       (fun a => length a.2 = length D) body ts H (tt, D) eq_refl)
    as [Hloop _].
  { intros t [[] D'] Ht HD'. simpl in *.
    destruct (Hidx t Ht) as (i & Hi & Hlt). rewrite Hi.
    split; [|by rewrite length_insert].
    rewrite Hbody by done. apply store_with_data; [done|done|lia]. }
  simpl in Hloop. rewrite Hloop.
  assert (foldl step (tt, D) ts = (tt, stored g val ts D)) as ->; [|done].
  unfold stored. generalize D. clear.
  induction ts as [|t ts IH]; intros D; simpl; [done|]. apply IH.
Qed.

(** ** Zeroing *)

Lemma zero_container s l c :
  heap s !! l = Some (PyTDV c) ->
  zero (Some l) s
  = Ok (tt, with_data s l (times c) ((fun _ => vzero) <$> data c)).
Proof. intros H. by rewrite (zero_Ok _ _ _ H). Qed.

Lemma zero_vector s l w :
  heap s !! l = Some (PyVector w) ->
  zero (Some l) s = Ok (tt, with_vector s l vzero).
Proof. intros H. by rewrite (zero_Ok _ _ _ H). Qed.

Lemma lookup_zeros D i : i < length D -> ((fun _ => vzero) <$> D) !! i = Some vzero.
Proof.
  intros H. rewrite list_lookup_fmap.
  by destruct (lookup_lt_is_Some_2 D i H) as [v ->].
Qed.

Lemma snapshot_index s l t :
  is_Some (snapshot s (Some l) t) ->
  exists c i, heap s !! l = Some (PyTDV c) /\ grid_index (times c) t = Some i
              /\ i < length (data c).
Proof.
  intros [v (l' & c & [= <-] & Hc & Hv)%snapshot_Some].
  destruct (retrieve_has_entry _ _ _ Hv) as (i & Hi & Hlt). by exists c, i.
Qed.

(** ** The misfit's gradient and second derivative *)

Section MisfitBlocks.
Variable self : Misfit.
Local Abbreviation obs := (SpaceTimePointwiseStateObservation.observation_times self).

Lemma grad_STATE (x : list ref) (xs : ref) lo o nv s (u d : scalar -> vec) :
  heap s !! lo = Some o ->
  x !! Z.to_nat STATE = Some xs ->
  xs <> Some lo ->
  SpaceTimePointwiseStateObservation.d self <> Some lo ->
  SpaceTimePointwiseStateObservation.noise_variance self = Some nv ->
  nv <> lit 0%Z ->
  (forall t, t ∈ obs -> snapshot s xs t = Some (u t)) ->
  (forall t, t ∈ obs ->
     snapshot s (SpaceTimePointwiseStateObservation.d self) t = Some (d t)) ->
  (forall t, t ∈ obs -> is_Some (snapshot s (Some lo) t)) ->
  exists s',
    SpaceTimePointwiseStateObservation.grad self STATE x (Some lo) s = Ok (tt, s')
    /\ self_attrs s' = self_attrs s
    /\ length (heap s') = length (heap s)
    /\ (forall l', l' <> lo -> heap s' !! l' = heap s !! l')
    /\ (forall t, t ∈ obs ->
          snapshot s' (Some lo) t = Some (gradient_snapshot self nv (u t) (d t)))
    /\ (forall t, t ∉ obs -> is_Some (snapshot s (Some lo) t) ->
          snapshot s' (Some lo) t = Some vzero).
Proof.
  intros Ho Hx Hxs Hd Hnv Hnz Hu Hdd Hout.
  unfold SpaceTimePointwiseStateObservation.grad.
  rewrite decide_True by done.
  destruct o as [w|c].
  - (* a vector can only be passed when there is nothing to store *)
    assert (obs = []) as ->.
    { destruct obs as [|t ts] eqn:E; [done|].
      destruct (Hout t) as [v Hv]; [by left|].
      unfold snapshot in Hv. by rewrite Ho in Hv. }
    rewrite (bind_Ok _ _ _ _ _ (zero_vector _ _ _ Ho)). simpl.
    eexists. split; [done|]. split; [done|].
    split; [by simpl; rewrite length_insert|].
    split; [by intros l' Hl'; simpl; rewrite list_lookup_insert_ne|].
    split; [by intros t Ht%elem_of_nil|].
    intros t _ [v Hv]. unfold snapshot in Hv. by rewrite Ho in Hv.
  - rewrite (bind_Ok _ _ _ _ _ (zero_container _ _ _ Ho)).
    assert (Hlo : lo < length (heap s)) by by eapply lookup_lt_Some.
    pose (val := fun t => gradient_snapshot self nv (u t) (d t)).
    rewrite (store_loop _ s lo (times c) val).
    + eexists. split; [done|]. split; [done|].
      split; [by rewrite heap_with_data, length_insert|].
      split; [by intros l' Hl'; apply lookup_with_data_ne|].
      split.
      * intros t Ht.
        destruct (snapshot_index _ _ _ (Hout t Ht)) as (c' & i & Hc' & Hi & Hlt).
        rewrite Ho in Hc'. injection Hc' as <-.
        rewrite (snapshot_with_data_eq _ _ _ _ _ _ Hlo Hi).
        apply (stored_hit _ val); [done|done|by rewrite length_fmap].
      * intros t Ht Hsome.
        destruct (snapshot_index _ _ _ Hsome) as (c' & i & Hc' & Hi & Hlt).
        rewrite Ho in Hc'. injection Hc' as <-.
        rewrite (snapshot_with_data_eq _ _ _ _ _ _ Hlo Hi).
        rewrite stored_miss; [by apply lookup_zeros|].
        intros t' Ht' Hi'. rewrite grid_index_position in Hi, Hi'.
        apply position_lookup in Hi, Hi'. congruence.
    + done.
    + intros t Ht.
      destruct (snapshot_index _ _ _ (Hout t Ht)) as (c' & i & Hc' & Hi & Hlt).
      rewrite Ho in Hc'. injection Hc' as <-.
      exists i. by rewrite length_fmap.
    + intros t D' Ht _.
      rewrite (bind_Ok _ _ _ _ _ (getitem_Ok _ _ _ _ Hx)).
      erewrite bind_Ok; last first.
      { apply snapshot_retrieve. rewrite snapshot_with_data_ne by done. by apply Hu. }
      erewrite bind_Ok; last first.
      { apply snapshot_retrieve. rewrite snapshot_with_data_ne by done. by apply Hdd. }
      rewrite Hnv. simpl. rewrite bind_ret.
      rewrite (bind_Ok _ _ _ _ _ (truediv_Ok _ _ _ Hnz)). done.
Qed.

Lemma grad_other (i : Z) (x : list ref) lo o s :
  i <> STATE -> heap s !! lo = Some o ->
  SpaceTimePointwiseStateObservation.grad self i x (Some lo) s
  = Ok (tt, set_heap (<[lo := zero_obj o]> (heap s)) s).
Proof.
  intros Hi Ho. unfold SpaceTimePointwiseStateObservation.grad.
  rewrite (bind_Ok _ _ _ _ _ (zero_Ok _ _ _ Ho)).
  by rewrite decide_False.
Qed.

Lemma misfit_apply_ij_STATE (direction : ref) lo o nv s (du : scalar -> vec) :
  heap s !! lo = Some o ->
  direction <> Some lo ->
  SpaceTimePointwiseStateObservation.noise_variance self = Some nv ->
  nv <> lit 0%Z ->
  (forall t, t ∈ obs -> snapshot s direction t = Some (du t)) ->
  (forall t, t ∈ obs -> is_Some (snapshot s (Some lo) t)) ->
  exists s',
    SpaceTimePointwiseStateObservation.apply_ij self STATE STATE direction
      (Some lo) s = Ok (tt, s')
    /\ self_attrs s' = self_attrs s
    /\ (forall l', l' <> lo -> heap s' !! l' = heap s !! l')
    /\ (forall t, t ∈ obs ->
          snapshot s' (Some lo) t = Some (hessian_snapshot self nv (du t)))
    /\ (forall t, t ∉ obs -> is_Some (snapshot s (Some lo) t) ->
          snapshot s' (Some lo) t = Some vzero).
Proof.
  intros Ho Hdir Hnv Hnz Hdu Hout.
  unfold SpaceTimePointwiseStateObservation.apply_ij.
  rewrite decide_True by done.
  destruct o as [w|c].
  - assert (obs = []) as ->.
    { destruct obs as [|t ts] eqn:E; [done|].
      destruct (Hout t) as [v Hv]; [by left|].
      unfold snapshot in Hv. by rewrite Ho in Hv. }
    rewrite (bind_Ok _ _ _ _ _ (zero_vector _ _ _ Ho)). simpl.
    eexists. split; [done|]. split; [done|].
    split; [by intros l' Hl'; simpl; rewrite list_lookup_insert_ne|].
    split; [by intros t Ht%elem_of_nil|].
    intros t _ [v Hv]. unfold snapshot in Hv. by rewrite Ho in Hv.
  - rewrite (bind_Ok _ _ _ _ _ (zero_container _ _ _ Ho)).
    assert (Hlo : lo < length (heap s)) by by eapply lookup_lt_Some.
    pose (val := fun t => hessian_snapshot self nv (du t)).
    rewrite (store_loop _ s lo (times c) val).
    + eexists. split; [done|]. split; [done|].
      split; [by intros l' Hl'; apply lookup_with_data_ne|].
      split.
      * intros t Ht.
        destruct (snapshot_index _ _ _ (Hout t Ht)) as (c' & i & Hc' & Hi & Hlt).
        rewrite Ho in Hc'. injection Hc' as <-.
        rewrite (snapshot_with_data_eq _ _ _ _ _ _ Hlo Hi).
        apply (stored_hit _ val); [done|done|by rewrite length_fmap].
      * intros t Ht Hsome.
        destruct (snapshot_index _ _ _ Hsome) as (c' & i & Hc' & Hi & Hlt).
        rewrite Ho in Hc'. injection Hc' as <-.
        rewrite (snapshot_with_data_eq _ _ _ _ _ _ Hlo Hi).
        rewrite stored_miss; [by apply lookup_zeros|].
        intros t' Ht' Hi'. rewrite grid_index_position in Hi, Hi'.
        apply position_lookup in Hi, Hi'. congruence.
    + done.
    + intros t Ht.
      destruct (snapshot_index _ _ _ (Hout t Ht)) as (c' & i & Hc' & Hi & Hlt).
      rewrite Ho in Hc'. injection Hc' as <-.
      exists i. by rewrite length_fmap.
    + intros t D' Ht _.
      erewrite bind_Ok; last first.
      { apply snapshot_retrieve. rewrite snapshot_with_data_ne by done. by apply Hdu. }
      rewrite Hnv. simpl. rewrite bind_ret.
      rewrite (bind_Ok _ _ _ _ _ (truediv_Ok _ _ _ Hnz)). done.
Qed.

Lemma misfit_apply_ij_other (i j : Z) (direction : ref) lo o s :
  ~ (i = STATE /\ j = STATE) -> heap s !! lo = Some o ->
  SpaceTimePointwiseStateObservation.apply_ij self i j direction (Some lo) s
  = Ok (tt, set_heap (<[lo := zero_obj o]> (heap s)) s).
Proof.
  intros Hi Ho. unfold SpaceTimePointwiseStateObservation.apply_ij.
  rewrite (bind_Ok _ _ _ _ _ (zero_Ok _ _ _ Ho)).
  by rewrite decide_False.
Qed.

End MisfitBlocks.

(** ** Time marching *)

Lemma march_length F u ts : length (march F u ts) = length ts.
Proof. revert u. induction ts as [|t ts IH]; intros u; simpl; [done|]. by rewrite IH. Qed.

(** Each value of the history [u :: march F u ts] is [F] of the one
    before it. *)
Lemma march_step F u ts k t :
  ts !! k = Some t ->
  exists uprev, (u :: march F u ts) !! k = Some uprev
                /\ march F u ts !! k = Some (F t uprev).
Proof.
  revert u k. induction ts as [|t' ts IH]; intros u k; [done|].
  destruct k as [|k]; simpl.
  - intros [= ->]. by exists u.
  - intros Hk. destruct (IH (F t' u) k Hk) as (uprev & H1 & H2). by exists uprev.
Qed.

Lemma march_back_length F u ts : length (march_back F u ts) = length ts.
Proof. induction ts as [|t ts IH]; simpl; [done|]. by rewrite IH. Qed.

Lemma march_back_snoc F u ts t :
  march_back F u (ts ++ [t]) = march_back F (F t u) ts ++ [F t u].
Proof.
  induction ts as [|t' ts IH]; simpl; [done|].
  rewrite IH. f_equal. f_equal.
  destruct (march_back F (F t u) ts) as [|r rs] eqn:E; simpl; [|done].
  destruct ts; [done|]. simpl in E. done.
Qed.

(** Each value of a backward history is [F] of the one after it, and the
    one at the last time is [F] of the initial value. *)
Lemma march_back_step F u ts k t :
  ts !! k = Some t ->
  march_back F u ts !! k
  = Some (F t (default u (march_back F u ts !! S k))).
Proof.
  revert k. induction ts as [|t' ts IH]; intros k; [done|].
  destruct k as [|k]; simpl.
  - intros [= ->]. by rewrite head_lookup.
  - apply IH.
Qed.

Lemma for_each_cons {T S} (e : T) (es : list T) (body : T -> S -> Py S) a s :
  for_each (e :: es) body a s = bind (body e a) (fun a' => for_each es body a') s.
Proof. done. Qed.

Lemma insert_middle {A} (l1 l2 : list A) (x y : A) :
  <[length l1 := y]> (l1 ++ x :: l2) = l1 ++ y :: l2.
Proof. rewrite insert_app_r_alt by lia. by rewrite Nat.sub_diag. Qed.

(** A forward loop over the times [q] that follow [p] on the grid. *)
Lemma march_loop (body : scalar -> vec -> Py vec) s l g F :
  l < length (heap s) -> NoDup g ->
  forall q p Dp Dq u0,
    g = p ++ q -> length Dp = length p -> length Dq = length q ->
    (forall t uold D', t ∈ q ->
       body t uold (with_data s l g D')
       = bind (store (Some l) (F t uold) t) (fun _ => ret (F t uold))
              (with_data s l g D')) ->
    for_each q body u0 (with_data s l g (Dp ++ Dq))
    = Ok (foldl (fun u t => F t u) u0 q,
          with_data s l g (Dp ++ march F u0 q)).
Proof.
  intros Hl Hnd. induction q as [|t q IH]; intros p Dp Dq u0 Hg HDp HDq Hbody.
  - destruct Dq; [|done]. done.
  - destruct Dq as [|x Dq]; [done|].
    assert (grid_index g t = Some (length p)) as Hi.
    { rewrite grid_index_position, Hg. apply position_middle.
      rewrite Hg in Hnd. apply NoDup_app in Hnd as (_ & Hnd & _).
      intros Hin. apply (Hnd t Hin). by left. }
    rewrite for_each_cons. erewrite bind_Ok; last first.
    { rewrite Hbody by (by left).
      erewrite bind_Ok; [done|].
      apply store_with_data; [done|done|]. rewrite length_app. simpl. lia. }
    rewrite <- HDp, insert_middle. simpl.
    replace (Dp ++ F t u0 :: Dq) with ((Dp ++ [F t u0]) ++ Dq)
      by (by rewrite <- app_assoc).
    replace (Dp ++ F t u0 :: march F (F t u0) q)
      with ((Dp ++ [F t u0]) ++ march F (F t u0) q)
      by (by rewrite <- app_assoc).
    apply (IH (p ++ [t])).
    + by rewrite <- app_assoc.
    + rewrite !length_app. simpl. lia.
    + simpl in HDq. lia.
    + intros t' uold D' Ht'. apply Hbody. by right.
Qed.

(** A backward loop over the times [p] that precede [q] on the grid. *)
Lemma march_back_loop (body : scalar -> vec -> Py vec) s l g F :
  l < length (heap s) -> NoDup g ->
  forall p q Dp Dq u0,
    g = p ++ q -> length Dp = length p ->
    (forall t pold D', t ∈ p ->
       body t pold (with_data s l g D')
       = bind (store (Some l) (F t pold) t) (fun _ => ret (F t pold))
              (with_data s l g D')) ->
    for_each (reverse p) body u0 (with_data s l g (Dp ++ Dq))
    = Ok (foldl (fun u t => F t u) u0 (reverse p),
          with_data s l g (march_back F u0 p ++ Dq)).
Proof.
  intros Hl Hnd. induction p as [|t p IH] using rev_ind;
    intros q Dp' Dq u0 Hg HDp Hbody.
  - destruct Dp'; [|done]. done.
  - destruct Dp' as [|x Dp _] using rev_ind.
    { rewrite length_app in HDp. simpl in HDp. lia. }
    rewrite !length_app in HDp. simpl in HDp.
    assert (grid_index g t = Some (length p)) as Hi.
    { rewrite grid_index_position, Hg, <- app_assoc. apply position_middle.
      rewrite Hg, <- app_assoc in Hnd. apply NoDup_app in Hnd as (_ & Hnd & _).
      intros Hin. apply (Hnd t Hin). by left. }
    rewrite reverse_snoc, for_each_cons. erewrite bind_Ok; last first.
    { rewrite Hbody by (apply elem_of_app; right; by left).
      erewrite bind_Ok; [done|].
      apply store_with_data; [done|done|]. rewrite !length_app. simpl. lia. }
    rewrite <- app_assoc. simpl.
    assert (length p = length Dp) as -> by lia.
    rewrite insert_middle.
    rewrite march_back_snoc, <- app_assoc. simpl.
    apply (IH (t :: q)).
    + by rewrite Hg, <- app_assoc.
    + lia.
    + intros t' pold D' Ht'. apply Hbody. apply elem_of_app. by left.
Qed.

Lemma solver_solve_Ok (L : op) (b : vec) s :
  attr_solver (self_attrs s) = Some L ->
  TimeDependentAD.solver_solve b s = Ok (lu_solve L b, s).
Proof. unfold TimeDependentAD.solver_solve. by intros ->. Qed.

Lemma solvert_solve_Ok (L : op) (b : vec) s :
  attr_solvert (self_attrs s) = Some L ->
  TimeDependentAD.solvert_solve b s = Ok (lu_solve L b, s).
Proof. unfold TimeDependentAD.solvert_solve. by intros ->. Qed.

(** ** Vectors in the store *)

Lemma heap_with_vector s l v :
  heap (with_vector s l v) = <[l := PyVector v]> (heap s).
Proof. done. Qed.

Lemma lookup_with_vector_eq s l v :
  l < length (heap s) -> heap (with_vector s l v) !! l = Some (PyVector v).
Proof. intros H. rewrite heap_with_vector. by apply list_lookup_insert_eq. Qed.

Lemma lookup_with_vector_ne s l l' v :
  l <> l' -> heap (with_vector s l v) !! l' = heap s !! l'.
Proof. intros H. rewrite heap_with_vector. by apply list_lookup_insert_ne. Qed.

Lemma with_vector_with_vector s l v w :
  with_vector (with_vector s l w) l v = with_vector s l v.
Proof. unfold with_vector, set_heap. simpl. by rewrite list_insert_insert_eq. Qed.

Lemma length_heap_with_vector s l v :
  length (heap (with_vector s l v)) = length (heap s).
Proof. rewrite heap_with_vector. apply length_insert. Qed.

Lemma snapshot_with_vector_ne s l r v t :
  r <> Some l -> snapshot (with_vector s l v) r t = snapshot s r t.
Proof.
  intros H. destruct r as [l'|]; [|done]. unfold snapshot.
  rewrite lookup_with_vector_ne; [done|]. congruence.
Qed.

Lemma vector_of_with_vector_ne s l r v :
  r <> Some l -> vector_of (with_vector s l v) r = vector_of s r.
Proof.
  intros H. destruct r as [l'|]; [|done]. unfold vector_of.
  rewrite lookup_with_vector_ne; [done|]. congruence.
Qed.

Lemma vector_of_with_vector_eq s l v :
  l < length (heap s) -> vector_of (with_vector s l v) (Some l) = Some v.
Proof. intros H. unfold vector_of. by rewrite lookup_with_vector_eq. Qed.

Lemma iadd_with_vector s l v w :
  l < length (heap s) ->
  iadd (Some l) w (with_vector s l v) = Ok (tt, with_vector s l (vadd v w)).
Proof.
  intros H. rewrite (iadd_Ok l v) by by apply lookup_with_vector_eq.
  f_equal. f_equal. unfold with_vector, set_heap. simpl.
  by rewrite list_insert_insert_eq.
Qed.

Lemma imul_with_vector s l v a :
  l < length (heap s) ->
  imul (Some l) a (with_vector s l v) = Ok (tt, with_vector s l (vscale a v)).
Proof.
  intros H. rewrite (imul_Ok l (PyVector v)) by by apply lookup_with_vector_eq.
  f_equal. f_equal. unfold with_vector, set_heap. simpl.
  by rewrite list_insert_insert_eq.
Qed.

(** A loop that adds, at each time [t] of [ts], a value [val t] to the
    vector at [l]. *)
Lemma accumulate_loop (body : scalar -> unit -> Py unit) s l val ts v0 :
  l < length (heap s) ->
  (forall t v, t ∈ ts ->
     body t tt (with_vector s l v) = iadd (Some l) (val t) (with_vector s l v)) ->
  for_each ts body tt (with_vector s l v0)
  = Ok (tt, with_vector s l (accumulate val ts v0)).
Proof.
  intros Hl Hbody.
  pose (step := fun (a : unit * vec) t => (tt, vadd a.2 (val t))).
  destruct (fun H => for_each_fold (fun v => with_vector s l v) step
                       (fun _ => True) body ts H (tt, v0) I) as [Hloop _].
  { intros t [[] v] Ht _. simpl. split; [|done].
    rewrite Hbody by done. by apply iadd_with_vector. }
  simpl in Hloop. rewrite Hloop.
  assert (foldl step (tt, v0) ts = (tt, accumulate val ts v0)) as ->; [|done].
  unfold accumulate. generalize v0. clear.
  induction ts as [|t ts IH]; intros v0; simpl; [done|]. apply IH.
Qed.

(** ** The model's time loops *)

Section ModelLoops.
Variable self : Model.
Local Abbreviation g := (TimeDependentAD.simulation_times self).

Lemma zeros_cons (D : list vec) n :
  length D = S n ->
  exists D', (fun _ => vzero) <$> D = vzero :: D' /\ length D' = n.
Proof.
  destruct D as [|x D]; [done|]. simpl. intros [= H].
  eexists. split; [done|]. by rewrite length_fmap.
Qed.

Lemma solveFwdIncremental_run lsol (rhs : ref) c L (r : scalar -> vec) s :
  heap s !! lsol = Some (PyTDV c) -> times c = g -> tdv_wf c ->
  NoDup g -> g <> [] ->
  rhs <> Some lsol ->
  attr_solver (self_attrs s) = Some L ->
  (forall t, t ∈ drop 1 g -> snapshot s rhs t = Some (r t)) ->
  TimeDependentAD.solveFwdIncremental self (Some lsol) rhs s
  = Ok (tt, with_data s lsol g
              (vzero :: march (incremental_step self L r) vzero (drop 1 g))).
Proof.
  intros Hc Hg Hwf Hnd Hne Hrhs HL Hr.
  unfold TimeDependentAD.solveFwdIncremental, TimeDependentAD.first_time.
  rewrite (bind_Ok _ _ _ _ _ (zero_container _ _ _ Hc)). rewrite Hg.
  assert (Hl : lsol < length (heap s)) by by eapply lookup_lt_Some.
  unfold tdv_wf in Hwf. rewrite Hg in Hwf.
  destruct g as [|t0 q] eqn:Eg; [done|]. simpl.
  destruct (zeros_cons (data c) (length q) Hwf) as (D' & -> & HD').
  rewrite bind_ret.
  erewrite bind_Ok; last first.
  { apply (store_with_data _ _ _ _ _ _ 0); [done| |simpl; lia].
    simpl. by rewrite decide_True. }
  simpl. change (drop 0 q) with q.
  erewrite bind_Ok; last first.
  { apply (march_loop _ s lsol (t0 :: q) (incremental_step self L r) Hl Hnd
             q [t0] [vzero] D' vzero); [done|done|done|].
    intros t uold D'' Ht.
    erewrite bind_Ok; last first.
    { apply snapshot_retrieve. rewrite snapshot_with_data_ne by done.
      by apply Hr. }
    erewrite bind_Ok; [|by apply solver_solve_Ok]. done. }
  done.
Qed.

Lemma vector_of_lookup s r v :
  vector_of s r = Some v <-> exists l, r = Some l /\ heap s !! l = Some (PyVector v).
Proof.
  unfold vector_of. split.
  - destruct r as [l|]; [|done].
    destruct (heap s !! l) as [[w|c]|] eqn:E; try done.
    intros [= <-]. by exists l.
  - by intros (l & -> & ->).
Qed.

Lemma with_data_comm s l1 l2 g1 g2 D1 D2 :
  l1 <> l2 ->
  with_data (with_data s l1 g1 D1) l2 g2 D2
  = with_data (with_data s l2 g2 D2) l1 g1 D1.
Proof.
  intros H. unfold with_data, set_heap. simpl.
  by rewrite list_insert_insert_ne.
Qed.

Lemma length_heap_with_data s l g D :
  length (heap (with_data s l g D)) = length (heap s).
Proof. rewrite heap_with_data. apply length_insert. Qed.

Lemma define_Fwd_solver_Ok (x : list ref) (xm : ref) m s :
  x !! Z.to_nat PARAMETER = Some xm -> vector_of s xm = Some m ->
  TimeDependentAD.define_Fwd_solver self x s
  = Ok (tt, set_attrs (TimeDependentAD.assign_Fwd (N_at m) (L_at self m)
                         (L_at self m) (self_attrs s)) s).
Proof.
  intros Hx Hm. unfold TimeDependentAD.define_Fwd_solver.
  rewrite (bind_Ok _ _ _ _ _ (getitem_Ok _ _ _ _ Hx)).
  rewrite (bind_Ok _ _ _ _ _ (vector_of_get _ _ _ Hm)). done.
Qed.

Lemma define_Adj_solver_Ok (x : list ref) (xm : ref) m s :
  x !! Z.to_nat PARAMETER = Some xm -> vector_of s xm = Some m ->
  TimeDependentAD.define_Adj_solver self x s
  = Ok (tt, set_attrs (TimeDependentAD.assign_Adj (Nt_at m) (Lt_at self m)
                         (Lt_at self m) (self_attrs s)) s).
Proof.
  intros Hx Hm. unfold TimeDependentAD.define_Adj_solver.
  rewrite (bind_Ok _ _ _ _ _ (getitem_Ok _ _ _ _ Hx)).
  rewrite (bind_Ok _ _ _ _ _ (vector_of_get _ _ _ Hm)). done.
Qed.

(** The state [solveFwd] ends in: the solver attributes are assigned,
    the state container holds the initial condition at its first time,
    and the output container holds the time march after its first
    entry, which is the initial condition when the two containers are
    one object and zero otherwise. *)
Lemma solveFwd_run lo ls (x : list ref) (xm : ref) cout cst m s :
  heap s !! lo = Some (PyTDV cout) -> times cout = g -> tdv_wf cout ->
  x !! Z.to_nat STATE = Some (Some ls) ->
  heap s !! ls = Some (PyTDV cst) -> times cst = g -> tdv_wf cst ->
  x !! Z.to_nat PARAMETER = Some xm -> vector_of s xm = Some m ->
  NoDup g -> g !! 0 = Some (lit 0%Z) ->
  TimeDependentAD.solveFwd self (Some lo) x s
  = Ok (tt,
        with_data
          (with_data
             (set_attrs (TimeDependentAD.assign_Fwd (N_at m) (L_at self m)
                           (L_at self m) (self_attrs s)) s)
             ls g (<[0 := TimeDependentAD.ic self]> (data cst)))
          lo g
          ((if decide (lo = ls) then TimeDependentAD.ic self else vzero)
           :: march (forward_step self (L_at self m)) (TimeDependentAD.ic self)
                (drop 1 g))).
Proof.
  intros Hout Hgo Hwfo Hx Hst Hgs Hwfs Hxm Hm Hnd H0.
  assert (Hlo : lo < length (heap s)) by by eapply lookup_lt_Some.
  assert (Hls : ls < length (heap s)) by by eapply lookup_lt_Some.
  apply vector_of_lookup in Hm as (lm & -> & Hm).
  assert (lm <> lo) as Hmo by (intros ->; congruence).
  assert (lm <> ls) as Hms by (intros ->; congruence).
  unfold tdv_wf in Hwfo, Hwfs. rewrite Hgo in Hwfo. rewrite Hgs in Hwfs.
  unfold TimeDependentAD.solveFwd.
  rewrite (bind_Ok _ _ _ _ _ (zero_container _ _ _ Hout)). rewrite Hgo.
  rewrite (bind_Ok _ _ _ _ _ (getitem_Ok _ _ _ _ Hx)).
  destruct g as [|t0 q] eqn:Eg; [done|]. injection H0 as ->.
  destruct (zeros_cons (data cout) (length q) Hwfo) as (Z & -> & HZ).
  set (ic := TimeDependentAD.ic self).
  set (a' := TimeDependentAD.assign_Fwd _ _ _ _).
  set (F := forward_step self (L_at self m)).
  change (drop 1 (lit 0%Z :: q)) with q.
  assert (Hidx : grid_index (lit 0%Z :: q) (lit 0%Z) = Some 0)
    by (simpl; by rewrite decide_True).
  destruct (decide (lo = ls)) as [->|Hne].
  - (* the output container is the state container *)
    rewrite with_data_with_data.
    erewrite bind_Ok; last first.
    { apply (store_with_data _ _ _ _ _ _ 0); [done|done|simpl; lia]. }
    simpl.
    rewrite (bind_Ok _ _ _ _ _ (getitem_Ok _ _ _ _ Hx)).
    erewrite bind_Ok; last first.
    { eapply data_copy_Ok; [by apply lookup_with_data_eq|done]. }
    erewrite bind_Ok; last first.
    { eapply define_Fwd_solver_Ok; [done|].
      apply vector_of_lookup. exists lm. split; [done|].
      by rewrite lookup_with_data_ne. }
    erewrite bind_Ok; last first.
    { apply (march_loop _ (set_attrs a' s) ls (lit 0%Z :: q) F Hls Hnd
               q [lit 0%Z] [ic] Z ic); [done|done|done|].
      intros t uold D' Ht.
      erewrite bind_Ok; [|by apply solver_solve_Ok]. done. }
    done.
  - (* two distinct containers *)
    erewrite bind_Ok; last first.
    { eapply (store_Ok ls cst _ _ 0);
        [by rewrite lookup_with_data_ne|by rewrite Hgs|].
      rewrite Hwfs. simpl. lia. }
    rewrite Hgs.
    change (set_heap _ (with_data s lo ?gg ?DD))
      with (with_data (with_data s lo gg DD) ls (lit 0%Z :: q)
              (<[0 := ic]> (data cst))).
    rewrite (bind_Ok _ _ _ _ _ (getitem_Ok _ _ _ _ Hx)).
    erewrite bind_Ok; last first.
    { eapply data_copy_Ok.
      - apply lookup_with_data_eq. by rewrite length_heap_with_data.
      - simpl. apply list_lookup_insert_eq. rewrite Hwfs. simpl. lia. }
    erewrite bind_Ok; last first.
    { eapply define_Fwd_solver_Ok; [done|].
      apply vector_of_lookup. exists lm. split; [done|].
      by rewrite !lookup_with_data_ne. }
    rewrite (with_data_comm _ lo ls) by done.
    erewrite bind_Ok; last first.
    { apply (march_loop _ (set_attrs a' (with_data s ls (lit 0%Z :: q)
                                           (<[0:=ic]> (data cst))))
               lo (lit 0%Z :: q) F
               ltac:(simpl; by rewrite length_insert) Hnd
               q [lit 0%Z] [vzero] Z ic); [done|done|done|].
      intros t uold D' Ht.
      erewrite bind_Ok; [|by apply solver_solve_Ok]. done. }
    done.
Qed.

Lemma lookup_alloc s (o : pyobj) l :
  l < length (heap s) -> heap (set_heap (heap s ++ [o]) s) !! l = heap s !! l.
Proof. intros H. simpl. by apply lookup_app_l. Qed.

Lemma snapshot_alloc s (o : pyobj) l t :
  l < length (heap s) ->
  snapshot (set_heap (heap s ++ [o]) s) (Some l) t = snapshot s (Some l) t.
Proof. intros H. unfold snapshot. by rewrite lookup_alloc. Qed.

Lemma snapshot_valid s r t v :
  snapshot s r t = Some v -> exists l, r = Some l /\ l < length (heap s).
Proof.
  intros (l & c & -> & Hl & _)%snapshot_Some. exists l. split; [done|].
  by eapply lookup_lt_Some.
Qed.

(** The state [solveAdj] ends in.  [s3] is the state before the output
    is zeroed: the state-gradient history has been allocated and filled
    by the misfit, and the adjoint solver attributes are assigned. *)
Lemma solveAdj_run lo ls ld lm (x : list ref) cout cst cd m nv
    (u d : scalar -> vec) s :
  let misfit := TimeDependentAD.misfit self in
  let obs := SpaceTimePointwiseStateObservation.observation_times misfit in
  let gs := grad_state_at misfit nv u d in
  heap s !! lo = Some (PyTDV cout) -> times cout = g -> tdv_wf cout ->
  x !! Z.to_nat STATE = Some (Some ls) -> heap s !! ls = Some (PyTDV cst) ->
  SpaceTimePointwiseStateObservation.d misfit = Some ld ->
  heap s !! ld = Some (PyTDV cd) ->
  x !! Z.to_nat PARAMETER = Some (Some lm) -> heap s !! lm = Some (PyVector m) ->
  SpaceTimePointwiseStateObservation.noise_variance misfit = Some nv ->
  nv <> lit 0%Z ->
  (forall t, t ∈ obs -> t ∈ g) ->
  (forall t, t ∈ obs -> tdv_retrieve cst t = Ok (u t)) ->
  (forall t, t ∈ obs -> tdv_retrieve cd t = Ok (d t)) ->
  NoDup g ->
  exists s3,
    TimeDependentAD.solveAdj self (Some lo) x s
    = Ok (tt, with_data s3 lo g
                (march_back (adjoint_step self (Lt_at self m) gs) vzero g))
    /\ self_attrs s3
       = TimeDependentAD.assign_Adj (Nt_at m) (Lt_at self m) (Lt_at self m)
           (self_attrs s)
    /\ length (heap s3) = S (length (heap s))
    /\ (forall l', l' < length (heap s) -> heap s3 !! l' = heap s !! l')
    /\ (forall t, t ∈ g -> snapshot s3 (Some (length (heap s))) t = Some (gs t)).
Proof.
  intros misfit obs gs Hout Hgo Hwfo Hx Hst Hd Hcd Hxm Hm Hnv Hnz Hsub Hu Hdd Hnd.
  assert (Hlo : lo < length (heap s)) by by eapply lookup_lt_Some.
  assert (Hls : ls < length (heap s)) by by eapply lookup_lt_Some.
  assert (Hld : ld < length (heap s)) by by eapply lookup_lt_Some.
  assert (Hlm : lm < length (heap s)) by by eapply lookup_lt_Some.
  set (lg := length (heap s)).
  set (s1 := set_heap (heap s ++ [PyTDV (tdv_new g)]) s).
  assert (Hg1 : heap s1 !! lg = Some (PyTDV (tdv_new g))).
  { unfold s1. simpl. rewrite lookup_app_r by done.
    by rewrite Nat.sub_diag. }
  assert (Hentry : forall t, t ∈ g -> is_Some (snapshot s1 (Some lg) t)).
  { intros t Ht. unfold snapshot. rewrite Hg1.
    destruct (has_entry_retrieve (tdv_new g) t) as [v ->]; [|by eexists].
    apply wf_has_entry; [apply tdv_new_wf|done]. }
  destruct (grad_STATE misfit x (Some ls) lg _ nv s1 u d Hg1 Hx) as
    (s2 & Hgrad & Ha2 & Hlen2 & Hframe2 & Hhit & Hmiss).
  { intros [= ->]. lia. }
  { rewrite Hd. intros [= ->]. lia. }
  { done. }
  { done. }
  { intros t Ht. unfold s1. rewrite snapshot_alloc by done.
    unfold snapshot. rewrite Hst. by rewrite (Hu t Ht). }
  { intros t Ht. rewrite Hd. unfold s1. rewrite snapshot_alloc by done.
    unfold snapshot. rewrite Hcd. by rewrite (Hdd t Ht). }
  { intros t Ht. apply Hentry. by apply Hsub. }
  assert (Hold : forall l', l' < lg -> heap s2 !! l' = heap s !! l').
  { intros l' Hl'. rewrite Hframe2 by lia. by apply lookup_alloc. }
  set (a' := TimeDependentAD.assign_Adj (Nt_at m) (Lt_at self m) (Lt_at self m)
               (self_attrs s)).
  exists (set_attrs a' s2).
  split; [|split; [done|split; [|split]]].
  - unfold TimeDependentAD.solveAdj.
    rewrite (bind_Ok _ _ s (Some lg) s1) by done.
    fold misfit. rewrite (bind_Ok _ _ _ _ _ Hgrad).
    erewrite bind_Ok; last first.
    { eapply define_Adj_solver_Ok; [done|].
      apply vector_of_lookup. exists lm. split; [done|]. by rewrite Hold. }
    rewrite Ha2. change (self_attrs s1) with (self_attrs s). fold a'.
    erewrite bind_Ok; last first.
    { apply (zero_container _ lo cout). simpl. by rewrite Hold. }
    rewrite Hgo.
    rewrite <- (app_nil_r ((fun _ => vzero) <$> data cout)).
    erewrite bind_Ok; last first.
    { apply (march_back_loop _ (set_attrs a' s2) lo g
               (adjoint_step self (Lt_at self m) gs)
               ltac:(simpl; rewrite Hlen2; simpl; rewrite length_app; simpl; lia)
               Hnd g [] ((fun _ => vzero) <$> data cout) [] vzero).
      - by rewrite app_nil_r.
      - rewrite length_fmap. by rewrite Hwfo, Hgo.
      - intros t pold D' Ht.
        erewrite bind_Ok; last first.
        { apply snapshot_retrieve.
          rewrite snapshot_with_data_ne by (intros [= Heq]; lia).
          instantiate (1 := gs t).
          change (snapshot (set_attrs a' s2) (Some lg) t)
            with (snapshot s2 (Some lg) t).
          unfold gs, grad_state_at. destruct (decide (t ∈ _)) as [Hin|Hnin].
          - by apply Hhit.
          - apply Hmiss; [done|]. by apply Hentry. }
        erewrite bind_Ok; [|by apply solvert_solve_Ok]. done. }
    by rewrite !app_nil_r.
  - simpl. rewrite Hlen2. unfold s1. simpl. rewrite length_app. simpl. lia.
  - intros l' Hl'. simpl. by apply Hold.
  - intros t Ht.
    change (snapshot (set_attrs a' s2) (Some lg) t) with (snapshot s2 (Some lg) t).
    unfold gs, grad_state_at. destruct (decide (t ∈ _)) as [Hin|Hnin].
    + by apply Hhit.
    + apply Hmiss; [done|]. by apply Hentry.
Qed.

Lemma init_vector_Ok lg w s :
  heap s !! lg = Some (PyVector w) ->
  TimeDependentAD.init_vector (Some lg) s = Ok (tt, with_vector s lg vzero).
Proof.
  intros H. unfold TimeDependentAD.init_vector.
  by rewrite (bind_Ok _ _ _ _ _ (deref_Ok _ _ _ H)).
Qed.

(** The state [updategrade] ends in: two copies have been allocated and
    the output vector holds [misfit_gradient]. *)
Lemma updategrade_run lout ls la lm (x : list ref) cst ca m w
    (u p : scalar -> vec) s :
  heap s !! lout = Some (PyVector w) ->
  x !! Z.to_nat STATE = Some (Some ls) -> heap s !! ls = Some (PyTDV cst) ->
  x !! Z.to_nat ADJOINT = Some (Some la) -> heap s !! la = Some (PyTDV ca) ->
  x !! Z.to_nat PARAMETER = Some (Some lm) -> heap s !! lm = Some (PyVector m) ->
  (forall t, t ∈ drop 1 g -> tdv_retrieve cst t = Ok (u t)) ->
  (forall t, t ∈ drop 1 g -> tdv_retrieve ca t = Ok (p t)) ->
  TimeDependentAD.updategrade self (Some lout) x s
  = Ok (tt, with_vector
              (set_heap ((heap s ++ [PyTDV cst]) ++ [PyTDV ca]) s)
              lout (misfit_gradient self m u p)).
Proof.
  intros Hout Hxs Hst Hxa Hca Hxm Hm Hu Hp.
  assert (Hlout : lout < length (heap s)) by by eapply lookup_lt_Some.
  assert (Hls : ls < length (heap s)) by by eapply lookup_lt_Some.
  assert (Hla : la < length (heap s)) by by eapply lookup_lt_Some.
  unfold TimeDependentAD.updategrade.
  rewrite (bind_Ok _ _ _ _ _ (getitem_Ok _ _ _ _ Hxm)).
  rewrite (bind_Ok _ _ _ _ _ (vector_get_Ok _ _ _ Hm)).
  rewrite (bind_Ok _ _ _ _ _ (getitem_Ok _ _ _ _ Hxs)).
  rewrite (bind_Ok _ _ _ _ _ (copy_Ok _ _ _ Hst)).
  rewrite (bind_Ok _ _ _ _ _ (getitem_Ok _ _ _ _ Hxa)).
  erewrite bind_Ok; last first.
  { apply (copy_Ok la (PyTDV ca)). simpl. by rewrite lookup_app_l. }
  simpl.
  set (S2 := set_heap ((heap s ++ [PyTDV cst]) ++ [PyTDV ca]) s).
  assert (Hlen2 : length (heap S2) = S (S (length (heap s)))).
  { unfold S2. simpl. rewrite !length_app. simpl. lia. }
  assert (Hu2 : heap S2 !! length (heap s) = Some (PyTDV cst)).
  { unfold S2. simpl. rewrite lookup_app_l by (rewrite length_app; simpl; lia).
    rewrite lookup_app_r by done. by rewrite Nat.sub_diag. }
  assert (Hp2 : heap S2 !! length (heap s ++ [PyTDV cst]) = Some (PyTDV ca)).
  { unfold S2. simpl. rewrite lookup_app_r by done. by rewrite Nat.sub_diag. }
  erewrite bind_Ok; last first.
  { apply (zero_vector S2 lout w). unfold S2. simpl.
    rewrite !lookup_app_l; [done|lia|rewrite length_app; simpl; lia]. }
  erewrite bind_Ok; last first.
  { apply (accumulate_loop _ S2 lout
             (fun t => parameter_derivative m (u t) (p t))); [lia|].
    intros t v Ht.
    erewrite bind_Ok; last first.
    { eapply retrieve_Ok; [|by apply Hu].
      rewrite lookup_with_vector_ne by lia. exact Hu2. }
    erewrite bind_Ok; last first.
    { eapply retrieve_Ok; [|by apply Hp].
      rewrite lookup_with_vector_ne by (rewrite length_app; simpl; lia).
      exact Hp2. }
    done. }
  rewrite imul_with_vector by lia. done.
Qed.

(** The result of [evalGradientParameter] and the state it ends in. *)
Lemma evalGradientParameter_run lg ls la lm (x : list ref) cst ca m w
    (u p : scalar -> vec) (misfit_only : bool) s :
  heap s !! lg = Some (PyVector w) -> lm <> lg ->
  x !! Z.to_nat STATE = Some (Some ls) -> heap s !! ls = Some (PyTDV cst) ->
  x !! Z.to_nat ADJOINT = Some (Some la) -> heap s !! la = Some (PyTDV ca) ->
  x !! Z.to_nat PARAMETER = Some (Some lm) -> heap s !! lm = Some (PyVector m) ->
  (forall t, t ∈ drop 1 g -> tdv_retrieve cst t = Ok (u t)) ->
  (forall t, t ∈ drop 1 g -> tdv_retrieve ca t = Ok (p t)) ->
  exists s',
    TimeDependentAD.evalGradientParameter self x (Some lg) misfit_only s
    = Ok (inner (Msolver_solve (TimeDependentAD.prior self)
                   (reduced_gradient self m u p misfit_only))
                (reduced_gradient self m u p misfit_only), s')
    /\ vector_of s' (Some lg) = Some (reduced_gradient self m u p misfit_only)
    /\ self_attrs s' = self_attrs s
    /\ (forall l', l' < length (heap s) -> l' <> lg ->
          heap s' !! l' = heap s !! l').
Proof.
  intros Hg Hne Hxs Hst Hxa Hca Hxm Hm Hu Hp.
  assert (Hlg : lg < length (heap s)) by by eapply lookup_lt_Some.
  assert (Hls : ls < length (heap s)) by by eapply lookup_lt_Some.
  assert (Hla : la < length (heap s)) by by eapply lookup_lt_Some.
  assert (Hlm : lm < length (heap s)) by by eapply lookup_lt_Some.
  assert (lg <> ls) as Hgs by (intros ->; congruence).
  assert (lg <> la) as Hga by (intros ->; congruence).
  set (reg := regularization_gradient self m misfit_only).
  set (S1 := with_vector s lg reg).
  assert (Hreg :
    (if bool_decide (misfit_only = false)
     then xm <- getitem x PARAMETER ;;
          m0 <- vector_get xm ;;
          (let detm := vsub m0 (mean (TimeDependentAD.prior self)) in
           lo <- deref (Some lg) ;;
           match lo.2 with
           | PyVector _ =>
               assign lo.1
                 (PyVector (R_mult (TimeDependentAD.prior self) detm))
           | PyTDV _ => raise TypeError
           end)
     else zero (Some lg)) (with_vector s lg vzero) = Ok (tt, S1)).
  { unfold S1, reg, regularization_gradient. destruct misfit_only; simpl.
    - rewrite (zero_vector _ lg vzero) by by apply lookup_with_vector_eq.
      by rewrite with_vector_with_vector.
    - rewrite (bind_Ok _ _ _ _ _ (getitem_Ok _ _ _ _ Hxm)).
      erewrite bind_Ok; last first.
      { apply (vector_get_Ok lm m). by rewrite lookup_with_vector_ne. }
      erewrite bind_Ok; last first.
      { apply (deref_Ok lg (PyVector vzero)). by apply lookup_with_vector_eq. }
      simpl. unfold assign. simpl. f_equal. f_equal.
      unfold with_vector, set_heap. simpl. by rewrite list_insert_insert_eq. }
  set (l1 := length (heap s)).
  set (S2 := set_heap (heap S1 ++ [PyVector vzero]) S1).
  assert (Hlen1 : length (heap S1) = l1) by apply length_heap_with_vector.
  assert (H1 : heap S2 !! l1 = Some (PyVector vzero)).
  { unfold S2. simpl. rewrite lookup_app_r by (rewrite length_insert; done).
    rewrite length_insert. by rewrite Nat.sub_diag. }
  assert (Hold2 : forall l' o, l' <> lg -> heap s !! l' = Some o ->
                               heap S2 !! l' = Some o).
  { intros l' o Hl' Ho. unfold S2. simpl.
    rewrite lookup_app_l by (rewrite length_insert; by eapply lookup_lt_Some).
    by rewrite list_lookup_insert_ne. }
  set (G1 := misfit_gradient self m u p).
  set (S3 := with_vector
               (set_heap ((heap S2 ++ [PyTDV cst]) ++ [PyTDV ca]) S2) l1 G1).
  assert (Hupd : TimeDependentAD.updategrade self (Some l1) x S2 = Ok (tt, S3)).
  { eapply updategrade_run; eauto. }
  assert (Hg3 : heap S3 !! lg = Some (PyVector reg)).
  { unfold S3. rewrite lookup_with_vector_ne by lia. simpl.
    rewrite !lookup_app_l.
    - by apply list_lookup_insert_eq.
    - by rewrite length_insert.
    - rewrite length_app, length_insert. simpl. lia.
    - rewrite !length_app, length_insert. simpl. lia. }
  set (G := reduced_gradient self m u p misfit_only).
  exists (with_vector S3 lg G).
  split; [|split; [|split]].
  - unfold TimeDependentAD.evalGradientParameter.
    rewrite (bind_Ok _ _ _ _ _ (init_vector_Ok _ _ _ Hg)).
    rewrite (bind_Ok _ _ _ _ _ Hreg).
    rewrite (bind_Ok _ _ S1 (Some l1) S2) by (by rewrite <- Hlen1).
    rewrite (bind_Ok _ _ _ _ _ Hupd).
    erewrite bind_Ok; last first.
    { apply (vector_get_Ok l1 G1). unfold S3. apply lookup_with_vector_eq.
      simpl. rewrite !length_app, length_insert. simpl. lia. }
    rewrite (bind_Ok _ _ _ _ _ (vector_axpy_Ok _ _ _ _ _ Hg3)).
    erewrite bind_Ok; last first.
    { apply (vector_get_Ok lg G). simpl. apply list_lookup_insert_eq.
      rewrite length_insert. simpl. rewrite !length_app, length_insert.
      simpl. lia. }
    done.
  - apply vector_of_with_vector_eq. unfold S3.
    rewrite length_heap_with_vector. simpl.
    rewrite !length_app, length_insert. simpl. lia.
  - done.
  - intros l' Hl' Hne'. rewrite lookup_with_vector_ne by done.
    unfold S3. rewrite lookup_with_vector_ne by lia. simpl.
    rewrite !lookup_app_l.
    + by rewrite list_lookup_insert_ne.
    + by rewrite length_insert.
    + rewrite length_app, length_insert. simpl. lia.
    + rewrite !length_app, length_insert. simpl. lia.
Qed.

(** ** The model's block dispatcher *)

Lemma self_x_Ok s : TimeDependentAD.self_x s = Ok (attr_x (self_attrs s), s).
Proof. done. Qed.

Lemma snapshots_Ok ls lm la m (u p : scalar -> vec) t s :
  linearization_point self s ls lm la m u p -> t ∈ drop 1 g ->
  TimeDependentAD.snapshots t s = Ok ((u t, p t), s).
Proof.
  intros (Hx & Hm & cst & ca & Hst & Hca & Hup) Ht.
  destruct (Hup t Ht) as [Hu Hp].
  unfold TimeDependentAD.snapshots.
  rewrite (bind_Ok _ _ _ _ _ (self_x_Ok s)). rewrite Hx.
  rewrite (bind_Ok _ _ s (Some ls) s) by done.
  rewrite (bind_Ok _ _ _ _ _ (retrieve_Ok _ _ _ _ _ Hst Hu)).
  rewrite (bind_Ok _ _ _ _ _ (self_x_Ok s)). rewrite Hx.
  rewrite (bind_Ok _ _ s (Some la) s) by done.
  rewrite (bind_Ok _ _ _ _ _ (retrieve_Ok _ _ _ _ _ Hca Hp)).
  done.
Qed.

Lemma linearization_point_with_data ls lm la m (u p : scalar -> vec) s lo g' D :
  linearization_point self s ls lm la m u p ->
  lo <> ls -> lo <> la -> lo <> lm ->
  linearization_point self (with_data s lo g' D) ls lm la m u p.
Proof.
  intros (Hx & Hm & cst & ca & Hst & Hca & Hup) H1 H2 H3.
  split; [done|]. split; [by rewrite lookup_with_data_ne|].
  exists cst, ca. by rewrite !lookup_with_data_ne.
Qed.

Lemma linearization_point_with_vector ls lm la m (u p : scalar -> vec) s lo v :
  linearization_point self s ls lm la m u p ->
  lo <> ls -> lo <> la -> lo <> lm ->
  linearization_point self (with_vector s lo v) ls lm la m u p.
Proof.
  intros (Hx & Hm & cst & ca & Hst & Hca & Hup) H1 H2 H3.
  split; [done|]. split; [by rewrite lookup_with_vector_ne|].
  exists cst, ca. by rewrite !lookup_with_vector_ne.
Qed.

Ltac decide_block :=
  repeat first
    [ rewrite bool_decide_eq_true_2 by (split; reflexivity)
    | rewrite bool_decide_eq_false_2 by (intros [? ?]; discriminate) ];
  cbn [negb].

(** The time-indexed blocks [(STATE, PARAMETER)] and
    [(ADJOINT, PARAMETER)]. *)
Lemma apply_ij_time_indexed (i : Z) (c2 : coefficient) lo ls lm la ldir
    cout m dir (u p : scalar -> vec) s :
  (i = STATE /\ c2 = wrt_u) \/ (i = ADJOINT /\ c2 = wrt_p) ->
  linearization_point self s ls lm la m u p ->
  heap s !! lo = Some (PyTDV cout) -> times cout = g -> tdv_wf cout ->
  lo <> ls -> lo <> la ->
  heap s !! ldir = Some (PyVector dir) ->
  NoDup g -> g <> [] ->
  TimeDependentAD.apply_ij self i PARAMETER (Some ldir) (Some lo) s
  = Ok (tt, with_data s lo g
              (stored g (time_indexed_block self c2 m u p dir) (drop 1 g)
                 ((fun _ => vzero) <$> data cout))).
Proof.
  intros Hi Hlp Hout Hgo Hwf Hos Hoa Hdir Hnd Hne.
  assert (Hlo : lo < length (heap s)) by by eapply lookup_lt_Some.
  pose proof Hlp as (Hx & Hm & _).
  assert (lo <> lm) as Hom by (intros ->; congruence).
  assert (lo <> ldir) as Hod by (intros ->; congruence).
  unfold TimeDependentAD.apply_ij, TimeDependentAD.first_time.
  rewrite (bind_Ok _ _ _ _ _ (zero_container _ _ _ Hout)). rewrite Hgo.
  unfold tdv_wf in Hwf. rewrite Hgo in Hwf.
  destruct g as [|t0 q] eqn:Eg; [done|].
  destruct (zeros_cons (data cout) (length q) Hwf) as (Z & HZ & HlenZ).
  rewrite HZ.
  assert (Hbody : forall t D', t ∈ q ->
    (up <- TimeDependentAD.snapshots t ;;
     dir0 <- vector_get (Some ldir) ;;
     store (Some lo)
       (vscale (TimeDependentAD.dt self)
          (TimeDependentAD.second_variation 1%Z (Function up.1) (Function m)
             (Function up.2) wrt_m c2 dir0)) t)
      (with_data s lo (t0 :: q) D')
    = store (Some lo) (time_indexed_block self c2 m u p dir t) t
        (with_data s lo (t0 :: q) D')).
  { intros t D' Ht.
    erewrite bind_Ok; last first.
    { eapply snapshots_Ok; [|by rewrite Eg].
      by apply linearization_point_with_data. }
    erewrite bind_Ok; last first.
    { apply (vector_get_Ok ldir dir). by rewrite lookup_with_data_ne. }
    done. }
  assert (Hidx : forall t, t ∈ q ->
    exists k, grid_index (t0 :: q) t = Some k /\ k < length (vzero :: Z)).
  { intros t Ht. destruct (position_elem (t0 :: q) t) as [k Hk]; [by right|].
    exists k. rewrite grid_index_position. split; [done|].
    simpl. rewrite HlenZ. by apply position_lt in Hk. }
  destruct Hi as [[-> ->]|[-> ->]]; decide_block.
  - rewrite (bind_Ok _ _ _ _ _ (self_x_Ok _)). simpl. rewrite Hx.
    rewrite (bind_Ok _ _ _ (Some lm) _) by done.
    erewrite bind_Ok; last first.
    { apply (vector_get_Ok lm m). by rewrite lookup_with_data_ne. }
    decide_block. simpl. rewrite bind_ret.
    erewrite bind_Ok; last first.
    { apply (store_with_data _ _ _ _ _ _ 0); [done| |simpl; lia].
      simpl. by rewrite decide_True. }
    simpl.
    rewrite (store_loop _ s lo (t0 :: q) (time_indexed_block self wrt_u m u p dir));
      [done|done|by apply Hidx|].
    intros t D' Ht _. by apply Hbody.
  - rewrite (bind_Ok _ _ _ _ _ (self_x_Ok _)). simpl. rewrite Hx.
    rewrite (bind_Ok _ _ _ (Some lm) _) by done.
    erewrite bind_Ok; last first.
    { apply (vector_get_Ok lm m). by rewrite lookup_with_data_ne. }
    decide_block. simpl. rewrite bind_ret.
    erewrite bind_Ok; last first.
    { apply (store_with_data _ _ _ _ _ _ 0); [done| |simpl; lia].
      simpl. by rewrite decide_True. }
    simpl.
    rewrite (store_loop _ s lo (t0 :: q) (time_indexed_block self wrt_p m u p dir));
      [done|done|by apply Hidx|].
    intros t D' Ht _. by apply Hbody.
Qed.

(** The block [(PARAMETER, PARAMETER)]. *)
Lemma apply_ij_PP lo ls lm la ldir w m dir (u p : scalar -> vec) s :
  linearization_point self s ls lm la m u p ->
  heap s !! lo = Some (PyVector w) -> lo <> lm -> lo <> ldir ->
  heap s !! ldir = Some (PyVector dir) ->
  TimeDependentAD.apply_ij self PARAMETER PARAMETER (Some ldir) (Some lo) s
  = Ok (tt, with_vector s lo (accumulated_block self wrt_m m u p (fun _ => dir))).
Proof.
  intros Hlp Hout Hom Hod Hdir.
  assert (Hlo : lo < length (heap s)) by by eapply lookup_lt_Some.
  pose proof Hlp as (Hx & Hm & cst & ca & Hst & Hca & _).
  assert (lo <> ls) as Hos by (intros ->; congruence).
  assert (lo <> la) as Hoa by (intros ->; congruence).
  unfold TimeDependentAD.apply_ij.
  rewrite (bind_Ok _ _ _ _ _ (zero_vector _ _ _ Hout)).
  decide_block.
  rewrite (bind_Ok _ _ _ _ _ (self_x_Ok _)). simpl. rewrite Hx.
  rewrite (bind_Ok _ _ _ (Some lm) _) by done.
  erewrite bind_Ok; last first.
  { apply (vector_get_Ok lm m). by rewrite lookup_with_vector_ne. }
  decide_block.
  erewrite bind_Ok; last first.
  { apply (accumulate_loop _ s lo
      (fun t => TimeDependentAD.second_variation 1%Z (Function (u t))
                  (Function m) (Function (p t)) wrt_m wrt_m dir)); [done|].
    intros t v Ht.
    erewrite bind_Ok; last first.
    { eapply snapshots_Ok; [|done]. by apply linearization_point_with_vector. }
    erewrite bind_Ok; last first.
    { apply (vector_get_Ok ldir dir). by rewrite lookup_with_vector_ne. }
    done. }
  by rewrite imul_with_vector.
Qed.

(** The blocks [(PARAMETER, ADJOINT)] and [(PARAMETER, STATE)], whose
    direction is a container. *)
Lemma apply_ij_P_row (j : Z) (c1 : coefficient) lo ls lm la ldir w cdir m
    (u p dirs : scalar -> vec) s :
  (j = ADJOINT /\ c1 = wrt_p) \/ (j = STATE /\ c1 = wrt_u) ->
  linearization_point self s ls lm la m u p ->
  heap s !! lo = Some (PyVector w) -> lo <> lm ->
  heap s !! ldir = Some (PyTDV cdir) ->
  (forall t, t ∈ drop 1 g -> tdv_retrieve cdir t = Ok (dirs t)) ->
  TimeDependentAD.apply_ij self PARAMETER j (Some ldir) (Some lo) s
  = Ok (tt, with_vector s lo (accumulated_block self c1 m u p dirs)).
Proof.
  intros Hj Hlp Hout Hom Hdir Hdirs.
  assert (Hlo : lo < length (heap s)) by by eapply lookup_lt_Some.
  pose proof Hlp as (Hx & Hm & cst & ca & Hst & Hca & _).
  assert (lo <> ls) as Hos by (intros ->; congruence).
  assert (lo <> la) as Hoa by (intros ->; congruence).
  assert (lo <> ldir) as Hod by (intros ->; congruence).
  unfold TimeDependentAD.apply_ij.
  rewrite (bind_Ok _ _ _ _ _ (zero_vector _ _ _ Hout)).
  assert (Hbody : forall t v, t ∈ drop 1 g ->
    (dpt <- retrieve (Some ldir) t ;;
     up <- TimeDependentAD.snapshots t ;;
     iadd (Some lo)
       (TimeDependentAD.second_variation 1%Z (Function up.1) (Function m)
          (Function up.2) c1 wrt_m dpt)) (with_vector s lo v)
    = iadd (Some lo)
        (TimeDependentAD.second_variation 1%Z (Function (u t)) (Function m)
           (Function (p t)) c1 wrt_m (dirs t)) (with_vector s lo v)).
  { intros t v Ht.
    erewrite bind_Ok; last first.
    { eapply retrieve_Ok; [|by apply Hdirs]. by rewrite lookup_with_vector_ne. }
    erewrite bind_Ok; last first.
    { eapply snapshots_Ok; [|done]. by apply linearization_point_with_vector. }
    done. }
  destruct Hj as [[-> ->]|[-> ->]]; decide_block.
  - rewrite (bind_Ok _ _ _ _ _ (self_x_Ok _)). simpl. rewrite Hx.
    rewrite (bind_Ok _ _ _ (Some lm) _) by done.
    erewrite bind_Ok; last first.
    { apply (vector_get_Ok lm m). by rewrite lookup_with_vector_ne. }
    decide_block.
    erewrite bind_Ok; last first.
    { apply (accumulate_loop _ s lo
        (fun t => TimeDependentAD.second_variation 1%Z (Function (u t))
                    (Function m) (Function (p t)) wrt_p wrt_m (dirs t))); [done|].
      intros t v Ht. by apply Hbody. }
    by rewrite imul_with_vector.
  - rewrite (bind_Ok _ _ _ _ _ (self_x_Ok _)). simpl. rewrite Hx.
    rewrite (bind_Ok _ _ _ (Some lm) _) by done.
    erewrite bind_Ok; last first.
    { apply (vector_get_Ok lm m). by rewrite lookup_with_vector_ne. }
    decide_block.
    erewrite bind_Ok; last first.
    { apply (accumulate_loop _ s lo
        (fun t => TimeDependentAD.second_variation 1%Z (Function (u t))
                    (Function m) (Function (p t)) wrt_u wrt_m (dirs t))); [done|].
      intros t v Ht. by apply Hbody. }
    by rewrite imul_with_vector.
Qed.

(** A parameter-row block called with a container as output stops at
    the first [out += myout]. *)
Lemma apply_ij_P_row_container (j : Z) lo ls lm la ldir cout cdir m
    (u p dirs : scalar -> vec) t1 q s :
  j = ADJOINT \/ j = STATE ->
  linearization_point self s ls lm la m u p ->
  heap s !! lo = Some (PyTDV cout) -> lo <> ls -> lo <> la -> lo <> ldir ->
  heap s !! ldir = Some (PyTDV cdir) ->
  drop 1 g = t1 :: q ->
  tdv_retrieve cdir t1 = Ok (dirs t1) ->
  TimeDependentAD.apply_ij self PARAMETER j (Some ldir) (Some lo) s
  = Raise TypeError.
Proof.
  intros Hj Hlp Hout Hos Hoa Hod Hdir Hg Hdirs.
  pose proof Hlp as (Hx & Hm & _).
  assert (lo <> lm) as Hom by (intros ->; congruence).
  assert (Hlo : lo < length (heap s)) by by eapply lookup_lt_Some.
  unfold TimeDependentAD.apply_ij.
  rewrite (bind_Ok _ _ _ _ _ (zero_container _ _ _ Hout)).
  assert (Hfirst : forall c1 : coefficient,
    (dpt <- retrieve (Some ldir) t1 ;;
     up <- TimeDependentAD.snapshots t1 ;;
     iadd (Some lo)
       (TimeDependentAD.second_variation 1%Z (Function up.1) (Function m)
          (Function up.2) c1 wrt_m dpt))
      (with_data s lo (times cout) ((fun _ => vzero) <$> data cout))
    = Raise TypeError).
  { intros c1.
    erewrite bind_Ok; last first.
    { eapply retrieve_Ok; [|done]. by rewrite lookup_with_data_ne. }
    erewrite bind_Ok; last first.
    { eapply snapshots_Ok; [|rewrite Hg; by left].
      by apply linearization_point_with_data. }
    eapply iadd_container. by apply lookup_with_data_eq. }
  destruct Hj as [->| ->]; decide_block.
  - rewrite (bind_Ok _ _ _ _ _ (self_x_Ok _)). simpl. rewrite Hx.
    rewrite (bind_Ok _ _ _ (Some lm) _) by done.
    erewrite bind_Ok; last first.
    { apply (vector_get_Ok lm m). by rewrite lookup_with_data_ne. }
    decide_block. rewrite Hg.
    apply bind_Raise. rewrite for_each_cons. by apply bind_Raise.
  - rewrite (bind_Ok _ _ _ _ _ (self_x_Ok _)). simpl. rewrite Hx.
    rewrite (bind_Ok _ _ _ (Some lm) _) by done.
    erewrite bind_Ok; last first.
    { apply (vector_get_Ok lm m). by rewrite lookup_with_data_ne. }
    decide_block. rewrite Hg.
    apply bind_Raise. rewrite for_each_cons. by apply bind_Raise.
Qed.

(** Every pair without a branch, state-state included: the output is
    zeroed, and for a pair other than state-state the parameter of the
    linearization point is read. *)
Lemma apply_ij_unhandled (i j : Z) (direction : ref) lo lm o m (xs xa : ref) s :
  ~ handled_block i j ->
  heap s !! lo = Some o ->
  attr_x (self_attrs s) = [xs; Some lm; xa] ->
  heap s !! lm = Some (PyVector m) ->
  TimeDependentAD.apply_ij self i j direction (Some lo) s
  = Ok (tt, set_heap (<[lo := zero_obj o]> (heap s)) s).
Proof.
  intros Hij Hout Hx Hm. unfold handled_block in Hij.
  unfold TimeDependentAD.apply_ij.
  rewrite (bind_Ok _ _ _ _ _ (zero_Ok _ _ _ Hout)).
  destruct (bool_decide (i = STATE /\ j = STATE)); [done|]. cbn [negb].
  rewrite (bind_Ok _ _ _ _ _ (self_x_Ok _)). simpl. rewrite Hx.
  rewrite (bind_Ok _ _ _ (Some lm) _) by done.
  assert (exists m', <[lo := zero_obj o]> (heap s) !! lm = Some (PyVector m'))
    as [m' Hm'].
  { destruct (decide (lo = lm)) as [->|Hne].
    - rewrite Hout in Hm. injection Hm as ->. exists vzero.
      apply list_lookup_insert_eq. by eapply lookup_lt_Some.
    - exists m. by rewrite list_lookup_insert_ne. }
  erewrite bind_Ok; last first.
  { by apply (vector_get_Ok lm m'). }
  rewrite !bool_decide_eq_false_2; [done|tauto..].
Qed.

(** The containers [generate_vector] creates are well formed and lie
    over the simulation grid, as the claims about the time loops ask of
    the containers they are given. *)
Lemma generate_vector_STATE s :
  TimeDependentAD.generate_vector self (TimeDependentAD.Tag STATE) s
  = Ok (TimeDependentAD.Single (Some (length (heap s))),
        set_heap (heap s ++ [PyTDV (tdv_new g)]) s)
  /\ times (tdv_new g) = g /\ tdv_wf (tdv_new g).
Proof. split; [done|]. split; [done|]. apply tdv_new_wf. Qed.

End ModelLoops.

Lemma snapshot_history s l g D k t :
  l < length (heap s) -> NoDup g -> g !! k = Some t ->
  snapshot (with_data s l g D) (Some l) t = D !! k.
Proof.
  intros Hl Hnd Hk. apply snapshot_with_data_eq; [done|].
  rewrite grid_index_position. by apply position_NoDup.
Qed.

(** ** The claims *)

Section Claims.
Variable self : Model.
Local Abbreviation g := (TimeDependentAD.simulation_times self).
Local Abbreviation M_stab := (TimeDependentAD.M_stab self).
Local Abbreviation Mt_stab := (TimeDependentAD.Mt_stab self).

(** C9.  [solveFwdIncremental(sol, rhs)], called with a solution
    container [sol] over the simulation grid, a right-hand side [rhs]
    (another container, holding [r t] at every simulation time [t] after
    the first) and the forward solver set up for the operator [L], which
    the LU solver inverts: it returns normally, leaves the solver and
    every object other than [sol] as they were, stores the zero vector at
    the first simulation time, and at each later time [t] stores an
    increment [du] with [L du = M_stab duprev - r t], [duprev] being the
    increment stored at the time before [t]. *)
Theorem solveFwdIncremental_recurrence
    (lsol : nat) (rhs : ref) (c : TimeDependentVector) (L : op)
    (r : scalar -> vec) (s : state) :
  heap s !! lsol = Some (PyTDV c) -> times c = g -> tdv_wf c ->
  NoDup g -> g <> [] ->
  rhs <> Some lsol ->
  attr_solver (self_attrs s) = Some L ->
  (forall t, t ∈ drop 1 g -> snapshot s rhs t = Some (r t)) ->
  (forall b, op_mult L (lu_solve L b) = b) ->
  exists s',
    TimeDependentAD.solveFwdIncremental self (Some lsol) rhs s = Ok (tt, s')
    /\ self_attrs s' = self_attrs s
    /\ (forall l', l' <> lsol -> heap s' !! l' = heap s !! l')
    /\ (forall t0, g !! 0 = Some t0 -> snapshot s' (Some lsol) t0 = Some vzero)
    /\ (forall k tprev t, g !! k = Some tprev -> g !! S k = Some t ->
          exists duprev du,
            snapshot s' (Some lsol) tprev = Some duprev
            /\ snapshot s' (Some lsol) t = Some du
            /\ du = lu_solve L (axpy (lit (-1)%Z) (r t) (op_mult M_stab duprev))
            /\ op_mult L du = axpy (lit (-1)%Z) (r t) (op_mult M_stab duprev)).
Proof.
  intros Hc Hg Hwf Hnd Hne Hrhs HL Hr Hsolve.
  assert (Hl : lsol < length (heap s)) by by eapply lookup_lt_Some.
  eexists. split; [by eapply solveFwdIncremental_run|].
  split; [done|]. split; [by intros l' Hl'; apply lookup_with_data_ne|].
  split.
  - intros t0 H0. by rewrite (snapshot_history _ _ _ _ 0 t0).
  - intros k tprev t Hk HSk.
    rewrite (snapshot_history _ _ _ _ k tprev), (snapshot_history _ _ _ _ (S k) t)
      by done.
    destruct g as [|t0 q] eqn:Eg; [done|]. simpl in HSk.
    change (drop 1 (t0 :: q)) with q.
    destruct (march_step (incremental_step self L r) vzero q k t HSk)
      as (uprev & H1 & H2).
    exists uprev, (incremental_step self L r t uprev).
    split; [done|]. split; [done|]. split; [done|]. apply Hsolve.
Qed.

(** C3.  [solveFwd(out, x)], called with an output container and a state
    container [x[STATE]] over the simulation grid (they may be the same
    object), a parameter vector [m = x[PARAMETER]], a duplicate-free grid
    whose first time is [0], and an LU solver that inverts
    [L = M + dt * N(m) + stab]: it returns normally; it has assigned
    [self.N = N(m)], [self.L = L] and given [L] to [self.solver]; the
    state container holds the initial condition at time [0]; and at each
    simulation time [t] after the first the output holds [u] with
    [L u = M_stab uprev], where [uprev] is the entry at the time before
    [t] (read from the state container for the first step, where it is
    the initial condition, and from the output afterwards).  When the
    output is the state container, that one container holds an entry at
    every simulation time. *)
Theorem solveFwd_marches_forward
    (lo ls : nat) (x : list ref) (xm : ref)
    (cout cst : TimeDependentVector) (m : vec) (s : state) :
  heap s !! lo = Some (PyTDV cout) -> times cout = g -> tdv_wf cout ->
  x !! Z.to_nat STATE = Some (Some ls) ->
  heap s !! ls = Some (PyTDV cst) -> times cst = g -> tdv_wf cst ->
  x !! Z.to_nat PARAMETER = Some xm -> vector_of s xm = Some m ->
  NoDup g -> g !! 0 = Some (lit 0%Z) ->
  (forall b, op_mult (L_at self m) (lu_solve (L_at self m) b) = b) ->
  exists s',
    TimeDependentAD.solveFwd self (Some lo) x s = Ok (tt, s')
    /\ attr_N (self_attrs s') = Some (N_at m)
    /\ attr_L (self_attrs s') = Some (L_at self m)
    /\ attr_solver (self_attrs s') = Some (L_at self m)
    /\ snapshot s' (Some ls) (lit 0%Z) = Some (TimeDependentAD.ic self)
    /\ (forall k tprev t, g !! k = Some tprev -> g !! S k = Some t ->
          exists uprev u,
            snapshot s' (if decide (k = 0) then Some ls else Some lo) tprev
            = Some uprev
            /\ snapshot s' (Some lo) t = Some u
            /\ u = lu_solve (L_at self m) (op_mult M_stab uprev)
            /\ op_mult (L_at self m) u = op_mult M_stab uprev)
    /\ (lo = ls -> forall t, t ∈ g -> is_Some (snapshot s' (Some ls) t)).
Proof.
  intros Hout Hgo Hwfo Hx Hst Hgs Hwfs Hxm Hm Hnd H0 Hsolve.
  assert (Hlo : lo < length (heap s)) by by eapply lookup_lt_Some.
  assert (Hls : ls < length (heap s)) by by eapply lookup_lt_Some.
  eexists. split; [by eapply solveFwd_run|].
  split; [done|]. split; [done|]. split; [done|].
  set (ic := TimeDependentAD.ic self).
  set (F := forward_step self (L_at self m)).
  set (S1 := with_data _ ls g _).
  assert (Hl1 : lo < length (heap S1))
    by (unfold S1; simpl; by rewrite length_insert).
  assert (Hic : snapshot (with_data S1 lo g
                            ((if decide (lo = ls) then ic else vzero)
                             :: march F ic (drop 1 g))) (Some ls) (lit 0%Z)
                = Some ic).
  { destruct (decide (lo = ls)) as [->|Hne].
    - by rewrite (snapshot_history _ _ _ _ 0 (lit 0%Z)).
    - rewrite snapshot_with_data_ne by congruence.
      unfold S1. rewrite (snapshot_history _ _ _ _ 0 (lit 0%Z)) by done.
      apply list_lookup_insert_eq. unfold tdv_wf in Hwfs. rewrite Hwfs, Hgs.
      by eapply lookup_lt_Some. }
  split; [done|]. split.
  - intros k tprev t Hk HSk.
    assert (Hq : drop 1 g !! k = Some t) by by rewrite lookup_drop.
    destruct (march_step F ic (drop 1 g) k t Hq) as (uprev & H1 & H2).
    exists uprev, (F t uprev).
    split; [|split; [|split; [done|apply Hsolve]]].
    + destruct k as [|k].
      * destruct (decide (0 = 0)) as [_|?]; [|done].
        simpl in H1. injection H1 as <-.
        rewrite H0 in Hk. injection Hk as <-. done.
      * destruct (decide (S k = 0)) as [?|_]; [done|].
        by rewrite (snapshot_history _ _ _ _ (S k) tprev).
    + by rewrite (snapshot_history _ _ _ _ (S k) t).
  - intros -> t [k Hk]%list_elem_of_lookup_1.
    rewrite (snapshot_history _ _ _ _ k t) by done.
    apply lookup_lt_is_Some. simpl. rewrite march_length, length_drop.
    apply lookup_lt_Some in Hk. lia.
Qed.

(** C10 (amended).  Under the same conditions on the containers,
    [solveFwd(out, x)] stores the initial condition in [x[STATE]] at time
    [0]; the output holds the forward march at every later simulation
    time; every object other than the output and the state container -
    the parameter and the adjoint among them - is unchanged.  When the
    output is a container other than [x[STATE]], its entry at time [0] is
    the zero it was reset to and [x[STATE]] changes at time [0] only; when
    the output is [x[STATE]] itself, its entry at time [0] is the initial
    condition. *)
Theorem solveFwd_effects
    (lo ls : nat) (x : list ref) (xm : ref)
    (cout cst : TimeDependentVector) (m : vec) (s : state) :
  heap s !! lo = Some (PyTDV cout) -> times cout = g -> tdv_wf cout ->
  x !! Z.to_nat STATE = Some (Some ls) ->
  heap s !! ls = Some (PyTDV cst) -> times cst = g -> tdv_wf cst ->
  x !! Z.to_nat PARAMETER = Some xm -> vector_of s xm = Some m ->
  NoDup g -> g !! 0 = Some (lit 0%Z) ->
  exists s',
    TimeDependentAD.solveFwd self (Some lo) x s = Ok (tt, s')
    /\ snapshot s' (Some ls) (lit 0%Z) = Some (TimeDependentAD.ic self)
    /\ (forall k t, g !! S k = Some t ->
          snapshot s' (Some lo) t
          = march (forward_step self (L_at self m)) (TimeDependentAD.ic self)
              (drop 1 g) !! k)
    /\ (lo <> ls ->
          snapshot s' (Some lo) (lit 0%Z) = Some vzero
          /\ forall t, t <> lit 0%Z ->
               snapshot s' (Some ls) t = snapshot s (Some ls) t)
    /\ (lo = ls ->
          snapshot s' (Some lo) (lit 0%Z) = Some (TimeDependentAD.ic self))
    /\ vector_of s' xm = Some m
    /\ (forall l', l' <> lo -> l' <> ls -> heap s' !! l' = heap s !! l').
Proof.
  intros Hout Hgo Hwfo Hx Hst Hgs Hwfs Hxm Hm Hnd H0.
  assert (Hlo : lo < length (heap s)) by by eapply lookup_lt_Some.
  assert (Hls : ls < length (heap s)) by by eapply lookup_lt_Some.
  eexists. split; [by eapply solveFwd_run|].
  set (ic := TimeDependentAD.ic self).
  set (F := forward_step self (L_at self m)).
  set (S1 := with_data _ ls g _).
  assert (Hl1 : lo < length (heap S1))
    by (unfold S1; simpl; by rewrite length_insert).
  assert (Hls0 : 0 < length (data cst)).
  { unfold tdv_wf in Hwfs. rewrite Hwfs, Hgs. by eapply lookup_lt_Some. }
  split; [|split; [|split; [|split; [|split]]]].
  - destruct (decide (lo = ls)) as [->|Hne].
    + by rewrite (snapshot_history _ _ _ _ 0 (lit 0%Z)).
    + rewrite snapshot_with_data_ne by congruence.
      unfold S1. rewrite (snapshot_history _ _ _ _ 0 (lit 0%Z)) by done.
      by apply list_lookup_insert_eq.
  - intros k t HSk. by rewrite (snapshot_history _ _ _ _ (S k) t).
  - intros Hne. split.
    + rewrite (snapshot_history _ _ _ _ 0 (lit 0%Z)) by done.
      simpl. by rewrite decide_False.
    + intros t Ht. rewrite snapshot_with_data_ne by congruence.
      unfold S1, snapshot. rewrite lookup_with_data_eq by done. rewrite Hst.
      erewrite (tdv_store_retrieve_ne cst _ ic t (lit 0%Z)); [done| |done].
      rewrite <- Hgs. apply tdv_store_index; [|done].
      rewrite Hgs. rewrite grid_index_position. by apply position_NoDup.
  - intros ->. rewrite (snapshot_history _ _ _ _ 0 (lit 0%Z)) by done.
    simpl. by rewrite decide_True.
  - apply vector_of_lookup in Hm as (lm & -> & Hm).
    assert (lo <> lm) by (intros ->; congruence).
    assert (ls <> lm) by (intros ->; congruence).
    apply vector_of_lookup. exists lm. split; [done|].
    rewrite lookup_with_data_ne by done. unfold S1.
    rewrite lookup_with_data_ne by done. exact Hm.
  - intros l' H1 H2. rewrite lookup_with_data_ne by done. unfold S1.
    rewrite lookup_with_data_ne by done. reflexivity.
Qed.

(** C4.  [solveAdj(out, x)], called with an output container over the
    simulation grid, a state history and data with entries [u t], [d t]
    at every observation time, observation times on the simulation grid,
    a nonzero noise variance, a parameter vector
    [m], a duplicate-free grid, an LU solver that inverts
    [Lt = M + dt * Nt(m) + stab], and [Mt_stab] mapping the zero vector
    to zero: it returns normally, having given [Lt] to [self.solvert];
    the allocated state-gradient history holds the misfit's gradient
    [gs t] at every simulation time (what [grad] stores at observation
    times, zero elsewhere); and at every simulation time [t], the first
    included, the output holds [p] with [Lt p = Mt_stab pnext - gs t],
    where [pnext] is the entry at the time after [t], and is zero - so
    that the term [Mt_stab pnext] vanishes - at the final time. *)
Theorem solveAdj_marches_backward
    (lo ls ld lm : nat) (x : list ref)
    (cout cst cd : TimeDependentVector) (m : vec) (nv : scalar)
    (u d : scalar -> vec) (s : state) :
  heap s !! lo = Some (PyTDV cout) -> times cout = g -> tdv_wf cout ->
  x !! Z.to_nat STATE = Some (Some ls) -> heap s !! ls = Some (PyTDV cst) ->
  SpaceTimePointwiseStateObservation.d (TimeDependentAD.misfit self) = Some ld ->
  heap s !! ld = Some (PyTDV cd) ->
  x !! Z.to_nat PARAMETER = Some (Some lm) -> heap s !! lm = Some (PyVector m) ->
  SpaceTimePointwiseStateObservation.noise_variance (TimeDependentAD.misfit self)
  = Some nv ->
  nv <> lit 0%Z ->
  (forall t, t ∈ SpaceTimePointwiseStateObservation.observation_times
                  (TimeDependentAD.misfit self) -> t ∈ g) ->
  (forall t, t ∈ SpaceTimePointwiseStateObservation.observation_times
                  (TimeDependentAD.misfit self) -> tdv_retrieve cst t = Ok (u t)) ->
  (forall t, t ∈ SpaceTimePointwiseStateObservation.observation_times
                  (TimeDependentAD.misfit self) -> tdv_retrieve cd t = Ok (d t)) ->
  NoDup g ->
  (forall b, op_mult (Lt_at self m) (lu_solve (Lt_at self m) b) = b) ->
  op_mult Mt_stab vzero = vzero ->
  exists s',
    TimeDependentAD.solveAdj self (Some lo) x s = Ok (tt, s')
    /\ attr_solvert (self_attrs s') = Some (Lt_at self m)
    /\ attr_Lt (self_attrs s') = Some (Lt_at self m)
    /\ (forall t, t ∈ g ->
          snapshot s' (Some (length (heap s))) t
          = Some (grad_state_at (TimeDependentAD.misfit self) nv u d t))
    /\ (forall k t, g !! k = Some t ->
          exists p pnext,
            snapshot s' (Some lo) t = Some p
            /\ match g !! S k with
               | Some tnext => snapshot s' (Some lo) tnext = Some pnext
               | None => pnext = vzero /\ op_mult Mt_stab pnext = vzero
               end
            /\ op_mult (Lt_at self m) p
               = axpy (lit (-1)%Z)
                   (grad_state_at (TimeDependentAD.misfit self) nv u d t)
                   (op_mult Mt_stab pnext)).
Proof.
  intros Hout Hgo Hwfo Hx Hst Hd Hcd Hxm Hm Hnv Hnz Hsub Hu Hdd Hnd Hsolve Hlin.
  assert (Hlo : lo < length (heap s)) by by eapply lookup_lt_Some.
  destruct (solveAdj_run self lo ls ld lm x cout cst cd m nv u d s)
    as (s3 & Hrun & Ha3 & Hlen3 & Hold & Hgs); try done.
  eexists. split; [exact Hrun|].
  split; [by rewrite attrs_with_data, Ha3|].
  split; [by rewrite attrs_with_data, Ha3|].
  assert (Hl3 : lo < length (heap s3)) by lia.
  set (F := adjoint_step self (Lt_at self m) _) in *.
  split.
  - intros t Ht. rewrite snapshot_with_data_ne by (intros [= Heq]; lia).
    by apply Hgs.
  - intros k t Hk.
    exists (F t (default vzero (march_back F vzero g !! S k))),
           (default vzero (march_back F vzero g !! S k)).
    split; [|split].
    + rewrite (snapshot_history _ _ _ _ k t) by done.
      by apply march_back_step.
    + destruct (g !! S k) as [tnext|] eqn:E.
      * rewrite (snapshot_history _ _ _ _ (S k) tnext) by done.
        destruct (lookup_lt_is_Some_2 (march_back F vzero g) (S k)) as [v ->];
          [|done].
        rewrite march_back_length. by eapply lookup_lt_Some.
      * assert (march_back F vzero g !! S k = None) as ->; [|done].
        apply lookup_ge_None. rewrite march_back_length.
        by apply lookup_ge_None.
    + apply Hsolve.
Qed.

(** C1 (amended).  With a linearization point whose parameter is a
    vector, the model's [apply_ij(i, j, direction, out)] for a pair
    [(i, j)] it has no branch for - [(STATE, ADJOINT)],
    [(ADJOINT, STATE)], [(ADJOINT, ADJOINT)], any pair of other
    integers, and state-state - raises nothing: it returns normally with
    the output zeroed and everything else unchanged. *)
Theorem apply_ij_unsupported_block_returns_zero
    (i j : Z) (direction : ref) (lo lm : nat) (o : pyobj) (m : vec)
    (xs xa : ref) (s : state) :
  ~ handled_block i j ->
  heap s !! lo = Some o ->
  attr_x (self_attrs s) = [xs; Some lm; xa] ->
  heap s !! lm = Some (PyVector m) ->
  exists s',
    TimeDependentAD.apply_ij self i j direction (Some lo) s = Ok (tt, s')
    /\ heap s' !! lo = Some (zero_obj o)
    /\ (forall l', l' <> lo -> heap s' !! l' = heap s !! l')
    /\ self_attrs s' = self_attrs s.
Proof.
  intros Hij Hout Hx Hm. eexists.
  split; [by eapply apply_ij_unhandled|].
  split; [|split; [|done]].
  - simpl. apply list_lookup_insert_eq. by eapply lookup_lt_Some.
  - intros l' Hl'. simpl. by rewrite list_lookup_insert_ne.
Qed.

(** C2 (amended).  At a linearization point [(u, m, p)], on a
    duplicate-free, non-empty simulation grid:
    - the blocks [(STATE, PARAMETER)] and [(ADJOINT, PARAMETER)], given a
      container over the grid as output and a vector [dir] as direction,
      are time-indexed: zero at the first simulation time and, at every
      later time [t], [dt] times the mixed second derivative of the
      residual at [(u t, m, p t)] in the direction [dir];
    - the blocks [(PARAMETER, PARAMETER)], [(PARAMETER, ADJOINT)] and
      [(PARAMETER, STATE)], given a vector as output, are single
      vectors: [dt] times the plain sum, over the simulation times after
      the first, of the mixed second derivative at [(u t, m, p t)] in
      the direction [dir] (parameter-parameter) or in the direction's
      snapshot at [t] (the other two).
    - the remaining blocks indexed by [(STATE, .)] or [(., STATE)] -
      state-state, [(STATE, ADJOINT)] and [(ADJOINT, STATE)] - given a
      container as output, leave it zero at every time.
    In each case the call returns normally and the attributes of the
    model are unchanged. *)
Theorem apply_ij_block_shapes
    (lo ls lm la ldir : nat) (m : vec) (u p : scalar -> vec) (s : state) :
  linearization_point self s ls lm la m u p ->
  NoDup g -> g <> [] ->
  (forall (i : Z) (c2 : coefficient) (cout : TimeDependentVector) (dir : vec),
     (i = STATE /\ c2 = wrt_u) \/ (i = ADJOINT /\ c2 = wrt_p) ->
     heap s !! lo = Some (PyTDV cout) -> times cout = g -> tdv_wf cout ->
     lo <> ls -> lo <> la ->
     heap s !! ldir = Some (PyVector dir) ->
     exists s',
       TimeDependentAD.apply_ij self i PARAMETER (Some ldir) (Some lo) s
       = Ok (tt, s')
       /\ self_attrs s' = self_attrs s
       /\ (forall t0, g !! 0 = Some t0 -> snapshot s' (Some lo) t0 = Some vzero)
       /\ (forall k t, g !! S k = Some t ->
             snapshot s' (Some lo) t
             = Some (time_indexed_block self c2 m u p dir t)))
  /\ (forall (w dir : vec),
        heap s !! lo = Some (PyVector w) -> lo <> lm -> lo <> ldir ->
        heap s !! ldir = Some (PyVector dir) ->
        exists s',
          TimeDependentAD.apply_ij self PARAMETER PARAMETER (Some ldir)
            (Some lo) s = Ok (tt, s')
          /\ self_attrs s' = self_attrs s
          /\ vector_of s' (Some lo)
             = Some (accumulated_block self wrt_m m u p (fun _ => dir)))
  /\ (forall (j : Z) (c1 : coefficient) (w : vec)
             (cdir : TimeDependentVector) (dirs : scalar -> vec),
        (j = ADJOINT /\ c1 = wrt_p) \/ (j = STATE /\ c1 = wrt_u) ->
        heap s !! lo = Some (PyVector w) -> lo <> lm ->
        heap s !! ldir = Some (PyTDV cdir) ->
        (forall t, t ∈ drop 1 g -> tdv_retrieve cdir t = Ok (dirs t)) ->
        exists s',
          TimeDependentAD.apply_ij self PARAMETER j (Some ldir) (Some lo) s
          = Ok (tt, s')
          /\ self_attrs s' = self_attrs s
          /\ vector_of s' (Some lo)
             = Some (accumulated_block self c1 m u p dirs))
  /\ (forall (i j : Z) (direction : ref) (cout : TimeDependentVector),
        i = STATE \/ j = STATE -> ~ handled_block i j ->
        heap s !! lo = Some (PyTDV cout) ->
        exists s',
          TimeDependentAD.apply_ij self i j direction (Some lo) s = Ok (tt, s')
          /\ self_attrs s' = self_attrs s
          /\ (forall t, is_Some (snapshot s (Some lo) t) ->
                snapshot s' (Some lo) t = Some vzero)).
Proof.
  intros Hlp Hnd Hne. split; [|split; [|split]].
  - intros i c2 cout dir Hi Hout Hgo Hwf Hos Hoa Hdir.
    assert (Hlo : lo < length (heap s)) by by eapply lookup_lt_Some.
    eexists. split; [by eapply apply_ij_time_indexed|].
    split; [done|].
    unfold tdv_wf in Hwf. rewrite Hgo in Hwf.
    split.
    + intros t0 H0. rewrite (snapshot_history _ _ _ _ 0 t0) by done.
      rewrite stored_miss.
      * apply lookup_zeros. rewrite Hwf. by eapply lookup_lt_Some.
      * intros t [k Hk]%list_elem_of_lookup_1 Hi0.
        rewrite lookup_drop in Hk.
        rewrite grid_index_position in Hi0. apply position_lookup in Hi0.
        pose proof (NoDup_lookup _ _ _ _ Hnd Hk Hi0). lia.
    + intros k t Hk. rewrite (snapshot_history _ _ _ _ (S k) t) by done.
      apply (stored_hit _ (time_indexed_block self c2 m u p dir)).
      * apply list_elem_of_lookup. exists k. by rewrite lookup_drop.
      * rewrite grid_index_position. by apply position_NoDup.
      * rewrite length_fmap, Hwf. by eapply lookup_lt_Some.
  - intros w dir Hout Hom Hod Hdir.
    assert (Hlo : lo < length (heap s)) by by eapply lookup_lt_Some.
    eexists. split; [by eapply apply_ij_PP|].
    split; [done|]. by apply vector_of_with_vector_eq.
  - intros j c1 w cdir dirs Hj Hout Hom Hdir Hdirs.
    assert (Hlo : lo < length (heap s)) by by eapply lookup_lt_Some.
    eexists. split; [by eapply apply_ij_P_row|].
    split; [done|]. by apply vector_of_with_vector_eq.
  - intros i j direction cout _ Hij Hout.
    assert (Hlo : lo < length (heap s)) by by eapply lookup_lt_Some.
    destruct Hlp as (Hx & Hm & _).
    eexists. split; [by eapply apply_ij_unhandled|].
    split; [done|].
    intros t (c' & k & Hc' & Hk & Hlt)%snapshot_index.
    rewrite Hout in Hc'. injection Hc' as <-.
    change (set_heap _ s)
      with (with_data s lo (times cout) ((fun _ => vzero) <$> data cout)).
    rewrite (snapshot_with_data_eq _ _ _ _ _ _ Hlo Hk).
    by apply lookup_zeros.
Qed.

(** C5 (amended).  [evalGradientParameter(x, mg, misfit_only)], for [x]
    holding a parameter vector [m] (an object other than [mg]) and state
    and adjoint histories with entries [u t], [p t] at every simulation
    time after the first: it returns normally; [mg] then holds the
    regularization gradient - the prior precision applied to
    [m - mean], or zero when [misfit_only] is set - plus [dt] times the
    sum over the simulation times after the first of the derivative of
    the residual with respect to the parameter at [(u t, m, p t)]; and
    the value returned is the inner product of [mg] with the solution
    [g] of the prior's mass-matrix solve of [mg] - the square of a norm,
    no root being taken. *)
Theorem evalGradientParameter_gradient
    (lg ls la lm : nat) (x : list ref) (cst ca : TimeDependentVector)
    (m w : vec) (u p : scalar -> vec) (misfit_only : bool) (s : state) :
  heap s !! lg = Some (PyVector w) -> lm <> lg ->
  x !! Z.to_nat STATE = Some (Some ls) -> heap s !! ls = Some (PyTDV cst) ->
  x !! Z.to_nat ADJOINT = Some (Some la) -> heap s !! la = Some (PyTDV ca) ->
  x !! Z.to_nat PARAMETER = Some (Some lm) -> heap s !! lm = Some (PyVector m) ->
  (forall t, t ∈ drop 1 g -> tdv_retrieve cst t = Ok (u t)) ->
  (forall t, t ∈ drop 1 g -> tdv_retrieve ca t = Ok (p t)) ->
  exists (G : vec) (s' : state),
    TimeDependentAD.evalGradientParameter self x (Some lg) misfit_only s
    = Ok (inner (Msolver_solve (TimeDependentAD.prior self) G) G, s')
    /\ vector_of s' (Some lg) = Some G
    /\ G = axpy (lit 1%Z)
             (vscale (TimeDependentAD.dt self)
                (accumulate (fun t => parameter_derivative m (u t) (p t))
                   (drop 1 g) vzero))
             (if misfit_only then vzero
              else R_mult (TimeDependentAD.prior self)
                     (vsub m (mean (TimeDependentAD.prior self))))
    /\ self_attrs s' = self_attrs s
    /\ (forall l', l' < length (heap s) -> l' <> lg ->
          heap s' !! l' = heap s !! l').
Proof.
  intros Hg Hne Hxs Hst Hxa Hca Hxm Hm Hu Hp.
  destruct (evalGradientParameter_run self lg ls la lm x cst ca m w u p
              misfit_only s) as (s' & Hrun & HG & Ha & Hframe); try done.
  exists (reduced_gradient self m u p misfit_only), s'.
  repeat split; try done.
Qed.

End Claims.

Section MisfitClaims.
Variable self : Misfit.
Local Abbreviation obs := (SpaceTimePointwiseStateObservation.observation_times self).

(** C6.  [cost(x)], for a state history and data that hold [u t] and
    [d t] at every observation time [t] and a noise variance [nv] with
    [2 nv] nonzero, returns the sum over the observation times of the
    squared norm of [B (u t) - d t], divided by [2 nv], and changes
    nothing.  Only the snapshots at observation times enter: any store
    whose state history agrees with this one at the observation times,
    whatever it holds at other times, has the same cost. *)
Theorem cost_sums_over_observation_times
    (x : list ref) (ls ld : nat) (cst cd : TimeDependentVector)
    (nv : scalar) (u d : scalar -> vec) (s : state) :
  x !! Z.to_nat STATE = Some (Some ls) ->
  heap s !! ls = Some (PyTDV cst) ->
  SpaceTimePointwiseStateObservation.d self = Some ld ->
  heap s !! ld = Some (PyTDV cd) ->
  SpaceTimePointwiseStateObservation.noise_variance self = Some nv ->
  fmul (lit 2%Z) nv <> lit 0%Z ->
  (forall t, t ∈ obs -> tdv_retrieve cst t = Ok (u t)) ->
  (forall t, t ∈ obs -> tdv_retrieve cd t = Ok (d t)) ->
  SpaceTimePointwiseStateObservation.cost self x s
  = Ok (fdiv (sum_of_squares self obs u d) (fmul (lit 2%Z) nv), s)
  /\ forall (s1 : state) (cst1 : TimeDependentVector),
       heap s1 !! ls = Some (PyTDV cst1) ->
       (forall l', l' <> ls -> heap s1 !! l' = heap s !! l') ->
       (forall t, t ∈ obs -> tdv_retrieve cst1 t = tdv_retrieve cst t) ->
       SpaceTimePointwiseStateObservation.cost self x s1
       = Ok (fdiv (sum_of_squares self obs u d) (fmul (lit 2%Z) nv), s1).
Proof.
  intros Hx Hs Hd Hcd Hnv Hnz Hu Hdd. split.
  - by eapply cost_value.
  - intros s1 cst1 Hs1 Hframe Hagree.
    destruct (decide (ld = ls)) as [->|Hne].
    + eapply cost_value; try done.
      * intros t Ht. rewrite Hagree by done. by apply Hu.
      * intros t Ht. rewrite Hagree by done.
        rewrite Hs in Hcd. injection Hcd as ->. by apply Hdd.
    + eapply (cost_value self x s1 ls cst1 ld cd); try done.
      * by rewrite Hframe.
      * intros t Ht. rewrite Hagree by done. by apply Hu.
Qed.

(** C7.  [grad(i, x, out)] returns normally.  For [i = STATE], with
    containers as [grad_ready] describes, the output holds
    [B^T ((1/nv) (B (u t) - d t))] at every observation time [t] and
    zero at every other time of its grid.  For every other [i] the
    output is just zeroed.  Nothing else changes. *)
Theorem grad_nonzero_only_for_state
    (i : Z) (x : list ref) (lo : nat) (o : pyobj) (nv : scalar)
    (u d : scalar -> vec) (s : state) :
  heap s !! lo = Some o ->
  (i = STATE -> grad_ready self s x lo nv u d) ->
  exists s',
    SpaceTimePointwiseStateObservation.grad self i x (Some lo) s = Ok (tt, s')
    /\ self_attrs s' = self_attrs s
    /\ (forall l', l' <> lo -> heap s' !! l' = heap s !! l')
    /\ (i = STATE ->
          (forall t, t ∈ obs ->
             snapshot s' (Some lo) t
             = Some (gradient_snapshot self nv (u t) (d t)))
          /\ (forall t, t ∉ obs -> is_Some (snapshot s (Some lo) t) ->
                snapshot s' (Some lo) t = Some vzero))
    /\ (i <> STATE -> heap s' !! lo = Some (zero_obj o)).
Proof.
  intros Ho Hready. destruct (decide (i = STATE)) as [->|Hi].
  - destruct (Hready eq_refl) as (xs & Hx & Hxs & Hd & Hnv & Hnz & Hent).
    destruct (grad_STATE self x xs lo o nv s u d) as
      (s' & Hrun & Ha & _ & Hframe & Hhit & Hmiss); try done.
    + intros t Ht. by apply Hent.
    + intros t Ht. by apply Hent.
    + intros t Ht. by apply Hent.
    + exists s'. repeat split; try done.
  - eexists. split; [by apply grad_other|].
    split; [done|]. split; [|split; [done|]].
    + intros l' Hl'. simpl. by rewrite list_lookup_insert_ne.
    + intros _. simpl. apply list_lookup_insert_eq. by eapply lookup_lt_Some.
Qed.

(** C8.  The misfit's [apply_ij(i, j, direction, out)] returns
    normally.  For [i = j = STATE], with containers as [hessian_ready]
    describes, the output holds [B^T ((1/nv) (B (du t)))] at every
    observation time [t], [du t] being the direction's snapshot at [t],
    and zero at every other time of its grid.  For every other pair the
    output is just zeroed.  Nothing else changes. *)
Theorem misfit_apply_ij_nonzero_only_for_state_state
    (i j : Z) (direction : ref) (lo : nat) (o : pyobj) (nv : scalar)
    (du : scalar -> vec) (s : state) :
  heap s !! lo = Some o ->
  (i = STATE /\ j = STATE -> hessian_ready self s direction lo nv du) ->
  exists s',
    SpaceTimePointwiseStateObservation.apply_ij self i j direction (Some lo) s
    = Ok (tt, s')
    /\ self_attrs s' = self_attrs s
    /\ (forall l', l' <> lo -> heap s' !! l' = heap s !! l')
    /\ (i = STATE /\ j = STATE ->
          (forall t, t ∈ obs ->
             snapshot s' (Some lo) t = Some (hessian_snapshot self nv (du t)))
          /\ (forall t, t ∉ obs -> is_Some (snapshot s (Some lo) t) ->
                snapshot s' (Some lo) t = Some vzero))
    /\ (~ (i = STATE /\ j = STATE) -> heap s' !! lo = Some (zero_obj o)).
Proof.
  intros Ho Hready. destruct (decide (i = STATE /\ j = STATE)) as [[-> ->]|Hij].
  - destruct (Hready (conj eq_refl eq_refl)) as (Hdir & Hnv & Hnz & Hent).
    destruct (misfit_apply_ij_STATE self direction lo o nv s du) as
      (s' & Hrun & Ha & Hframe & Hhit & Hmiss); try done.
    + intros t Ht. by apply Hent.
    + intros t Ht. by apply Hent.
    + exists s'. repeat split; try done. intros []. done.
  - eexists. split; [by apply misfit_apply_ij_other|].
    split; [done|]. split; [|split; [done|]].
    + intros l' Hl'. simpl. by rewrite list_lookup_insert_ne.
    + intros _. simpl. apply list_lookup_insert_eq. by eapply lookup_lt_Some.
Qed.

End MisfitClaims.

(** ** Further properties of the model *)

Section ModelExtras.
Variable self : Model.
Local Abbreviation g := (TimeDependentAD.simulation_times self).
Local Abbreviation M_stab := (TimeDependentAD.M_stab self).
Local Abbreviation Mt_stab := (TimeDependentAD.Mt_stab self).

(** The state [solveAdjIncremental] ends in. *)
Lemma solveAdjIncremental_run lsol (rhs : ref) c Lt (r : scalar -> vec) s :
  heap s !! lsol = Some (PyTDV c) -> times c = g -> tdv_wf c ->
  NoDup g ->
  rhs <> Some lsol ->
  attr_solvert (self_attrs s) = Some Lt ->
  (forall t, t ∈ g -> snapshot s rhs t = Some (r t)) ->
  TimeDependentAD.solveAdjIncremental self (Some lsol) rhs s
  = Ok (tt, with_data s lsol g (march_back (adjoint_step self Lt r) vzero g)).
Proof.
  intros Hc Hg Hwf Hnd Hrhs HL Hr.
  unfold TimeDependentAD.solveAdjIncremental.
  rewrite (bind_Ok _ _ _ _ _ (zero_container _ _ _ Hc)). rewrite Hg.
  assert (Hl : lsol < length (heap s)) by by eapply lookup_lt_Some.
  rewrite <- (app_nil_r ((fun _ => vzero) <$> data c)).
  erewrite bind_Ok; last first.
  { apply (march_back_loop _ s lsol g (adjoint_step self Lt r) Hl Hnd
             g [] ((fun _ => vzero) <$> data c) [] vzero).
    - by rewrite app_nil_r.
    - rewrite length_fmap. by rewrite Hwf, Hg.
    - intros t pold D' Ht.
      erewrite bind_Ok; last first.
      { apply snapshot_retrieve. rewrite snapshot_with_data_ne by done.
        by apply Hr. }
      erewrite bind_Ok; [|by apply solvert_solve_Ok]. done. }
  by rewrite !app_nil_r.
Qed.

(** X1.  [solveAdjIncremental(sol, rhs)], called with a solution
    container [sol] over a duplicate-free simulation grid, a right-hand
    side [rhs] (another container, holding [r t] at every simulation
    time) and the adjoint solver set up for an operator [Lt] that the LU
    solver inverts: it returns normally, leaves the attributes and every
    object other than [sol] as they were, and at every simulation time
    [t] - the first included - stores an increment [dp] with
    [Lt dp = Mt_stab dpnext - r t], where [dpnext] is the increment
    stored at the time after [t], and is the zero vector at the final
    time. *)
Theorem solveAdjIncremental_recurrence
    (lsol : nat) (rhs : ref) (c : TimeDependentVector) (Lt : op)
    (r : scalar -> vec) (s : state) :
  heap s !! lsol = Some (PyTDV c) -> times c = g -> tdv_wf c ->
  NoDup g ->
  rhs <> Some lsol ->
  attr_solvert (self_attrs s) = Some Lt ->
  (forall t, t ∈ g -> snapshot s rhs t = Some (r t)) ->
  (forall b, op_mult Lt (lu_solve Lt b) = b) ->
  exists s',
    TimeDependentAD.solveAdjIncremental self (Some lsol) rhs s = Ok (tt, s')
    /\ self_attrs s' = self_attrs s
    /\ (forall l', l' <> lsol -> heap s' !! l' = heap s !! l')
    /\ (forall k t, g !! k = Some t ->
          exists dp dpnext,
            snapshot s' (Some lsol) t = Some dp
            /\ match g !! S k with
               | Some tnext => snapshot s' (Some lsol) tnext = Some dpnext
               | None => dpnext = vzero
               end
            /\ dp = lu_solve Lt (axpy (lit (-1)%Z) (r t) (op_mult Mt_stab dpnext))
            /\ op_mult Lt dp = axpy (lit (-1)%Z) (r t) (op_mult Mt_stab dpnext)).
Proof.
  intros Hc Hg Hwf Hnd Hrhs HL Hr Hsolve.
  assert (Hl : lsol < length (heap s)) by by eapply lookup_lt_Some.
  eexists. split; [by eapply solveAdjIncremental_run|].
  split; [done|]. split; [by intros l' Hl'; apply lookup_with_data_ne|].
  set (F := adjoint_step self Lt r).
  intros k t Hk.
  exists (F t (default vzero (march_back F vzero g !! S k))),
         (default vzero (march_back F vzero g !! S k)).
  split; [|split; [|split]].
  - rewrite (snapshot_history _ _ _ _ k t) by done.
    by apply march_back_step.
  - destruct (g !! S k) as [tnext|] eqn:E.
    + rewrite (snapshot_history _ _ _ _ (S k) tnext) by done.
      destruct (lookup_lt_is_Some_2 (march_back F vzero g) (S k)) as [v ->];
        [|done].
      rewrite march_back_length. by eapply lookup_lt_Some.
    + assert (march_back F vzero g !! S k = None) as ->; [|done].
      apply lookup_ge_None. rewrite march_back_length.
      by apply lookup_ge_None.
  - done.
  - apply Hsolve.
Qed.

(** X2.  The incremental solves use the solvers that [solveFwd] and
    [solveAdj] leave in [self.solver] and [self.solvert], and [__init__]
    creates neither attribute.  On a grid of at least two times, with a
    solution container over the grid and a right-hand side that has an
    entry at every simulation time, [solveFwdIncremental] raises
    [AttributeError] while [self.solver] is unset, and so does
    [solveAdjIncremental] while [self.solvert] is unset. *)
Theorem incremental_solves_need_their_solver
    (lsol : nat) (rhs : ref) (c : TimeDependentVector) (s : state) :
  heap s !! lsol = Some (PyTDV c) -> times c = g -> tdv_wf c ->
  1 < length g ->
  rhs <> Some lsol ->
  (forall t, t ∈ g -> is_Some (snapshot s rhs t)) ->
  (attr_solver (self_attrs s) = None ->
   TimeDependentAD.solveFwdIncremental self (Some lsol) rhs s
   = Raise AttributeError)
  /\ (attr_solvert (self_attrs s) = None ->
      TimeDependentAD.solveAdjIncremental self (Some lsol) rhs s
      = Raise AttributeError).
Proof.
  intros Hc Hg Hwf Hlen Hrhs Hr.
  assert (Hl : lsol < length (heap s)) by by eapply lookup_lt_Some.
  unfold tdv_wf in Hwf. rewrite Hg in Hwf.
  split; intros Hnone.
  - unfold TimeDependentAD.solveFwdIncremental, TimeDependentAD.first_time.
    rewrite (bind_Ok _ _ _ _ _ (zero_container _ _ _ Hc)). rewrite Hg.
    destruct g as [|t0 [|t1 q]] eqn:Eg; simpl in Hlen; [lia|lia|]. simpl.
    rewrite bind_ret.
    erewrite bind_Ok; last first.
    { apply (store_with_data _ _ _ _ _ _ 0); [done| |].
      - simpl. by rewrite decide_True.
      - rewrite length_fmap, Hwf. simpl. lia. }
    destruct (Hr t1) as [v Hv]; [right; by left|].
    apply bind_Raise, bind_Raise.
    erewrite bind_Ok; last first.
    { apply snapshot_retrieve. rewrite snapshot_with_data_ne by done.
      exact Hv. }
    apply bind_Raise. unfold TimeDependentAD.solver_solve.
    by rewrite attrs_with_data, Hnone.
  - unfold TimeDependentAD.solveAdjIncremental.
    rewrite (bind_Ok _ _ _ _ _ (zero_container _ _ _ Hc)).
    destruct (reverse g) as [|tl rest] eqn:Er.
    { apply (f_equal length) in Er. rewrite length_reverse in Er.
      simpl in Er. lia. }
    destruct (Hr tl) as [v Hv].
    { apply elem_of_reverse. rewrite Er. by left. }
    apply bind_Raise. simpl. apply bind_Raise.
    erewrite bind_Ok; last first.
    { apply snapshot_retrieve. rewrite snapshot_with_data_ne by done.
      exact Hv. }
    apply bind_Raise. unfold TimeDependentAD.solvert_solve.
    by rewrite attrs_with_data, Hnone.
Qed.

Lemma march_fixed (F : scalar -> vec -> vec) (z : vec) ts :
  (forall t, t ∈ ts -> F t z = z) -> march F z ts = replicate (length ts) z.
Proof.
  induction ts as [|t ts IH]; intros H; simpl; [done|].
  rewrite (H t) by by left. f_equal. apply IH.
  intros t' Ht'. apply H. by right.
Qed.

Lemma march_back_fixed (F : scalar -> vec -> vec) (z : vec) ts :
  (forall t, t ∈ ts -> F t z = z) -> march_back F z ts = replicate (length ts) z.
Proof.
  induction ts as [|t ts IH]; intros H; simpl; [done|].
  rewrite IH by (intros t' Ht'; apply H; by right).
  f_equal. destruct ts as [|t' ts]; simpl; apply H; by left.
Qed.

(** X3.  The incremental solves are homogeneous.  When the solver, the
    operator applied to the previous increment and [axpy] map zero
    vectors to the zero vector, a right-hand side that is zero at every
    time it is read leaves the zero increment at every simulation time:
    in [solveFwdIncremental] with the forward solver [L] and [M_stab],
    in [solveAdjIncremental] with the adjoint solver [Lt] and
    [Mt_stab]. *)
Theorem incremental_solves_of_zero
    (lsol : nat) (rhs : ref) (c : TimeDependentVector) (L Lt : op)
    (s : state) :
  heap s !! lsol = Some (PyTDV c) -> times c = g -> tdv_wf c ->
  NoDup g -> g <> [] ->
  rhs <> Some lsol ->
  attr_solver (self_attrs s) = Some L ->
  attr_solvert (self_attrs s) = Some Lt ->
  (forall t, t ∈ g -> snapshot s rhs t = Some vzero) ->
  lu_solve L vzero = vzero -> lu_solve Lt vzero = vzero ->
  op_mult M_stab vzero = vzero -> op_mult Mt_stab vzero = vzero ->
  axpy (lit (-1)%Z) vzero vzero = vzero ->
  (exists s',
     TimeDependentAD.solveFwdIncremental self (Some lsol) rhs s = Ok (tt, s')
     /\ forall t, t ∈ g -> snapshot s' (Some lsol) t = Some vzero)
  /\ (exists s',
        TimeDependentAD.solveAdjIncremental self (Some lsol) rhs s = Ok (tt, s')
        /\ forall t, t ∈ g -> snapshot s' (Some lsol) t = Some vzero).
Proof.
  intros Hc Hg Hwf Hnd Hne Hrhs HL HLt Hr HsL HsLt HM HMt Hax.
  assert (Hl : lsol < length (heap s)) by by eapply lookup_lt_Some.
  split.
  - eexists. split.
    + eapply (solveFwdIncremental_run self _ _ _ _ (fun _ => vzero)); try done.
      intros t Ht. apply Hr. destruct g; [done|]. by right.
    + intros t [k Hk]%list_elem_of_lookup_1.
      rewrite (snapshot_history _ _ _ _ k t) by done.
      rewrite march_fixed.
      * change (vzero :: replicate ?n vzero) with (replicate (S n) (@vzero _ _ _ BE)).
        apply lookup_replicate_2. apply lookup_lt_Some in Hk.
        rewrite length_drop. lia.
      * intros t' _. unfold incremental_step. by rewrite HM, Hax.
  - eexists. split.
    + by eapply (solveAdjIncremental_run _ _ _ _ (fun _ => vzero)).
    + intros t [k Hk]%list_elem_of_lookup_1.
      rewrite (snapshot_history _ _ _ _ k t) by done.
      rewrite march_back_fixed.
      * apply lookup_replicate_2. by eapply lookup_lt_Some.
      * intros t' _. unfold adjoint_step. by rewrite HMt, Hax.
Qed.

(** Zeroing an object twice is zeroing it once. *)
Lemma zero_obj_idemp (o : pyobj) : zero_obj (zero_obj o) = zero_obj o.
Proof.
  destruct o as [w|[ts D]]; [done|]. simpl. unfold tdv_zero. simpl.
  f_equal. f_equal. rewrite <- list_fmap_compose. done.
Qed.

Lemma zero_twice {A} (r : ref) (k : unit -> Py A) s :
  bind (zero r) (fun _ => bind (zero r) k) s = bind (zero r) k s.
Proof.
  destruct r as [l|]; [|done].
  destruct (heap s !! l) as [o|] eqn:E.
  - rewrite !(bind_Ok _ _ _ _ _ (zero_Ok _ _ _ E)).
    erewrite bind_Ok; last first.
    { apply (zero_Ok l (zero_obj o)). simpl. apply list_lookup_insert_eq.
      by eapply lookup_lt_Some. }
    simpl. rewrite list_insert_insert_eq, zero_obj_idemp. done.
  - unfold zero, bind, deref. by rewrite E.
Qed.

(** X4.  The named Hessian actions are the blocks of the dispatchers
    and nothing more: each zeroes its output and calls [apply_ij], which
    zeroes the output again, so the first zeroing changes nothing.
    [applyC] is the (adjoint, parameter) block, [applyCt] the (parameter,
    adjoint) block, [applyWum] the (state, parameter) block, [applyWmu]
    the (parameter, state) block and [applyWmm] the (parameter,
    parameter) block of the model; [applyWuu] is the (state, state) block
    of the misfit.  They agree on every store, the ones on which they
    raise included. *)
Theorem hessian_actions_are_blocks (direction out : ref) (s : state) :
  TimeDependentAD.applyC self direction out s
  = TimeDependentAD.apply_ij self ADJOINT PARAMETER direction out s
  /\ TimeDependentAD.applyCt self direction out s
     = TimeDependentAD.apply_ij self PARAMETER ADJOINT direction out s
  /\ TimeDependentAD.applyWum self direction out s
     = TimeDependentAD.apply_ij self STATE PARAMETER direction out s
  /\ TimeDependentAD.applyWmu self direction out s
     = TimeDependentAD.apply_ij self PARAMETER STATE direction out s
  /\ TimeDependentAD.applyWmm self direction out s
     = TimeDependentAD.apply_ij self PARAMETER PARAMETER direction out s
  /\ TimeDependentAD.applyWuu self direction out s
     = SpaceTimePointwiseStateObservation.apply_ij (TimeDependentAD.misfit self)
         STATE STATE direction out s.
Proof.
  repeat split; apply zero_twice.
Qed.

(** X5.  The model's [apply_ij] reads the linearization point from
    [self.x], which [__init__] sets to [[None, None, None]].  While the
    parameter entry of [self.x] is [None], every block other than
    (state, state) raises, whatever the direction; the (state, state)
    block, which reads nothing, returns normally with the output zeroed.
    So every Hessian action of the model fails until
    [setPointForHessianEvaluations] has been called. *)
Theorem apply_ij_needs_linearization_point
    (i j : Z) (direction : ref) (lo : nat) (o : pyobj) (s : state) :
  attr_x (self_attrs s) !! Z.to_nat PARAMETER = Some None ->
  heap s !! lo = Some o ->
  (~ (i = STATE /\ j = STATE) ->
   raised (TimeDependentAD.apply_ij self i j direction (Some lo) s) = true)
  /\ (i = STATE /\ j = STATE ->
      TimeDependentAD.apply_ij self i j direction (Some lo) s
      = Ok (tt, set_heap (<[lo := zero_obj o]> (heap s)) s)).
Proof.
  intros Hx Ho. unfold TimeDependentAD.apply_ij.
  rewrite (bind_Ok _ _ _ _ _ (zero_Ok _ _ _ Ho)).
  split; intros Hij.
  - rewrite bool_decide_eq_false_2 by done. cbn [negb].
    rewrite (bind_Ok _ _ _ _ _ (self_x_Ok _)).
    erewrite bind_Ok; last first.
    { apply getitem_Ok. simpl. exact Hx. }
    done.
  - rewrite bool_decide_eq_true_2 by done. done.
Qed.

(** *** The Gauss-Newton flag *)

Local Abbreviation blind_in_flag :=
  (flag_blind (scalar := scalar) (vec := vec) (op := op)).

Lemma flag_blind_ret {A} (a : A) : blind_in_flag (ret a).
Proof. by intros b s. Qed.

Lemma flag_blind_raise {A} (e : PyErr) : blind_in_flag (raise e : Py A).
Proof. by intros b s. Qed.

Lemma flag_blind_lift {A} (r : result A) : blind_in_flag (lift r).
Proof. intros b s. unfold lift. by destruct r. Qed.

Lemma flag_blind_bind {A B} (m : Py A) (k : A -> Py B) :
  flag_blind m -> (forall a, flag_blind (k a)) -> flag_blind (bind m k).
Proof.
  intros Hm Hk b s. unfold bind. rewrite Hm.
  destruct (m s) as [[a s']|e]; simpl; [apply Hk|done].
Qed.

Lemma flag_blind_for_each {T S} (es : list T) (body : T -> S -> Py S) (a : S) :
  (forall e a', flag_blind (body e a')) -> flag_blind (for_each es body a).
Proof.
  intros Hbody. revert a. induction es as [|e es IH]; intros a; simpl.
  - apply flag_blind_ret.
  - apply flag_blind_bind; [apply Hbody|apply IH].
Qed.

Lemma flag_blind_deref (r : ref) : blind_in_flag (deref r).
Proof.
  intros b s. unfold deref. destruct r as [l|]; [|done]. simpl.
  by destruct (heap s !! l).
Qed.

Lemma flag_blind_assign l (o : pyobj) : blind_in_flag (assign l o).
Proof. by intros b s. Qed.

Lemma flag_blind_alloc (o : pyobj) : blind_in_flag (alloc o).
Proof. by intros b s. Qed.

Lemma flag_blind_self_x : blind_in_flag (TimeDependentAD.self_x).
Proof. by intros b s. Qed.

Lemma flag_blind_solver_solve (rhs : vec) :
  blind_in_flag (TimeDependentAD.solver_solve rhs).
Proof.
  intros b s. unfold TimeDependentAD.solver_solve. simpl.
  by destruct (attr_solver (self_attrs s)).
Qed.

Lemma flag_blind_solvert_solve (rhs : vec) :
  blind_in_flag (TimeDependentAD.solvert_solve rhs).
Proof.
  intros b s. unfold TimeDependentAD.solvert_solve. simpl.
  by destruct (attr_solvert (self_attrs s)).
Qed.

Ltac blind :=
  repeat first
    [ apply flag_blind_ret | apply flag_blind_raise | apply flag_blind_lift
    | apply flag_blind_deref | apply flag_blind_assign | apply flag_blind_alloc
    | apply flag_blind_self_x
    | apply flag_blind_solver_solve | apply flag_blind_solvert_solve
    | apply flag_blind_bind; [|intros ?]
    | apply flag_blind_for_each; intros ? ?
    | match goal with
      | |- flag_blind (match ?x with _ => _ end) => destruct x
      end
    | progress cbv zeta ].

Lemma flag_blind_zero (r : ref) : blind_in_flag (zero r).
Proof. unfold zero. blind. Qed.

Lemma flag_blind_store (r : ref) u t : blind_in_flag (store r u t).
Proof. unfold store. blind. Qed.

Lemma flag_blind_retrieve (r : ref) t : blind_in_flag (retrieve r t).
Proof. unfold retrieve. blind. Qed.

Lemma flag_blind_vector_get (r : ref) : blind_in_flag (vector_get r).
Proof. unfold vector_get. blind. Qed.

Lemma flag_blind_iadd (r : ref) v : blind_in_flag (iadd r v).
Proof. unfold iadd. blind. Qed.

Lemma flag_blind_imul (r : ref) (a : scalar) : blind_in_flag (imul r a).
Proof. unfold imul. blind. Qed.

Lemma flag_blind_getitem (x : list ref) (i : Z) :
  blind_in_flag (getitem x i).
Proof. unfold getitem. blind. Qed.

Lemma flag_blind_truediv (a b : scalar) :
  blind_in_flag (truediv a b).
Proof. unfold truediv. blind. Qed.

Lemma flag_blind_as_float (o : option scalar) :
  blind_in_flag (as_float o).
Proof. unfold as_float. blind. Qed.

Lemma flag_blind_first_time : blind_in_flag (TimeDependentAD.first_time self).
Proof. unfold TimeDependentAD.first_time. blind. Qed.

Ltac blind_call :=
  repeat first
    [ apply flag_blind_zero | apply flag_blind_store | apply flag_blind_retrieve
    | apply flag_blind_vector_get | apply flag_blind_iadd | apply flag_blind_imul
    | apply flag_blind_getitem | apply flag_blind_truediv
    | apply flag_blind_as_float | apply flag_blind_first_time
    | apply flag_blind_ret | apply flag_blind_raise
    | apply flag_blind_self_x
    | apply flag_blind_solver_solve | apply flag_blind_solvert_solve
    | apply flag_blind_bind; [|intros ?]
    | apply flag_blind_for_each; intros ? ?
    | match goal with
      | |- flag_blind (match ?x with _ => _ end) => destruct x
      end
    | progress cbv zeta ].

Lemma flag_blind_apply_ij (i j : Z) (direction out : ref) :
  blind_in_flag (TimeDependentAD.apply_ij self i j direction out).
Proof.
  unfold TimeDependentAD.apply_ij, TimeDependentAD.snapshots. blind_call.
Qed.

(** X6.  [setPointForHessianEvaluations] stores its
    [gauss_newton_approx] argument, and nothing reads it: a block of the
    model's [apply_ij] evaluated after setting the point with the flag
    [b] raises the same exception, or leaves the same objects and
    solvers, as after setting the same point with the opposite flag; the
    two final states differ in the stored flag only.  The same holds of
    the misfit's [apply_ij] and of the two incremental solves, run from
    states that differ in the flag. *)
Theorem gauss_newton_flag_is_ignored
    (x : list ref) (b : bool) (i j : Z) (direction out sol rhs : ref)
    (s : state) :
  (TimeDependentAD.setPointForHessianEvaluations self x b ;;;
   TimeDependentAD.apply_ij self i j direction out) s
  = map_state (with_flag b)
      ((TimeDependentAD.setPointForHessianEvaluations self x (negb b) ;;;
        TimeDependentAD.apply_ij self i j direction out) s)
  /\ blind_in_flag (SpaceTimePointwiseStateObservation.apply_ij
                   (TimeDependentAD.misfit self) i j direction out)
  /\ blind_in_flag (TimeDependentAD.solveFwdIncremental self sol rhs)
  /\ blind_in_flag (TimeDependentAD.solveAdjIncremental self sol rhs).
Proof.
  split; [|split; [|split]].
  - unfold bind, TimeDependentAD.setPointForHessianEvaluations.
    rewrite <- (flag_blind_apply_ij i j direction out b). done.
  - unfold SpaceTimePointwiseStateObservation.apply_ij. blind_call.
  - unfold TimeDependentAD.solveFwdIncremental. blind_call.
  - unfold TimeDependentAD.solveAdjIncremental. blind_call.
Qed.

(** *** Generating vectors *)

(** X7.  [generate_vector] only allocates.  For ["ALL"] or one of the
    three component tags it returns normally, leaves the attributes and
    every existing object as they are, appends the new objects to the
    store and returns references to exactly these, in order (so they are
    new and pairwise distinct); each new object is a zero vector or a
    container over the simulation grid with a zero snapshot at every
    time.  For any other tag it raises [RuntimeError]. *)
Theorem generate_vector_allocates (c : TimeDependentAD.component) (s : state) :
  (recognised c ->
   exists res new,
     TimeDependentAD.generate_vector self c s
     = Ok (res, set_heap (heap s ++ new) s)
     /\ refs_of res = Some <$> seq (length (heap s)) (length new)
     /\ length new = match c with TimeDependentAD.ALL => 3 | _ => 1 end
     /\ Forall (fresh_object g) new)
  /\ (~ recognised c ->
      TimeDependentAD.generate_vector self c s = Raise RuntimeError).
Proof.
  split.
  - destruct c as [|i]; simpl.
    + intros _. eexists _, [_; _; _]. split.
      { unfold bind, alloc. simpl. rewrite <- !app_assoc. simpl. reflexivity. }
      split.
      { simpl. rewrite !length_app. simpl. repeat f_equal; lia. }
      split; [done|].
      repeat constructor.
    + intros Hi. destruct (decide (i = STATE)) as [->|H0].
      { eexists _, [_]. split; [reflexivity|].
        split; [done|]. split; [done|]. repeat constructor. }
      destruct (decide (i = PARAMETER)) as [->|H1].
      { eexists _, [_]. split; [reflexivity|].
        split; [done|]. split; [done|]. repeat constructor. }
      destruct (decide (i = ADJOINT)) as [->|H2].
      { eexists _, [_]. split; [reflexivity|].
        split; [done|]. split; [done|]. repeat constructor. }
      by destruct Hi as [?|[?|?]].
  - destruct c as [|i]; simpl; [tauto|]. intros Hi.
    rewrite !decide_False; [done|tauto|tauto|tauto].
Qed.

(** X8.  [generate_vector] followed by [solveFwd], as the program
    runs them: on the three objects [[u, m, p] = generate_vector()], with
    no other preparation than a duplicate-free grid whose first time is
    [0], [solveFwd(u, [u, m, p])] returns normally.  The forward solver is
    then set up at the zero parameter, and [u] holds the initial
    condition at the first time and the forward march from it at the
    later times. *)
Theorem solveFwd_on_generated_vectors (s : state) :
  NoDup g -> g !! 0 = Some (lit 0%Z) ->
  exists x s1 s',
    TimeDependentAD.generate_vector self TimeDependentAD.ALL s
    = Ok (TimeDependentAD.Triple x, s1)
    /\ (xs <- getitem x STATE ;; TimeDependentAD.solveFwd self xs x) s1
       = Ok (tt, s')
    /\ attr_solver (self_attrs s') = Some (L_at self vzero)
    /\ forall k t, g !! k = Some t ->
         snapshot s' (Some (length (heap s))) t
         = (TimeDependentAD.ic self
            :: march (forward_step self (L_at self vzero))
                 (TimeDependentAD.ic self) (drop 1 g)) !! k.
Proof.
  intros Hnd H0.
  set (n := length (heap s)).
  set (s1 := set_heap (heap s ++ [PyTDV (tdv_new g); PyVector vzero;
                                  PyTDV (tdv_new g)]) s).
  exists [Some n; Some (S n); Some (S (S n))], s1.
  assert (Hu : heap s1 !! n = Some (PyTDV (tdv_new g))).
  { unfold s1. simpl. rewrite lookup_app_r by done.
    by replace (n - length (heap s)) with 0 by lia. }
  assert (Hm : heap s1 !! S n = Some (PyVector vzero)).
  { unfold s1. simpl. rewrite lookup_app_r by (unfold n; lia).
    by replace (S n - length (heap s)) with 1 by (unfold n; lia). }
  eexists. split; [|split; [|split]].
  - unfold TimeDependentAD.generate_vector, bind, alloc. simpl.
    rewrite !length_app. simpl. rewrite <- !app_assoc. simpl.
    unfold ret. rewrite !set_heap_set_heap. fold s1.
    replace (length (heap s) + 1) with (S n) by (unfold n; lia).
    replace (S n + 1) with (S (S n)) by lia. done.
  - erewrite bind_Ok; [|by apply (getitem_Ok _ STATE (Some n))].
    eapply (solveFwd_run self n n _ (Some (S n)) (tdv_new g) (tdv_new g) vzero);
      try done; try apply tdv_new_wf.
    apply vector_of_lookup. by exists (S n).
  - done.
  - intros k t Hk. rewrite decide_True by done.
    rewrite (snapshot_history _ _ _ _ k t); [done| |done|done].
    rewrite length_heap_with_data. simpl. by eapply lookup_lt_Some.
Qed.

(** *** Cost and export *)

(** X9.  The model's [cost(x)] returns the list
    [[reg + misfit, reg, misfit]]: its second entry is the prior's cost of
    the parameter [x[PARAMETER]], its third the misfit's cost of [x], its
    first their sum; it changes nothing. *)
Theorem cost_is_regularization_plus_misfit
    (x : list ref) (ls lm ld : nat) (cst cd : TimeDependentVector)
    (m : vec) (nv : scalar) (u d : scalar -> vec) (s : state) :
  x !! Z.to_nat STATE = Some (Some ls) -> heap s !! ls = Some (PyTDV cst) ->
  x !! Z.to_nat PARAMETER = Some (Some lm) -> heap s !! lm = Some (PyVector m) ->
  SpaceTimePointwiseStateObservation.d (TimeDependentAD.misfit self) = Some ld ->
  heap s !! ld = Some (PyTDV cd) ->
  SpaceTimePointwiseStateObservation.noise_variance (TimeDependentAD.misfit self)
  = Some nv ->
  fmul (lit 2%Z) nv <> lit 0%Z ->
  (forall t, t ∈ SpaceTimePointwiseStateObservation.observation_times
                  (TimeDependentAD.misfit self) -> tdv_retrieve cst t = Ok (u t)) ->
  (forall t, t ∈ SpaceTimePointwiseStateObservation.observation_times
                  (TimeDependentAD.misfit self) -> tdv_retrieve cd t = Ok (d t)) ->
  exists reg mis,
    TimeDependentAD.cost self x s = Ok ([fadd reg mis; reg; mis], s)
    /\ reg = prior_cost (TimeDependentAD.prior self) m
    /\ SpaceTimePointwiseStateObservation.cost (TimeDependentAD.misfit self) x s
       = Ok (mis, s).
Proof.
  intros Hxs Hst Hxm Hm Hd Hcd Hnv Hnz Hu Hdd.
  eexists _, _. split; [|split; [reflexivity|]].
  - unfold TimeDependentAD.cost.
    rewrite (bind_Ok _ _ _ _ _ (getitem_Ok _ _ _ _ Hxm)).
    rewrite (bind_Ok _ _ _ _ _ (vector_get_Ok _ _ _ Hm)).
    erewrite bind_Ok; [done|]. by eapply cost_value.
  - by eapply cost_value.
Qed.

Lemma state_frames_foldl (u : scalar -> vec) ts (init : list (vec * scalar)) :
  foldl (fun (a : list (vec * scalar) * unit) t => (a.1 ++ [(u t, t)], tt))
        (init, tt) ts
  = (init ++ state_frames u ts, tt).
Proof.
  revert init. induction ts as [|t ts IH]; intros init; simpl.
  - by rewrite app_nil_r.
  - rewrite IH. by rewrite <- app_assoc.
Qed.

(** X10.  [exportState(x, ...)] writes one frame per simulation time and
    changes nothing: the frame at the first simulation time is the
    parameter vector [x[PARAMETER]] (not a state snapshot), and the frame
    at every later time [t] is the state snapshot [x[STATE]] holds at
    [t], in the order of the grid. *)
Theorem exportState_frames
    (x : list ref) (xs xm : ref) (m : vec) (u : scalar -> vec) (t0 : scalar)
    (s : state) :
  x !! Z.to_nat STATE = Some xs -> x !! Z.to_nat PARAMETER = Some xm ->
  vector_of s xm = Some m ->
  g !! 0 = Some t0 ->
  (forall t, t ∈ drop 1 g -> snapshot s xs t = Some (u t)) ->
  TimeDependentAD.exportState self x s
  = Ok ((m, t0) :: state_frames u (drop 1 g), s)
  /\ length ((m, t0) :: state_frames u (drop 1 g)) = length g
  /\ ((m, t0) :: state_frames u (drop 1 g)).*2 = g.
Proof.
  intros Hxs Hxm Hm H0 Hu.
  split; [|split].
  - unfold TimeDependentAD.exportState, TimeDependentAD.first_time.
    rewrite H0, bind_ret.
    rewrite (bind_Ok _ _ _ _ _ (getitem_Ok _ _ _ _ Hxm)).
    rewrite (bind_Ok _ _ _ _ _ (vector_of_get _ _ _ Hm)).
    match goal with |- context [for_each ?es ?body _] =>
      destruct (fun H => for_each_fold (fun _ : unit => s)
                  (fun (a : list (vec * scalar) * unit) t => (a.1 ++ [(u t, t)], tt))
                  (fun _ => True) body es H ([(m, t0)], tt) I) as [Hloop _]
    end.
    { intros t [a []] Ht _. split; [|done]. simpl.
      rewrite (bind_Ok _ _ _ _ _ (getitem_Ok _ _ _ _ Hxs)).
      rewrite (bind_Ok _ _ _ _ _ (snapshot_retrieve _ _ _ _ (Hu t Ht))).
      done. }
    simpl in Hloop. rewrite Hloop. by rewrite state_frames_foldl.
  - simpl. unfold state_frames. rewrite length_fmap, length_drop.
    apply lookup_lt_Some in H0. lia.
  - destruct g as [|t0' q]; [done|]. injection H0 as ->. simpl.
    f_equal. unfold state_frames. rewrite <- list_fmap_compose.
    change (drop 0 q) with q. apply list_fmap_id.
Qed.

(** *** The reduced gradient, end to end *)

Lemma elem_of_drop_1 {A} (es : list A) (e : A) : e ∈ drop 1 es -> e ∈ es.
Proof. destruct es as [|e' es]; [done|]. intros H. by right. Qed.

(** X15.  The three calls by which the program evaluates the reduced
    gradient compose: [solveFwd(x[STATE], x)], [solveAdj(x[ADJOINT], x)]
    and [evalGradientParameter(x, mg)], on two distinct containers for
    the state and the adjoint over a duplicate-free grid starting at [0], a parameter
    vector [m], data (in a container that is not the state) at observation
    times that lie on the grid, and a nonzero noise variance.  Each call
    returns normally on the store the one before left; the later calls
    leave the state history [u] of the first, and the last leaves the
    adjoint history [p] of the second; both solvers are then set up at
    [m]; [mg] holds the reduced gradient at [(u, m, p)], and the value
    returned is its inner product with its mass-matrix solve. *)
Theorem reduced_gradient_pipeline
    (ls lp lm ld lg : nat) (cst cp cd : TimeDependentVector)
    (m w : vec) (nv : scalar) (d : scalar -> vec) (misfit_only : bool)
    (s : state) :
  heap s !! ls = Some (PyTDV cst) -> times cst = g -> tdv_wf cst ->
  heap s !! lp = Some (PyTDV cp) -> times cp = g -> tdv_wf cp ->
  lp <> ls ->
  heap s !! lm = Some (PyVector m) ->
  heap s !! lg = Some (PyVector w) -> lm <> lg ->
  SpaceTimePointwiseStateObservation.d (TimeDependentAD.misfit self) = Some ld ->
  heap s !! ld = Some (PyTDV cd) -> ld <> ls ->
  SpaceTimePointwiseStateObservation.noise_variance (TimeDependentAD.misfit self)
  = Some nv ->
  nv <> lit 0%Z ->
  (forall t, t ∈ SpaceTimePointwiseStateObservation.observation_times
                  (TimeDependentAD.misfit self) -> t ∈ g) ->
  (forall t, t ∈ SpaceTimePointwiseStateObservation.observation_times
                  (TimeDependentAD.misfit self) -> tdv_retrieve cd t = Ok (d t)) ->
  NoDup g -> g !! 0 = Some (lit 0%Z) ->
  exists s1 s2 s3 (u p : scalar -> vec),
    TimeDependentAD.solveFwd self (Some ls) [Some ls; Some lm; Some lp] s
    = Ok (tt, s1)
    /\ TimeDependentAD.solveAdj self (Some lp) [Some ls; Some lm; Some lp] s1
       = Ok (tt, s2)
    /\ TimeDependentAD.evalGradientParameter self [Some ls; Some lm; Some lp]
         (Some lg) misfit_only s2
       = Ok (inner (Msolver_solve (TimeDependentAD.prior self)
                      (reduced_gradient self m u p misfit_only))
                   (reduced_gradient self m u p misfit_only), s3)
    /\ vector_of s3 (Some lg) = Some (reduced_gradient self m u p misfit_only)
    /\ (forall t, t ∈ g ->
          snapshot s1 (Some ls) t = Some (u t)
          /\ snapshot s3 (Some ls) t = Some (u t)
          /\ snapshot s2 (Some lp) t = Some (p t)
          /\ snapshot s3 (Some lp) t = Some (p t))
    /\ attr_solver (self_attrs s3) = Some (L_at self m)
    /\ attr_solvert (self_attrs s3) = Some (Lt_at self m).
Proof.
  intros Hst Hgs Hwfs Hp Hgp Hwfp Hps Hm Hg Hmg Hd Hcd Hds Hnv Hnz Hsub Hdd Hnd H0.
  assert (Hls : ls < length (heap s)) by by eapply lookup_lt_Some.
  assert (Hlp : lp < length (heap s)) by by eapply lookup_lt_Some.
  assert (Hlm : lm < length (heap s)) by by eapply lookup_lt_Some.
  assert (Hlg : lg < length (heap s)) by by eapply lookup_lt_Some.
  assert (lm <> ls) as Hms by (intros ->; congruence).
  assert (lm <> lp) as Hmp by (intros ->; congruence).
  assert (lg <> ls) as Hgls by (intros ->; congruence).
  assert (lg <> lp) as Hglp by (intros ->; congruence).
  assert (0 < length g) as Hglen by by eapply lookup_lt_Some.
  set (x := [Some ls; Some lm; Some lp]).
  (* the forward solve *)
  pose proof (solveFwd_run self ls ls x (Some lm) cst cst m s
                Hst Hgs Hwfs eq_refl Hst Hgs Hwfs eq_refl) as Hfwd.
  rewrite decide_True, with_data_with_data in Hfwd by done.
  set (a1 := TimeDependentAD.assign_Fwd (N_at m) (L_at self m) (L_at self m)
               (self_attrs s)) in Hfwd.
  set (D1 := TimeDependentAD.ic self
             :: march (forward_step self (L_at self m)) (TimeDependentAD.ic self)
                  (drop 1 g)) in Hfwd.
  set (S1 := with_data (set_attrs a1 s) ls g D1) in Hfwd.
  set (c1 := {| times := g; data := D1 |}).
  assert (HS1ls : heap S1 !! ls = Some (PyTDV c1)) by by apply lookup_with_data_eq.
  assert (HS1 : forall l', l' <> ls -> heap S1 !! l' = heap s !! l').
  { intros l' Hl'. unfold S1. by rewrite lookup_with_data_ne. }
  assert (HlenS1 : length (heap S1) = length (heap s)).
  { unfold S1. by rewrite length_heap_with_data. }
  assert (Hwf1 : tdv_wf c1).
  { unfold tdv_wf, c1, D1. simpl. rewrite march_length, length_drop. lia. }
  set (u := fun t => default vzero (snapshot S1 (Some ls) t)).
  assert (Hu : forall t, t ∈ g -> tdv_retrieve c1 t = Ok (u t)).
  { intros t Ht.
    destruct (has_entry_retrieve c1 t (wf_has_entry c1 t Hwf1 Ht)) as [v0 Hv].
    unfold u, snapshot. by rewrite HS1ls, Hv. }
  (* the adjoint solve *)
  destruct (solveAdj_run self lp ls ld lm x cp c1 cd m nv u d S1)
    as (s3 & Hadj & Ha3 & Hlen3 & Hold3 & _).
  { by rewrite HS1. }
  { done. }
  { done. }
  { done. }
  { done. }
  { done. }
  { by rewrite HS1. }
  { done. }
  { by rewrite HS1. }
  { done. }
  { done. }
  { done. }
  { intros t Ht. apply Hu. by apply Hsub. }
  { done. }
  { done. }
  set (P := march_back _ vzero g) in Hadj.
  set (S2 := with_data s3 lp g P) in Hadj.
  set (c2 := {| times := g; data := P |}).
  assert (HS2lp : heap S2 !! lp = Some (PyTDV c2)).
  { apply lookup_with_data_eq. lia. }
  assert (HS2 : forall l', l' <> lp -> l' < length (heap s) ->
                           heap S2 !! l' = heap S1 !! l').
  { intros l' Hl' Hlt. unfold S2. rewrite lookup_with_data_ne by done.
    apply Hold3. lia. }
  assert (Hwf2 : tdv_wf c2).
  { unfold tdv_wf, c2, P. simpl. apply march_back_length. }
  set (p := fun t => default vzero (snapshot S2 (Some lp) t)).
  assert (Hp2 : forall t, t ∈ g -> tdv_retrieve c2 t = Ok (p t)).
  { intros t Ht.
    destruct (has_entry_retrieve c2 t (wf_has_entry c2 t Hwf2 Ht)) as [v0 Hv].
    unfold p, snapshot. by rewrite HS2lp, Hv. }
  assert (HS2ls : heap S2 !! ls = Some (PyTDV c1)).
  { rewrite HS2; [done| |done]. intros ->. congruence. }
  (* the gradient *)
  destruct (evalGradientParameter_run self lg ls lp lm x c1 c2 m w u p
              misfit_only S2)
    as (s' & Hev & Hvec & Hattr & Hframe).
  { rewrite HS2, HS1 by done. done. }
  { done. }
  { done. }
  { done. }
  { done. }
  { done. }
  { done. }
  { rewrite HS2, HS1 by done. done. }
  { intros t Ht. apply Hu. by apply elem_of_drop_1. }
  { intros t Ht. apply Hp2. by apply elem_of_drop_1. }
  assert (HlenS2 : length (heap S2) = S (length (heap s))).
  { unfold S2. rewrite length_heap_with_data. lia. }
  exists S1, S2, s', u, p.
  split; [apply Hfwd; [by apply vector_of_lookup; exists lm|done|done]|].
  split; [done|]. split; [done|]. split; [done|].
  split; [|split].
  - intros t Ht.
    split; [|split; [|split]]; unfold snapshot.
    + by rewrite HS1ls, (Hu t Ht).
    + rewrite Hframe by lia. by rewrite HS2ls, (Hu t Ht).
    + by rewrite HS2lp, (Hp2 t Ht).
    + rewrite Hframe by lia. by rewrite HS2lp, (Hp2 t Ht).
  - rewrite Hattr. unfold S2. rewrite attrs_with_data, Ha3. done.
  - rewrite Hattr. unfold S2. rewrite attrs_with_data, Ha3. done.
Qed.

(** *** The parameter gradient and the cached solver *)

(** X19.  [updategrade(out, x)], called with an output vector, a
    parameter vector [m] and state and adjoint containers holding [u t]
    and [p t] at every simulation time [t] after the first: it returns
    normally; whatever [out] held, [out] ends as [dt] times the sum over
    these times of the derivative of the residual with respect to the
    parameter at [(u t, m, p t)] (the snapshots at the first time are
    never read); it works on copies of the state and the adjoint, which
    are the two objects it appends to the store, and changes no other
    object and no attribute. *)
Theorem updategrade_accumulates
    (lout ls la lm : nat) (x : list ref) (cst ca : TimeDependentVector)
    (m w : vec) (u p : scalar -> vec) (s : state) :
  heap s !! lout = Some (PyVector w) ->
  x !! Z.to_nat STATE = Some (Some ls) -> heap s !! ls = Some (PyTDV cst) ->
  x !! Z.to_nat ADJOINT = Some (Some la) -> heap s !! la = Some (PyTDV ca) ->
  x !! Z.to_nat PARAMETER = Some (Some lm) -> heap s !! lm = Some (PyVector m) ->
  (forall t, t ∈ drop 1 g -> tdv_retrieve cst t = Ok (u t)) ->
  (forall t, t ∈ drop 1 g -> tdv_retrieve ca t = Ok (p t)) ->
  exists s',
    TimeDependentAD.updategrade self (Some lout) x s = Ok (tt, s')
    /\ vector_of s' (Some lout) = Some (misfit_gradient self m u p)
    /\ self_attrs s' = self_attrs s
    /\ length (heap s') = length (heap s) + 2
    /\ heap s' !! length (heap s) = Some (PyTDV cst)
    /\ heap s' !! S (length (heap s)) = Some (PyTDV ca)
    /\ (forall l', l' < length (heap s) -> l' <> lout ->
          heap s' !! l' = heap s !! l').
Proof.
  intros Hout Hxs Hst Hxa Hca Hxm Hm Hu Hp.
  assert (Hlout : lout < length (heap s)) by by eapply lookup_lt_Some.
  eexists. split; [by eapply updategrade_run|].
  split; [|split; [done|split; [|split; [|split]]]].
  - apply vector_of_with_vector_eq. simpl. rewrite !length_app. simpl. lia.
  - rewrite length_heap_with_vector. simpl. rewrite !length_app. simpl. lia.
  - rewrite lookup_with_vector_ne by lia. simpl.
    rewrite lookup_app_l by (rewrite length_app; simpl; lia).
    rewrite lookup_app_r by done. by rewrite Nat.sub_diag.
  - rewrite lookup_with_vector_ne by lia. simpl.
    rewrite lookup_app_r by (rewrite length_app; simpl; lia).
    rewrite length_app. simpl.
    by replace (S (length (heap s)) - (length (heap s) + 1)) with 0 by lia.
  - intros l' Hl' Hne. rewrite lookup_with_vector_ne by done. simpl.
    rewrite !lookup_app_l; [done|lia|rewrite length_app; simpl; lia].
Qed.

(** X20.  The forward solver is cached.  After [solveFwd(out, x)] at
    the parameter [m], [solveFwdIncremental] marches with the operator
    [L = M + dt * N(m) + stab] that [solveFwd] gave to [self.solver],
    whatever has happened to the store in between - the parameter vector
    included - as long as the attributes of the model are as [solveFwd]
    left them: it never reads [x] and never assembles. *)
Theorem solveFwdIncremental_uses_cached_solver
    (lo ls : nat) (x : list ref) (xm : ref)
    (cout cst : TimeDependentVector) (m : vec) (s : state) :
  heap s !! lo = Some (PyTDV cout) -> times cout = g -> tdv_wf cout ->
  x !! Z.to_nat STATE = Some (Some ls) ->
  heap s !! ls = Some (PyTDV cst) -> times cst = g -> tdv_wf cst ->
  x !! Z.to_nat PARAMETER = Some xm -> vector_of s xm = Some m ->
  NoDup g -> g !! 0 = Some (lit 0%Z) ->
  exists s1,
    TimeDependentAD.solveFwd self (Some lo) x s = Ok (tt, s1)
    /\ forall (s2 : state) (lsol : nat) (rhs : ref) (c : TimeDependentVector)
              (r : scalar -> vec),
         self_attrs s2 = self_attrs s1 ->
         heap s2 !! lsol = Some (PyTDV c) -> times c = g -> tdv_wf c ->
         rhs <> Some lsol ->
         (forall t, t ∈ drop 1 g -> snapshot s2 rhs t = Some (r t)) ->
         TimeDependentAD.solveFwdIncremental self (Some lsol) rhs s2
         = Ok (tt, with_data s2 lsol g
                     (vzero :: march (incremental_step self (L_at self m) r)
                                 vzero (drop 1 g))).
Proof.
  intros Hout Hgo Hwfo Hx Hst Hgs Hwfs Hxm Hm Hnd H0.
  eexists. split; [by eapply solveFwd_run|].
  intros s2 lsol rhs c r Ha Hc Hgc Hwfc Hrhs Hr.
  eapply solveFwdIncremental_run; try done.
  - intros E. by rewrite E in H0.
  - by rewrite Ha.
Qed.


(** X17.  [__init__] reads [simulation_times[1]] and
    [simulation_times[0]] for the time step: it raises [IndexError]
    exactly when there are fewer than two simulation times.  When it
    returns, the time step is the difference of the first two times, no
    object of the store has changed, [self.x] is [[None, None, None]] and
    neither solver exists yet. *)
Theorem init_needs_two_times
    (prior : Prior scalar vec) (misfit : Misfit) (ts : list scalar)
    (stab M M_stab Mt_stab : op) (IC : vec) (s : state) :
  (TimeDependentAD.init prior misfit ts stab M M_stab Mt_stab IC s
   = Raise IndexError <-> length ts < 2)
  /\ (forall model s',
        TimeDependentAD.init prior misfit ts stab M M_stab Mt_stab IC s
        = Ok (model, s') ->
        heap s' = heap s
        /\ attr_x (self_attrs s') = [None; None; None]
        /\ attr_solver (self_attrs s') = None
        /\ attr_solvert (self_attrs s') = None
        /\ TimeDependentAD.simulation_times model = ts
        /\ exists t0 t1, ts !! 0 = Some t0 /\ ts !! 1 = Some t1
                         /\ TimeDependentAD.dt model = fsub t1 t0).
Proof.
  unfold TimeDependentAD.init.
  destruct ts as [|t0 [|t1 q]]; simpl.
  - split; [split; [lia|done]|done].
  - split; [split; [lia|done]|done].
  - split; [split; [done|lia]|].
    intros model s' [= <- <-]. simpl. repeat split. by exists t0, t1.
Qed.

End ModelExtras.

(** ** Further properties of the misfit *)

Section MisfitExtras.
Variable self : Misfit.
Local Abbreviation obs := (SpaceTimePointwiseStateObservation.observation_times self).
Local Abbreviation B := (SpaceTimePointwiseStateObservation.B self).

(** The state [observe] ends in when its output is a container. *)
Lemma observe_run (x : list ref) (xs : ref) lo c (u : scalar -> vec) s :
  heap s !! lo = Some (PyTDV c) ->
  x !! Z.to_nat STATE = Some xs -> xs <> Some lo ->
  (forall t, t ∈ obs -> snapshot s xs t = Some (u t)) ->
  (forall t, t ∈ obs -> has_entry c t) ->
  SpaceTimePointwiseStateObservation.observe self x (Some lo) s
  = Ok (tt, with_data s lo (times c)
              (stored (times c) (fun t => op_mult B (u t)) obs
                 ((fun _ => vzero) <$> data c))).
Proof.
  intros Ho Hx Hxs Hu Hent.
  unfold SpaceTimePointwiseStateObservation.observe.
  rewrite (bind_Ok _ _ _ _ _ (zero_container _ _ _ Ho)).
  apply store_loop.
  - by eapply lookup_lt_Some.
  - intros t Ht. destruct (Hent t Ht) as (i & Hi & Hlt).
    exists i. by rewrite length_fmap.
  - intros t D' Ht _.
    rewrite (bind_Ok _ _ _ _ _ (getitem_Ok _ _ _ _ Hx)).
    erewrite bind_Ok; last first.
    { apply snapshot_retrieve. rewrite snapshot_with_data_ne by done. by apply Hu. }
    done.
Qed.

(** X11.  [observe(x, obs)], called with an output [obs] that is not the
    state container and has an entry at every observation time, and a
    state history [x[STATE]] holding [u t] at every observation time [t]:
    it returns normally, leaves the attributes and every object other
    than [obs] - the state history included - as they were, stores the
    observation [B (u t)] at every observation time, and leaves zero at
    every other time of the output. *)
Theorem observe_samples_state
    (x : list ref) (xs : ref) (lo : nat) (c : TimeDependentVector)
    (u : scalar -> vec) (s : state) :
  heap s !! lo = Some (PyTDV c) ->
  x !! Z.to_nat STATE = Some xs -> xs <> Some lo ->
  (forall t, t ∈ obs -> snapshot s xs t = Some (u t)) ->
  (forall t, t ∈ obs -> has_entry c t) ->
  exists s',
    SpaceTimePointwiseStateObservation.observe self x (Some lo) s = Ok (tt, s')
    /\ self_attrs s' = self_attrs s
    /\ (forall l', l' <> lo -> heap s' !! l' = heap s !! l')
    /\ (forall t, t ∈ obs -> snapshot s' (Some lo) t = Some (op_mult B (u t)))
    /\ (forall t, t ∉ obs -> has_entry c t ->
          snapshot s' (Some lo) t = Some vzero).
Proof.
  intros Ho Hx Hxs Hu Hent.
  assert (Hlo : lo < length (heap s)) by by eapply lookup_lt_Some.
  eexists. split; [by eapply observe_run|].
  split; [done|]. split; [by intros l' Hl'; apply lookup_with_data_ne|].
  split.
  - intros t Ht. destruct (Hent t Ht) as (i & Hi & Hlt).
    rewrite (snapshot_with_data_eq _ _ _ _ _ _ Hlo Hi).
    apply (stored_hit _ (fun t => op_mult B (u t))); [done|done|].
    by rewrite length_fmap.
  - intros t Ht (i & Hi & Hlt).
    rewrite (snapshot_with_data_eq _ _ _ _ _ _ Hlo Hi).
    rewrite stored_miss; [by apply lookup_zeros|].
    intros t' Ht' Hi'. rewrite grid_index_position in Hi, Hi'.
    apply position_lookup in Hi, Hi'. congruence.
Qed.

Lemma sum_of_squares_exact (u : scalar -> vec) ts :
  (forall v, axpy (lit (-1)%Z) v v = vzero) ->
  inner vzero vzero = lit 0%Z -> fadd (lit 0%Z) (lit 0%Z) = lit 0%Z ->
  sum_of_squares self ts u (fun t => op_mult B (u t)) = lit 0%Z.
Proof.
  intros Hax Hin Hadd. unfold sum_of_squares.
  induction ts as [|t ts IH] using rev_ind; [done|].
  rewrite foldl_snoc, IH. unfold residual. by rewrite Hax, Hin, Hadd.
Qed.

(** X12.  Observing a state and then measuring its misfit against these
    observations gives zero, as the program does when it makes synthetic
    data with [observe(x, misfit.d)].  When a vector minus itself is the
    zero vector, whose squared norm is [0], and [0 + 0] is [0]:
    [observe(x, self.d)] followed by [cost(x)] returns [0 / (2 * nv)],
    for a state container that is not the data container. *)
Theorem observe_then_cost_vanishes
    (x : list ref) (ls ld : nat) (cst cd : TimeDependentVector)
    (nv : scalar) (u : scalar -> vec) (s : state) :
  x !! Z.to_nat STATE = Some (Some ls) -> heap s !! ls = Some (PyTDV cst) ->
  SpaceTimePointwiseStateObservation.d self = Some ld ->
  heap s !! ld = Some (PyTDV cd) -> ls <> ld ->
  SpaceTimePointwiseStateObservation.noise_variance self = Some nv ->
  fmul (lit 2%Z) nv <> lit 0%Z ->
  (forall t, t ∈ obs -> tdv_retrieve cst t = Ok (u t)) ->
  (forall t, t ∈ obs -> has_entry cd t) ->
  (forall v, axpy (lit (-1)%Z) v v = vzero) ->
  inner vzero vzero = lit 0%Z -> fadd (lit 0%Z) (lit 0%Z) = lit 0%Z ->
  exists s',
    (SpaceTimePointwiseStateObservation.observe self x
       (SpaceTimePointwiseStateObservation.d self) ;;;
     SpaceTimePointwiseStateObservation.cost self x) s
    = Ok (fdiv (lit 0%Z) (fmul (lit 2%Z) nv), s').
Proof.
  intros Hx Hst Hd Hcd Hne Hnv Hnz Hu Hent Hax Hin Hadd.
  assert (Hld : ld < length (heap s)) by by eapply lookup_lt_Some.
  eexists. rewrite Hd.
  erewrite bind_Ok; last first.
  { eapply (observe_run x (Some ls) ld cd u); try done.
    - congruence.
    - intros t Ht. unfold snapshot. rewrite Hst. by rewrite (Hu t Ht). }
  erewrite (cost_value self x _ ls cst ld _ nv u (fun t => op_mult B (u t)));
    try done.
  - by rewrite sum_of_squares_exact.
  - by rewrite lookup_with_data_ne.
  - by apply lookup_with_data_eq.
  - intros t Ht. destruct (Hent t Ht) as (i & Hi & Hlt).
    rewrite (tdv_retrieve_index {| times := times cd; data := _ |} t i Hi).
    simpl.
    rewrite (stored_hit _ (fun t => op_mult B (u t)) _ _ t i); try done.
    by rewrite length_fmap.
Qed.

(** X13.  [__init__] leaves [noise_variance] at [None] unless the caller
    assigns it.  While it is [None], [cost] raises [TypeError] (after
    reading the state and the data at every observation time), and, as
    soon as there is one observation time, so do [grad] for the state
    block and [apply_ij] for the (state, state) block. *)
Theorem unset_noise_variance_raises
    (x : list ref) (xs direction : ref) (lo : nat) (o : pyobj)
    (st dd dir : scalar -> vec) (s : state) :
  SpaceTimePointwiseStateObservation.noise_variance self = None ->
  x !! Z.to_nat STATE = Some xs ->
  heap s !! lo = Some o -> xs <> Some lo -> direction <> Some lo ->
  SpaceTimePointwiseStateObservation.d self <> Some lo ->
  (forall t, t ∈ obs ->
     snapshot s xs t = Some (st t)
     /\ snapshot s (SpaceTimePointwiseStateObservation.d self) t = Some (dd t)
     /\ snapshot s direction t = Some (dir t)) ->
  SpaceTimePointwiseStateObservation.cost self x s = Raise TypeError
  /\ (obs <> [] ->
      SpaceTimePointwiseStateObservation.grad self STATE x (Some lo) s
      = Raise TypeError
      /\ SpaceTimePointwiseStateObservation.apply_ij self STATE STATE direction
           (Some lo) s = Raise TypeError).
Proof.
  intros Hnv Hx Ho Hxs Hdir Hd Hent.
  split.
  - unfold SpaceTimePointwiseStateObservation.cost.
    match goal with |- context [for_each ?es ?body _] =>
      destruct (fun H => for_each_fold (fun _ : unit => s)
                  (fun (a : scalar * unit) t =>
                     (fadd a.1 (inner (residual self (st t) (dd t))
                                      (residual self (st t) (dd t))), tt))
                  (fun _ => True) body es H (lit 0%Z, tt) I) as [Hloop _]
    end.
    { intros t [a []] Ht _. split; [|done]. simpl.
      destruct (Hent t Ht) as (Hs & Hdd & _).
      rewrite (bind_Ok _ _ _ _ _ (getitem_Ok _ _ _ _ Hx)).
      rewrite (bind_Ok _ _ _ _ _ (snapshot_retrieve _ _ _ _ Hs)).
      rewrite (bind_Ok _ _ _ _ _ (snapshot_retrieve _ _ _ _ Hdd)).
      done. }
    simpl in Hloop. rewrite (bind_Ok _ _ _ _ _ Hloop).
    by rewrite Hnv.
  - intros Hne. destruct obs as [|t1 ts] eqn:E; [done|].
    destruct (Hent t1) as (Hs & Hdd & Hdr); [by left|].
    assert (forall r v, r <> Some lo -> snapshot s r t1 = Some v ->
              retrieve r t1 (set_heap (<[lo := zero_obj o]> (heap s)) s)
              = Ok (v, set_heap (<[lo := zero_obj o]> (heap s)) s)) as Hread.
    { intros r v Hr Hv. apply snapshot_retrieve.
      destruct r as [l|]; [|done]. unfold snapshot in *. simpl.
      rewrite list_lookup_insert_ne by congruence. done. }
    split.
    + unfold SpaceTimePointwiseStateObservation.grad.
      rewrite (bind_Ok _ _ _ _ _ (zero_Ok _ _ _ Ho)).
      rewrite decide_True by done. rewrite E. simpl.
      apply bind_Raise.
      rewrite (bind_Ok _ _ _ _ _ (getitem_Ok _ _ _ _ Hx)).
      rewrite (bind_Ok _ _ _ _ _ (Hread _ _ Hxs Hs)).
      rewrite (bind_Ok _ _ _ _ _ (Hread _ _ Hd Hdd)).
      by rewrite Hnv.
    + unfold SpaceTimePointwiseStateObservation.apply_ij.
      rewrite (bind_Ok _ _ _ _ _ (zero_Ok _ _ _ Ho)).
      rewrite decide_True by done. rewrite E. simpl.
      apply bind_Raise.
      rewrite (bind_Ok _ _ _ _ _ (Hread _ _ Hdir Hdr)).
      by rewrite Hnv.
Qed.

(** X14.  The misfit is quadratic in the state, and its two derivatives
    agree.  With data that are zero at every observation time (and
    subtracting the zero vector changing nothing), the gradient
    [grad(STATE, x, out)] at the state [x[STATE]] and the second
    derivative [apply_ij(STATE, STATE, x[STATE], out)] applied to that
    state leave the same snapshot at every time of the output. *)
Theorem grad_without_data_is_hessian_action
    (x : list ref) (xs : ref) (lo : nat) (o : pyobj) (nv : scalar)
    (u : scalar -> vec) (s : state) :
  heap s !! lo = Some o ->
  x !! Z.to_nat STATE = Some xs -> xs <> Some lo ->
  SpaceTimePointwiseStateObservation.d self <> Some lo ->
  SpaceTimePointwiseStateObservation.noise_variance self = Some nv ->
  nv <> lit 0%Z ->
  (forall t, t ∈ obs ->
     snapshot s xs t = Some (u t)
     /\ snapshot s (SpaceTimePointwiseStateObservation.d self) t = Some vzero
     /\ is_Some (snapshot s (Some lo) t)) ->
  (forall w, axpy (lit (-1)%Z) vzero w = w) ->
  exists s1 s2,
    SpaceTimePointwiseStateObservation.grad self STATE x (Some lo) s = Ok (tt, s1)
    /\ SpaceTimePointwiseStateObservation.apply_ij self STATE STATE xs (Some lo) s
       = Ok (tt, s2)
    /\ forall t, is_Some (snapshot s (Some lo) t) ->
         snapshot s1 (Some lo) t = snapshot s2 (Some lo) t.
Proof.
  intros Ho Hx Hxs Hd Hnv Hnz Hent Hax.
  destruct (grad_STATE self x xs lo o nv s u (fun _ => vzero))
    as (s1 & Hg & _ & _ & _ & Hg1 & Hg0); try done;
    try (intros t Ht; by destruct (Hent t Ht) as (? & ? & ?)).
  destruct (misfit_apply_ij_STATE self xs lo o nv s u)
    as (s2 & Hh & _ & _ & Hh1 & Hh0); try done;
    try (intros t Ht; by destruct (Hent t Ht) as (? & ? & ?)).
  exists s1, s2. split; [done|]. split; [done|].
  intros t Hsome. destruct (decide (t ∈ obs)) as [Hin|Hnin].
  - rewrite Hg1, Hh1 by done.
    unfold gradient_snapshot, hessian_snapshot, residual. by rewrite Hax.
  - by rewrite Hg0, Hh0.
Qed.

End MisfitExtras.

(** X18.  A misfit constructed without data can record observations at
    once: [__init__] with [d = None] allocates a data container over the
    observation times, and [observe(x, self.d)] on it returns normally
    and leaves in [self.d] the observation [B (u t)] of the state at
    every observation time [t]. *)
Theorem init_then_observe
    (observation_times : list scalar) (B : op) (nv : option scalar)
    (x : list ref) (xs : ref) (u : scalar -> vec) (s : state) :
  x !! Z.to_nat STATE = Some xs ->
  (forall t, t ∈ observation_times -> snapshot s xs t = Some (u t)) ->
  exists misfit s1 s',
    SpaceTimePointwiseStateObservation.init observation_times B None nv s
    = Ok (misfit, s1)
    /\ SpaceTimePointwiseStateObservation.d misfit = Some (length (heap s))
    /\ SpaceTimePointwiseStateObservation.observe misfit x
         (SpaceTimePointwiseStateObservation.d misfit) s1 = Ok (tt, s')
    /\ (forall l', l' < length (heap s) -> heap s' !! l' = heap s !! l')
    /\ forall t, t ∈ observation_times ->
         snapshot s' (SpaceTimePointwiseStateObservation.d misfit) t
         = Some (op_mult B (u t)).
Proof.
  intros Hx Hu.
  set (n := length (heap s)).
  set (s1 := set_heap (heap s ++ [PyTDV (tdv_new observation_times)]) s).
  assert (Hd : heap s1 !! n = Some (PyTDV (tdv_new observation_times))).
  { unfold s1. simpl. rewrite lookup_app_r by done.
    by replace (n - length (heap s)) with 0 by lia. }
  assert (Hn : n < length (heap s1)) by by eapply lookup_lt_Some.
  assert (Hxs : forall t, t ∈ observation_times -> xs <> Some n).
  { intros t Ht ->. destruct (snapshot_valid _ _ _ _ (Hu t Ht)) as (l & [= <-] & Hl).
    unfold n in Hl. lia. }
  assert (Hent : forall t, t ∈ observation_times ->
                           has_entry (tdv_new observation_times) t).
  { intros t Ht. apply wf_has_entry; [apply tdv_new_wf|done]. }
  set (mf := {| SpaceTimePointwiseStateObservation.observation_times :=
                 observation_times;
               SpaceTimePointwiseStateObservation.B := B;
               SpaceTimePointwiseStateObservation.d := Some n;
               SpaceTimePointwiseStateObservation.noise_variance := nv |}).
  exists mf, s1,
         (with_data s1 n observation_times
            (stored observation_times (fun t => op_mult B (u t))
               observation_times
               ((fun _ => vzero) <$> data (tdv_new observation_times)))).
  split; [reflexivity|].
  change (SpaceTimePointwiseStateObservation.d mf) with (Some n).
  split; [done|]. split; [|split].
  - assert (observation_times = [] \/ xs <> Some n) as [E|Hne].
    { destruct observation_times as [|t1 ts]; [by left|].
      right. apply (Hxs t1). by left. }
    + unfold SpaceTimePointwiseStateObservation.observe. simpl.
      rewrite (bind_Ok _ _ _ _ _ (zero_container _ _ _ Hd)).
      rewrite E. reflexivity.
    + apply (observe_run mf x xs n (tdv_new observation_times) u); try done.
      intros t Ht. destruct (snapshot_valid _ _ _ _ (Hu t Ht)) as (l & -> & Hl).
      unfold s1. rewrite snapshot_alloc by done. by apply Hu.
  - intros l' Hl'. rewrite lookup_with_data_ne by (unfold n; lia).
    by apply lookup_alloc.
  - intros t Ht.
    destruct (Hent t Ht) as (i & Hi & Hlt).
    rewrite (snapshot_with_data_eq _ _ _ _ _ _ Hn Hi).
    apply (stored_hit _ (fun t => op_mult B (u t))); [done|done|].
    by rewrite length_fmap.
Qed.

End Theory.

(** * The claims on the integer backend *)

Section Examples.
Import Z1.
Local Open Scope Z_scope.

(** Case analysis on membership in an explicit list of times. *)
Ltac each_time :=
  let t := fresh "t" in
  let Ht := fresh "Ht" in
  intros t Ht; cbv in Ht;
  repeat (apply elem_of_cons in Ht as [->|Ht]; [try split; vm_compute; eauto|]);
  by apply elem_of_nil in Ht.

Ltac distinct_times :=
  repeat (apply NoDup_cons; split;
          [intros H; repeat (apply elem_of_cons in H as [H|H]; [discriminate H|]);
           by apply elem_of_nil in H|]);
  apply NoDup_nil_2.

(** The methods run on the example store. *)

Example init_example :
  TimeDependentAD.init prior misfit simulation_times (-4) 3 2 2 11 state1
  = Ok (model, state0).
Proof. vm_compute. reflexivity. Qed.

Example solveFwd_run_example :
  (snd <$> outcome (TimeDependentAD.solveFwd model u_ref x state0))
  ≫= (fun s' => heap s' !! 0%nat)
  = Some (PyTDV {| times := [0; 1; 2]; data := [11; 22; 44] |}).
Proof. vm_compute. reflexivity. Qed.

Example solveAdj_run_example :
  (snd <$> outcome (TimeDependentAD.solveAdj model p_ref x state0))
  ≫= (fun s' => heap s' !! 2%nat)
  = Some (PyTDV {| times := [0; 1; 2]; data := [40; 20; 12] |}).
Proof. vm_compute. reflexivity. Qed.

Example grad_run_example :
  (snd <$> outcome
     (SpaceTimePointwiseStateObservation.grad misfit STATE x out_ref state0))
  ≫= (fun s' => heap s' !! 4%nat)
  = Some (PyTDV {| times := [0; 1; 2]; data := [0; 4; -12] |}).
Proof. vm_compute. reflexivity. Qed.

Example cost_without_noise_variance :
  SpaceTimePointwiseStateObservation.cost
    {| SpaceTimePointwiseStateObservation.observation_times := observation_times;
       SpaceTimePointwiseStateObservation.B := 2;
       SpaceTimePointwiseStateObservation.d := d_ref;
       SpaceTimePointwiseStateObservation.noise_variance := None |} x state0
  = Raise TypeError.
Proof. vm_compute. reflexivity. Qed.

Example apply_ij_before_setPoint :
  TimeDependentAD.apply_ij model STATE PARAMETER dir_ref out_ref state0
  = Raise AttributeError.
Proof. vm_compute. reflexivity. Qed.

(** The hypotheses of the claims hold, and their conclusions apply, on
    the example store. *)

Lemma solveFwdIncremental_recurrence_witness :
  exists s',
    TimeDependentAD.solveFwdIncremental model out_ref u_ref state1 = Ok (tt, s')
    /\ snapshot s' out_ref 0 = Some 0.
Proof.
  destruct (solveFwdIncremental_recurrence model 4 u_ref
              {| times := simulation_times; data := [8; 8; 8] |} 1 u_at state1)
    as (s' & Hrun & _ & _ & H0 & _).
  - reflexivity.
  - reflexivity.
  - reflexivity.
  - distinct_times.
  - discriminate.
  - discriminate.
  - reflexivity.
  - each_time.
  - intros b. simpl. rewrite Z.div_1_r. lia.
  - exists s'. split; [exact Hrun|]. by apply H0.
Defined.

Lemma solveFwd_marches_forward_witness :
  exists s',
    TimeDependentAD.solveFwd model u_ref x state0 = Ok (tt, s')
    /\ snapshot s' u_ref 0 = Some 11.
Proof.
  destruct (solveFwd_marches_forward model 0 0 x m_ref
              {| times := simulation_times; data := [5; 6; 7] |}
              {| times := simulation_times; data := [5; 6; 7] |} 1 state0)
    as (s' & Hrun & _ & _ & _ & H0 & _).
  - reflexivity.
  - reflexivity.
  - reflexivity.
  - reflexivity.
  - reflexivity.
  - reflexivity.
  - reflexivity.
  - reflexivity.
  - reflexivity.
  - distinct_times.
  - reflexivity.
  - intros b. change (1 * (b / 1) = b). rewrite Z.div_1_r. lia.
  - exists s'. split; [exact Hrun|exact H0].
Defined.

Lemma solveFwd_effects_witness :
  exists s',
    TimeDependentAD.solveFwd model out_ref x state0 = Ok (tt, s')
    /\ snapshot s' u_ref 0 = Some 11
    /\ snapshot s' out_ref 0 = Some 0.
Proof.
  destruct (solveFwd_effects model 4 0 x m_ref
              {| times := simulation_times; data := [8; 8; 8] |}
              {| times := simulation_times; data := [5; 6; 7] |} 1 state0)
    as (s' & Hrun & H0 & _ & Hne & _).
  - reflexivity.
  - reflexivity.
  - reflexivity.
  - reflexivity.
  - reflexivity.
  - reflexivity.
  - reflexivity.
  - reflexivity.
  - reflexivity.
  - distinct_times.
  - reflexivity.
  - exists s'. split; [exact Hrun|]. split; [exact H0|].
    apply Hne. discriminate.
Defined.

Lemma solveAdj_marches_backward_witness :
  exists s', TimeDependentAD.solveAdj model p_ref x state0 = Ok (tt, s').
Proof.
  destruct (solveAdj_marches_backward model 2 0 3 1 x
              {| times := simulation_times; data := [2; 3; 4] |}
              {| times := simulation_times; data := [5; 6; 7] |}
              {| times := observation_times; data := [10; 20] |}
              1 1 u_at d_at state0)
    as (s' & Hrun & _).
  - reflexivity.
  - reflexivity.
  - reflexivity.
  - reflexivity.
  - reflexivity.
  - reflexivity.
  - reflexivity.
  - reflexivity.
  - reflexivity.
  - reflexivity.
  - discriminate.
  - intros t Ht. cbv in Ht.
    repeat (apply elem_of_cons in Ht as [->|Ht];
            [apply list_elem_of_lookup;
             first [by exists 1%nat | by exists 2%nat]|]).
    by apply elem_of_nil in Ht.
  - each_time.
  - each_time.
  - distinct_times.
  - intros b. change (1 * (b / 1) = b). rewrite Z.div_1_r. lia.
  - reflexivity.
  - exists s'. exact Hrun.
Defined.

Lemma cost_sums_over_observation_times_witness :
  SpaceTimePointwiseStateObservation.cost misfit x state0 = Ok (20, state0).
Proof.
  destruct (cost_sums_over_observation_times misfit x 0 3
              {| times := simulation_times; data := [5; 6; 7] |}
              {| times := observation_times; data := [10; 20] |}
              1 u_at d_at state0) as [Hrun _].
  - reflexivity.
  - reflexivity.
  - reflexivity.
  - reflexivity.
  - reflexivity.
  - discriminate.
  - each_time.
  - each_time.
  - exact Hrun.
Defined.

Lemma grad_nonzero_only_for_state_witness :
  exists s',
    SpaceTimePointwiseStateObservation.grad misfit STATE x out_ref state0
    = Ok (tt, s')
    /\ snapshot s' out_ref 1 = Some 4.
Proof.
  destruct (grad_nonzero_only_for_state misfit STATE x 4
              (PyTDV {| times := simulation_times; data := [8; 8; 8] |})
              1 u_at d_at state0)
    as (s' & Hrun & _ & _ & Hstate & _).
  - reflexivity.
  - intros _. exists u_ref.
    split; [reflexivity|]. split; [discriminate|]. split; [discriminate|].
    split; [reflexivity|]. split; [discriminate|]. each_time.
  - exists s'. split; [exact Hrun|].
    destruct (Hstate eq_refl) as [Hobs _]. apply (Hobs 1). by left.
Defined.

Lemma misfit_apply_ij_nonzero_only_for_state_state_witness :
  exists s',
    SpaceTimePointwiseStateObservation.apply_ij misfit STATE STATE du_ref
      out_ref state0 = Ok (tt, s')
    /\ snapshot s' out_ref 2 = Some 8.
Proof.
  destruct (misfit_apply_ij_nonzero_only_for_state_state misfit STATE STATE
              du_ref 4
              (PyTDV {| times := simulation_times; data := [8; 8; 8] |})
              1 du_at state0)
    as (s' & Hrun & _ & _ & Hstate & _).
  - reflexivity.
  - intros _. split; [discriminate|]. split; [reflexivity|].
    split; [discriminate|]. each_time.
  - exists s'. split; [exact Hrun|].
    destruct (Hstate (conj eq_refl eq_refl)) as [Hobs _].
    apply (Hobs 2). right. by left.
Defined.

Lemma apply_ij_unsupported_block_returns_zero_witness :
  exists s',
    TimeDependentAD.apply_ij model STATE ADJOINT dir_ref out_ref state1
    = Ok (tt, s').
Proof.
  destruct (apply_ij_unsupported_block_returns_zero model STATE ADJOINT dir_ref
              4 1 (PyTDV {| times := simulation_times; data := [8; 8; 8] |})
              1 u_ref p_ref state1)
    as (s' & Hrun & _).
  - unfold handled_block. intros H. decompose [and or] H; discriminate.
  - reflexivity.
  - reflexivity.
  - reflexivity.
  - exists s'. exact Hrun.
Defined.

Lemma linearization_point_state1 :
  linearization_point model state1 0 1 2 1 u_at p_at.
Proof.
  split; [reflexivity|]. split; [reflexivity|].
  exists {| times := simulation_times; data := [5; 6; 7] |},
         {| times := simulation_times; data := [2; 3; 4] |}.
  split; [reflexivity|]. split; [reflexivity|]. each_time.
Defined.

Lemma apply_ij_block_shapes_witness :
  (exists s',
     TimeDependentAD.apply_ij model STATE PARAMETER dir_ref out_ref state1
     = Ok (tt, s')
     /\ snapshot s' out_ref 0 = Some 0)
  /\ (exists s',
        TimeDependentAD.apply_ij model PARAMETER STATE du_ref vec_ref state1
        = Ok (tt, s')
        /\ vector_of s' vec_ref
           = Some (accumulated_block model wrt_u 1 u_at p_at du_at)).
Proof.
  destruct (apply_ij_block_shapes model 4 0 1 2 6 1 u_at p_at state1)
    as (Htime & _ & _ & _).
  { exact linearization_point_state1. }
  { distinct_times. }
  { discriminate. }
  destruct (apply_ij_block_shapes model 5 0 1 2 7 1 u_at p_at state1)
    as (_ & _ & Hrow & _).
  { exact linearization_point_state1. }
  { distinct_times. }
  { discriminate. }
  split.
  - destruct (Htime STATE wrt_u
                {| times := simulation_times; data := [8; 8; 8] |} 2)
      as (s' & Hrun & _ & H0 & _); try reflexivity; try discriminate.
    { by left. }
    exists s'. split; [exact Hrun|]. by apply H0.
  - destruct (Hrow STATE wrt_u 9
                {| times := simulation_times; data := [1; 1; 2] |} du_at)
      as (s' & Hrun & _ & Hv); try reflexivity; try discriminate.
    { by right. }
    { each_time. }
    exists s'. split; [exact Hrun|exact Hv].
Defined.

Lemma evalGradientParameter_gradient_witness :
  exists G s',
    TimeDependentAD.evalGradientParameter model x vec_ref false state0
    = Ok (G * G, s')
    /\ vector_of s' vec_ref = Some G.
Proof.
  destruct (evalGradientParameter_gradient model 5 0 2 1 x
              {| times := simulation_times; data := [5; 6; 7] |}
              {| times := simulation_times; data := [2; 3; 4] |}
              1 9 u_at p_at false state0)
    as (G & s' & Hrun & HG & _).
  - reflexivity.
  - discriminate.
  - reflexivity.
  - reflexivity.
  - reflexivity.
  - reflexivity.
  - reflexivity.
  - reflexivity.
  - each_time.
  - each_time.
  - exists G, s'. split; [exact Hrun|exact HG].
Defined.

(** C1, as stated, fails: for the pairs [(STATE, ADJOINT)],
    [(ADJOINT, STATE)] and [(ADJOINT, ADJOINT)] the model's [apply_ij]
    raises nothing. *)
Lemma apply_ij_unsupported_block_does_not_raise :
  raised (TimeDependentAD.apply_ij model STATE ADJOINT dir_ref out_ref state1)
  = false
  /\ raised (TimeDependentAD.apply_ij model ADJOINT STATE du_ref out_ref state1)
     = false
  /\ raised (TimeDependentAD.apply_ij model ADJOINT ADJOINT du_ref out_ref state1)
     = false.
Proof. repeat split; vm_compute; reflexivity. Qed.

(** C2, as stated, fails: the block [(PARAMETER, STATE)], which is
    indexed by [(., state)], is not a time-indexed result.  Given a
    container as output the call stops with a [TypeError]; given a
    vector it leaves the single vector [22]. *)
Lemma apply_ij_parameter_state_is_not_time_indexed :
  TimeDependentAD.apply_ij model PARAMETER STATE du_ref out_ref state1
  = Raise TypeError
  /\ (snd <$> outcome
        (TimeDependentAD.apply_ij model PARAMETER STATE du_ref vec_ref state1))
     ≫= (fun s' => heap s' !! 5%nat)
     = Some (PyVector 22).
Proof. split; vm_compute; reflexivity. Qed.

(** C5, as stated, fails: the value returned is not a norm of the
    gradient.  Here the gradient is [95], the prior's mass matrix is the
    identity, and the value returned is [9025 = 95 * 95], whose square is
    not the squared norm [95 * 95]. *)
Lemma evalGradientParameter_returns_squared_norm :
  (fst <$> outcome
     (TimeDependentAD.evalGradientParameter model x vec_ref false state0))
  = Some 9025
  /\ (snd <$> outcome
        (TimeDependentAD.evalGradientParameter model x vec_ref false state0))
     ≫= (fun s' => vector_of s' vec_ref)
     = Some 95
  /\ fmul 9025 9025 <> inner (Msolver_solve prior 95) 95.
Proof. split; [|split]; vm_compute; [reflexivity|reflexivity|discriminate]. Qed.

(** C10, as stated, fails: called as the program calls it, with the
    state container itself as output, [solveFwd] leaves the initial
    condition [11], not zero, in the output at time [0]. *)
Lemma solveFwd_output_at_initial_time_not_zero :
  (snd <$> outcome (TimeDependentAD.solveFwd model u_ref x state0))
  ≫= (fun s' => snapshot s' u_ref 0)
  = Some 11
  /\ (11 : Z) <> vzero.
Proof. split; vm_compute; [reflexivity|discriminate]. Qed.

(** The hypotheses of the further properties hold, and their conclusions
    apply, on the example store. *)

Lemma solveAdjIncremental_recurrence_witness :
  exists s',
    TimeDependentAD.solveAdjIncremental model out_ref u_ref state1 = Ok (tt, s')
    /\ snapshot s' out_ref 2 = Some (-7).
Proof.
  destruct (solveAdjIncremental_recurrence model 4 u_ref
              {| times := simulation_times; data := [8; 8; 8] |} 1
              (fun t => if decide (t = 0) then 5 else u_at t) state1)
    as (s' & Hrun & _ & _ & Hrec).
  - reflexivity.
  - reflexivity.
  - reflexivity.
  - distinct_times.
  - discriminate.
  - reflexivity.
  - each_time.
  - intros b. simpl. rewrite Z.div_1_r. lia.
  - exists s'. split; [exact Hrun|].
    destruct (Hrec 2%nat 2 eq_refl) as (dp & dpnext & Hdp & Hnext & Heq & _).
    simpl in Hnext. subst dpnext.
    etransitivity; [exact Hdp|]. rewrite Heq. reflexivity.
Defined.

(** Membership in the simulation grid of the observation times. *)
Ltac on_grid :=
  let t := fresh "t" in
  let Ht := fresh "Ht" in
  intros t Ht; cbv in Ht;
  repeat (apply elem_of_cons in Ht as [->|Ht];
          [apply list_elem_of_lookup;
           first [by exists 0%nat | by exists 1%nat | by exists 2%nat]|]);
  by apply elem_of_nil in Ht.

Lemma incremental_solves_need_their_solver_witness :
  TimeDependentAD.solveFwdIncremental model out_ref u_ref state0
  = Raise AttributeError
  /\ TimeDependentAD.solveAdjIncremental model out_ref u_ref state0
     = Raise AttributeError.
Proof.
  destruct (incremental_solves_need_their_solver model 4 u_ref
              {| times := simulation_times; data := [8; 8; 8] |} state0)
    as [Hfwd Hadj].
  - reflexivity.
  - reflexivity.
  - reflexivity.
  - simpl. lia.
  - discriminate.
  - each_time.
  - split; [apply Hfwd|apply Hadj]; reflexivity.
Defined.

Lemma incremental_solves_of_zero_witness :
  exists s',
    TimeDependentAD.solveFwdIncremental model out_ref du_ref
      (with_data state1 7 simulation_times [0; 0; 0]) = Ok (tt, s')
    /\ snapshot s' out_ref 2 = Some 0.
Proof.
  destruct (incremental_solves_of_zero model 4 du_ref
              {| times := simulation_times; data := [8; 8; 8] |} 1 1
              (with_data state1 7 simulation_times [0; 0; 0]))
    as [(s' & Hrun & Hzero) _].
  - reflexivity.
  - reflexivity.
  - reflexivity.
  - distinct_times.
  - discriminate.
  - discriminate.
  - reflexivity.
  - reflexivity.
  - each_time.
  - reflexivity.
  - reflexivity.
  - reflexivity.
  - reflexivity.
  - reflexivity.
  - exists s'. split; [exact Hrun|]. apply Hzero.
    apply list_elem_of_lookup. by exists 2%nat.
Defined.

Lemma apply_ij_needs_linearization_point_witness :
  raised (TimeDependentAD.apply_ij model PARAMETER STATE du_ref vec_ref state0)
  = true.
Proof.
  destruct (apply_ij_needs_linearization_point model PARAMETER STATE du_ref 5
              (PyVector 9) state0) as [Hraise _].
  - reflexivity.
  - reflexivity.
  - apply Hraise. intros [H _]. discriminate H.
Defined.

Lemma generate_vector_allocates_witness :
  exists res new,
    TimeDependentAD.generate_vector model TimeDependentAD.ALL state0
    = Ok (res, set_heap (heap state0 ++ new) state0)
    /\ refs_of res = [Some 8%nat; Some 9%nat; Some 10%nat].
Proof.
  destruct (generate_vector_allocates model TimeDependentAD.ALL state0)
    as [Hok _].
  destruct (Hok I) as (res & new & Hrun & Hrefs & Hlen & _).
  exists res, new. split; [exact Hrun|].
  rewrite Hrefs, Hlen. reflexivity.
Defined.

Lemma solveFwd_on_generated_vectors_witness :
  exists x' s1 s',
    TimeDependentAD.generate_vector model TimeDependentAD.ALL state0
    = Ok (TimeDependentAD.Triple x', s1)
    /\ (xs <- getitem x' STATE ;; TimeDependentAD.solveFwd model xs x') s1
       = Ok (tt, s')
    /\ snapshot s' (Some 8%nat) 0 = Some 11.
Proof.
  destruct (solveFwd_on_generated_vectors model state0)
    as (x' & s1 & s' & Hgen & Hrun & _ & Hsnap).
  - distinct_times.
  - reflexivity.
  - exists x', s1, s'. split; [exact Hgen|]. split; [exact Hrun|].
    apply (Hsnap 0%nat 0). reflexivity.
Defined.

Lemma cost_is_regularization_plus_misfit_witness :
  TimeDependentAD.cost model x state0 = Ok ([23; 3; 20], state0).
Proof.
  destruct (cost_is_regularization_plus_misfit model x 0 1 3
              {| times := simulation_times; data := [5; 6; 7] |}
              {| times := observation_times; data := [10; 20] |}
              1 1 u_at d_at state0) as (reg & mis & Hrun & Hreg & Hmis).
  - reflexivity.
  - reflexivity.
  - reflexivity.
  - reflexivity.
  - reflexivity.
  - reflexivity.
  - reflexivity.
  - discriminate.
  - each_time.
  - each_time.
  - rewrite Hrun. injection Hmis as <-. rewrite Hreg. reflexivity.
Defined.

Lemma exportState_frames_witness :
  TimeDependentAD.exportState model x state0
  = Ok ([(1, 0); (6, 1); (7, 2)], state0).
Proof.
  destruct (exportState_frames model x u_ref m_ref 1 u_at 0 state0)
    as [Hrun _].
  - reflexivity.
  - reflexivity.
  - reflexivity.
  - reflexivity.
  - each_time.
  - exact Hrun.
Defined.


Lemma init_needs_two_times_witness :
  TimeDependentAD.init prior misfit [0] (-4) 3 2 2 11 state0 = Raise IndexError.
Proof.
  destruct (init_needs_two_times prior misfit [0] (-4) 3 2 2 11 state0)
    as [[_ Hshort] _].
  apply Hshort. simpl. lia.
Defined.

Lemma reduced_gradient_pipeline_witness :
  exists s1 s2 s3 g0,
    TimeDependentAD.solveFwd model u_ref x state0 = Ok (tt, s1)
    /\ TimeDependentAD.solveAdj model p_ref x s1 = Ok (tt, s2)
    /\ TimeDependentAD.evalGradientParameter model x vec_ref false s2
       = Ok (g0 * g0, s3)
    /\ vector_of s3 vec_ref = Some g0.
Proof.
  destruct (reduced_gradient_pipeline model 0 2 1 3 5
              {| times := simulation_times; data := [5; 6; 7] |}
              {| times := simulation_times; data := [2; 3; 4] |}
              {| times := observation_times; data := [10; 20] |}
              1 9 1 d_at false state0)
    as (s1 & s2 & s3 & u & p & Hfwd & Hadj & Hev & Hvec & _).
  - reflexivity.
  - reflexivity.
  - reflexivity.
  - reflexivity.
  - reflexivity.
  - reflexivity.
  - discriminate.
  - reflexivity.
  - reflexivity.
  - discriminate.
  - reflexivity.
  - reflexivity.
  - discriminate.
  - reflexivity.
  - discriminate.
  - on_grid.
  - each_time.
  - distinct_times.
  - reflexivity.
  - exists s1, s2, s3, (reduced_gradient model 1 u p false).
    split; [exact Hfwd|]. split; [exact Hadj|]. split; [exact Hev|exact Hvec].
Defined.

Lemma observe_samples_state_witness :
  exists s',
    SpaceTimePointwiseStateObservation.observe misfit x out_ref state0
    = Ok (tt, s')
    /\ snapshot s' out_ref 1 = Some 12
    /\ snapshot s' out_ref 0 = Some 0.
Proof.
  destruct (observe_samples_state misfit x u_ref 4
              {| times := simulation_times; data := [8; 8; 8] |} u_at state0)
    as (s' & Hrun & _ & _ & Hobs & Hrest).
  - reflexivity.
  - reflexivity.
  - discriminate.
  - each_time.
  - intros t Ht. apply wf_has_entry; [reflexivity|]. revert t Ht. on_grid.
  - exists s'. split; [exact Hrun|]. split.
    + apply (Hobs 1). by left.
    + apply (Hrest 0).
      * intros H. cbv in H.
        repeat (apply elem_of_cons in H as [H|H]; [discriminate H|]).
        by apply elem_of_nil in H.
      * apply wf_has_entry; [reflexivity|].
        apply list_elem_of_lookup. by exists 0%nat.
Defined.

Lemma observe_then_cost_vanishes_witness :
  exists s',
    (SpaceTimePointwiseStateObservation.observe misfit x d_ref ;;;
     SpaceTimePointwiseStateObservation.cost misfit x) state0 = Ok (0, s').
Proof.
  destruct (observe_then_cost_vanishes misfit x 0 3
              {| times := simulation_times; data := [5; 6; 7] |}
              {| times := observation_times; data := [10; 20] |}
              1 u_at state0) as (s' & Hrun).
  - reflexivity.
  - reflexivity.
  - reflexivity.
  - reflexivity.
  - discriminate.
  - reflexivity.
  - discriminate.
  - each_time.
  - intros t Ht. by apply wf_has_entry.
  - intros v. simpl. lia.
  - reflexivity.
  - reflexivity.
  - exists s'. exact Hrun.
Defined.

Lemma unset_noise_variance_raises_witness :
  SpaceTimePointwiseStateObservation.grad
    {| SpaceTimePointwiseStateObservation.observation_times := observation_times;
       SpaceTimePointwiseStateObservation.B := 2;
       SpaceTimePointwiseStateObservation.d := d_ref;
       SpaceTimePointwiseStateObservation.noise_variance := None |}
    STATE x out_ref state0
  = Raise TypeError.
Proof.
  destruct (unset_noise_variance_raises
              {| SpaceTimePointwiseStateObservation.observation_times :=
                   observation_times;
                 SpaceTimePointwiseStateObservation.B := 2;
                 SpaceTimePointwiseStateObservation.d := d_ref;
                 SpaceTimePointwiseStateObservation.noise_variance := None |}
              x u_ref du_ref 4
              (PyTDV {| times := simulation_times; data := [8; 8; 8] |})
              u_at d_at du_at state0) as [_ Hgrad].
  - reflexivity.
  - reflexivity.
  - reflexivity.
  - discriminate.
  - discriminate.
  - discriminate.
  - each_time.
  - destruct Hgrad as [Hg _]; [discriminate|]. exact Hg.
Defined.

Lemma grad_without_data_is_hessian_action_witness :
  exists s1 s2,
    SpaceTimePointwiseStateObservation.grad misfit STATE x out_ref
      (with_data state0 3 observation_times [0; 0]) = Ok (tt, s1)
    /\ SpaceTimePointwiseStateObservation.apply_ij misfit STATE STATE u_ref
         out_ref (with_data state0 3 observation_times [0; 0]) = Ok (tt, s2)
    /\ snapshot s1 out_ref 2 = snapshot s2 out_ref 2.
Proof.
  destruct (grad_without_data_is_hessian_action misfit x u_ref 4
              (PyTDV {| times := simulation_times; data := [8; 8; 8] |})
              1 u_at (with_data state0 3 observation_times [0; 0]))
    as (s1 & s2 & Hg & Hh & Heq).
  - reflexivity.
  - reflexivity.
  - discriminate.
  - discriminate.
  - reflexivity.
  - discriminate.
  - each_time.
  - intros w. simpl. lia.
  - exists s1, s2. split; [exact Hg|]. split; [exact Hh|].
    apply Heq. by exists 8.
Defined.

Lemma init_then_observe_witness :
  exists misfit' s1 s',
    SpaceTimePointwiseStateObservation.init observation_times 2 None (Some 1)
      state0 = Ok (misfit', s1)
    /\ SpaceTimePointwiseStateObservation.observe misfit' x
         (SpaceTimePointwiseStateObservation.d misfit') s1 = Ok (tt, s')
    /\ snapshot s' (SpaceTimePointwiseStateObservation.d misfit') 2 = Some 14.
Proof.
  destruct (init_then_observe observation_times 2 (Some 1) x u_ref u_at state0)
    as (misfit' & s1 & s' & Hinit & _ & Hrun & _ & Hobs).
  - reflexivity.
  - each_time.
  - exists misfit', s1, s'. split; [exact Hinit|]. split; [exact Hrun|].
    apply (Hobs 2). right. by left.
Defined.

Lemma updategrade_accumulates_witness :
  exists s',
    TimeDependentAD.updategrade model vec_ref x state0 = Ok (tt, s')
    /\ vector_of s' vec_ref = Some 92.
Proof.
  destruct (updategrade_accumulates model 5 0 2 1 x
              {| times := simulation_times; data := [5; 6; 7] |}
              {| times := simulation_times; data := [2; 3; 4] |}
              1 9 u_at p_at state0) as (s' & Hrun & Hvec & _).
  - reflexivity.
  - reflexivity.
  - reflexivity.
  - reflexivity.
  - reflexivity.
  - reflexivity.
  - reflexivity.
  - each_time.
  - each_time.
  - exists s'. split; [exact Hrun|]. etransitivity; [exact Hvec|]. reflexivity.
Defined.

Lemma solveFwdIncremental_uses_cached_solver_witness :
  exists s1 s',
    TimeDependentAD.solveFwd model u_ref x state0 = Ok (tt, s1)
    /\ TimeDependentAD.solveFwdIncremental model out_ref du_ref s1 = Ok (tt, s').
Proof.
  destruct (solveFwdIncremental_uses_cached_solver model 0 0 x m_ref
              {| times := simulation_times; data := [5; 6; 7] |}
              {| times := simulation_times; data := [5; 6; 7] |} 1 state0)
    as (s1 & Hrun & Hinc).
  - reflexivity.
  - reflexivity.
  - reflexivity.
  - reflexivity.
  - reflexivity.
  - reflexivity.
  - reflexivity.
  - reflexivity.
  - reflexivity.
  - distinct_times.
  - reflexivity.
  - exists s1. eexists. split; [exact Hrun|].
    assert (s1 = {| heap := <[0%nat := PyTDV {| times := simulation_times;
                                                 data := [11; 22; 44] |}]> store0;
                    self_attrs := TimeDependentAD.assign_Fwd 2 1 1 attrs0 |})
      as Hs1.
    { vm_compute in Hrun. injection Hrun as <-. reflexivity. }
    apply (Hinc s1 4%nat du_ref
             {| times := simulation_times; data := [8; 8; 8] |} du_at).
    + reflexivity.
    + rewrite Hs1. reflexivity.
    + reflexivity.
    + reflexivity.
    + discriminate.
    + rewrite Hs1. each_time.
Defined.


End Examples.
